(** * Tide record normalisation: the feed pipeline and the day-page pipeline

    A shallow embedding of [scripts/tide_scraper.py] and
    [scripts/tide_scraper_week.py], and the properties of the records they
    hand to the storage client.

    Text is modelled as a list of characters whose code points lie below
    256; the character classes of the regular expressions, of [str.strip]
    and of [str.splitlines] are written out for that range.  The external
    collaborators (the feed parser, the HTTP client, the DOM library, the
    storage client, the clock) appear as inputs of the functions that
    consume their results; the functions of Python's standard library
    that the scripts call ([float], [round], [int], [re], [datetime],
    [zoneinfo]) are modelled as CPython 3.11 computes them. *)

From Stdlib Require Import List Ascii String ZArith Lia Bool.
From Stdlib Require Import Permutation Sorted.
From Stdlib Require Import Floats.SpecFloat.
Import ListNotations.

Set Implicit Arguments.
Local Open Scope Z_scope.
Local Open Scope list_scope.

(** ** Text *)

Module Text.

Definition str := list ascii.

Definition ord (c : ascii) : Z := Z.of_N (N_of_ascii c).

Definition chr_eqb (a b : ascii) : bool := Ascii.eqb a b.

Fixpoint str_eqb (s t : str) : bool :=
  match s, t with
  | [], [] => true
  | a :: s', b :: t' => chr_eqb a b && str_eqb s' t'
  | _, _ => false
  end.

(** [s < t] on Python strings: lexicographic on code points. *)
Fixpoint str_ltb (s t : str) : bool :=
  match s, t with
  | _, [] => false
  | [], _ :: _ => true
  | a :: s', b :: t' =>
      if ord a <? ord b then true
      else if ord b <? ord a then false
      else str_ltb s' t'
  end.

Definition str_lt (s t : str) : Prop := str_ltb s t = true.

Definition in_range (lo hi : Z) (c : ascii) : bool :=
  (lo <=? ord c) && (ord c <=? hi).

(** [str.isspace] and the regex class [\s], for code points below 256. *)
Definition Py_UNICODE_ISSPACE (c : ascii) : bool :=
  in_range 9 13 c || in_range 28 31 c || (ord c =? 32)
  || (ord c =? 133) || (ord c =? 160).

(** The C-locale whitespace test used by [float] and [int] after the
    text has been brought to ASCII. *)
Definition Py_ISSPACE (c : ascii) : bool :=
  in_range 9 13 c || (ord c =? 32).

(** The regex class [\d], for code points below 256. *)
Definition Py_UNICODE_ISDECIMAL (c : ascii) : bool := in_range 48 57 c.

(** Line boundaries of [str.splitlines] other than the pair CR LF. *)
Definition is_linebreak (c : ascii) : bool :=
  in_range 10 13 c || in_range 28 30 c || (ord c =? 133).

Fixpoint lstrip_with (p : ascii -> bool) (s : str) : str :=
  match s with
  | c :: s' => if p c then lstrip_with p s' else s
  | [] => []
  end.

Definition rstrip_with (p : ascii -> bool) (s : str) : str :=
  rev (lstrip_with p (rev s)).

Definition strip_with (p : ascii -> bool) (s : str) : str :=
  rstrip_with p (lstrip_with p s).

(** [s.strip()] *)
Definition strip (s : str) : str := strip_with Py_UNICODE_ISSPACE s.

(** [s.replace(c, '')] for a one-character [c]. *)
Definition remove_char (c : ascii) (s : str) : str :=
  filter (fun x => negb (chr_eqb x c)) s.

(** [s.split(sep)] for a one-character separator. *)
Fixpoint split (sep : ascii) (s : str) : list str :=
  match s with
  | [] => [[]]
  | c :: s' =>
      if chr_eqb c sep then [] :: split sep s'
      else match split sep s' with
           | h :: t => (c :: h) :: t
           | [] => [[c]]
           end
  end.

(** [s.splitlines()]: [cur] holds the characters of the line being read,
    last one first. *)
Fixpoint splitlines_from (cur : str) (s : str) : list str :=
  match s with
  | [] => match cur with [] => [] | _ :: _ => [rev cur] end
  | c :: s' =>
      if ord c =? 13 then
        match s' with
        | c' :: s'' =>
            if ord c' =? 10 then rev cur :: splitlines_from [] s''
            else rev cur :: splitlines_from [] s'
        | [] => [rev cur]
        end
      else if is_linebreak c then rev cur :: splitlines_from [] s'
      else splitlines_from (c :: cur) s'
  end.

Definition splitlines (s : str) : list str := splitlines_from [] s.

Definition digit_val (c : ascii) : Z := ord c - 48.

(** The number written by a run of decimal digits. *)
Definition Z_of_digits (s : str) : Z :=
  fold_left (fun acc c => 10 * acc + digit_val c) s 0.

Definition digit_chr (n : Z) : ascii :=
  ascii_of_N (Z.to_N (48 + n mod 10)).

(** The last [w] decimal digits of [n], most significant first. *)
Fixpoint digits_fixed (w : nat) (n : Z) : str :=
  match w with
  | O => []
  | S w' => digits_fixed w' (n / 10) ++ [digit_chr n]
  end.

(** Number of decimal digits of [n >= 0] beyond the first, with [fuel]
    bounding the search. *)
Fixpoint extra_digits (fuel : nat) (n : Z) : nat :=
  match fuel with
  | O => O
  | S f => if n <? 10 then O else S (extra_digits f (n / 10))
  end.

(** ["%0wd" % n] for [n >= 0]: at least [w] digits, zero padded. *)
Definition fmt_d (w : nat) (n : Z) : str :=
  digits_fixed (Nat.max w (S (extra_digits (Z.to_nat n) n))) n.

End Text.

Export Text.

Notation "'$' s" := (list_ascii_of_string s) (at level 1, format "'$' s").

(** ** Exceptions and outcomes *)

Module Py.

(** The exception classes that the two scripts and the library calls
    they make can raise. *)
Inductive exn : Type :=
| ValueError
| AttributeError
| IndexError
| OverflowError
| UnboundLocalError
| RequestException
| StorageError.

Definition exn_eqb (a b : exn) : bool :=
  match a, b with
  | ValueError, ValueError
  | AttributeError, AttributeError
  | IndexError, IndexError
  | OverflowError, OverflowError
  | UnboundLocalError, UnboundLocalError
  | RequestException, RequestException
  | StorageError, StorageError => true
  | _, _ => false
  end.

(** [except (c1, c2, ...)] *)
Definition caught_by (classes : list exn) (e : exn) : bool :=
  existsb (exn_eqb e) classes.

Inductive result (A : Type) : Type :=
| Ok (a : A)
| Raise (e : exn).

Arguments Ok {A} a.
Arguments Raise {A} e.

Definition bind {A B : Type} (r : result A) (f : A -> result B) : result B :=
  match r with
  | Ok a => f a
  | Raise e => Raise e
  end.

(** Attribute access or method call on what may lack the attribute:
    [None], or a feed entry without the key. *)
Definition attr_of {A : Type} (o : option A) : result A :=
  match o with
  | Some a => Ok a
  | None => Raise AttributeError
  end.

(** [l[i]] *)
Definition subscript {A : Type} (l : list A) (i : nat) : result A :=
  match nth_error l i with
  | Some a => Ok a
  | None => Raise IndexError
  end.

End Py.

Export Py.

Declare Scope py_scope.
Delimit Scope py_scope with py.
Notation "x <- c ;; k" := (Py.bind c (fun x => k))
  (at level 61, c at next level, right associativity) : py_scope.
Local Open Scope py_scope.

(** ** Regular expressions

    The fragment of Python's [re] syntax that the scripts and [strptime]
    use, matched by backtracking in the order [re] tries the alternatives:
    the left branch of [|] first, the longest run first for [+], the
    shortest first for [+?]. *)

Module Re.

Inductive regex : Type :=
| Lit (s : str)                    (* literal text *)
| Cls (p : ascii -> bool)          (* one character of a class *)
| Cat (r1 r2 : regex)              (* r1 r2 *)
| Alt (r1 r2 : regex)              (* r1|r2 *)
| Plus (p : ascii -> bool)         (* [class]+ *)
| PlusLazy (p : ascii -> bool)     (* [class]+? *)
| Group (i : nat) (r : regex).     (* the i-th capturing group *)

(** Groups captured so far, the latest first. *)
Definition captures := list (nat * str).

Fixpoint strip_prefix (p s : str) : option str :=
  match p, s with
  | [], _ => Some s
  | a :: p', b :: s' => if chr_eqb a b then strip_prefix p' s' else None
  | _ :: _, [] => None
  end.

Section Matcher.
Variable A : Type.

Definition cont := str -> captures -> option A.

Fixpoint plus_greedy (p : ascii -> bool) (s : str) (caps : captures)
         (k : cont) : option A :=
  match s with
  | c :: s' =>
      if p c then
        match plus_greedy p s' caps k with
        | Some a => Some a
        | None => k s' caps
        end
      else None
  | [] => None
  end.

Fixpoint plus_lazy (p : ascii -> bool) (s : str) (caps : captures)
         (k : cont) : option A :=
  match s with
  | c :: s' =>
      if p c then
        match k s' caps with
        | Some a => Some a
        | None => plus_lazy p s' caps k
        end
      else None
  | [] => None
  end.

(** [matches r s caps k]: match [r] at the start of [s], then hand the
    rest of the text to [k]; when [k] fails, try the next way to match
    [r]. *)
Fixpoint matches (r : regex) (s : str) (caps : captures) (k : cont)
  : option A :=
  match r with
  | Lit l =>
      match strip_prefix l s with
      | Some s' => k s' caps
      | None => None
      end
  | Cls p =>
      match s with
      | c :: s' => if p c then k s' caps else None
      | [] => None
      end
  | Cat r1 r2 =>
      matches r1 s caps (fun s' caps' => matches r2 s' caps' k)
  | Alt r1 r2 =>
      match matches r1 s caps k with
      | Some a => Some a
      | None => matches r2 s caps k
      end
  | Plus p => plus_greedy p s caps k
  | PlusLazy p => plus_lazy p s caps k
  | Group i r1 =>
      matches r1 s caps
        (fun s' caps' =>
           k s' ((i, firstn (List.length s - List.length s') s) :: caps'))
  end.
End Matcher.

(** A match object: the captured groups and the text after the match. *)
Record match_object : Type := MatchObject {
  mo_captures : captures;
  mo_rest : str
}.

(** [re.match(r, s)] *)
Definition re_match (r : regex) (s : str) : option match_object :=
  matches r s [] (fun s' caps => Some (MatchObject caps s')).

(** [re.search(r, s)]: the first position at which [r] matches. *)
Fixpoint re_search (r : regex) (s : str) : option match_object :=
  match re_match r s with
  | Some m => Some m
  | None =>
      match s with
      | [] => None
      | _ :: s' => re_search r s'
      end
  end.

(** [m.group(i)]; [None] when the group took no part in the match. *)
Fixpoint group (i : nat) (caps : captures) : option str :=
  match caps with
  | [] => None
  | (j, w) :: caps' => if Nat.eqb i j then Some w else group i caps'
  end.

(** [re.sub(r, repl, s)] for a pattern that matches no empty text; [fuel]
    bounds the number of positions visited. *)
Fixpoint re_sub_fuel (fuel : nat) (r : regex) (repl : str) (s : str) : str :=
  match fuel with
  | O => s
  | S f =>
      match s with
      | [] => []
      | c :: s' =>
          match re_match r s with
          | Some m => repl ++ re_sub_fuel f r repl (mo_rest m)
          | None => c :: re_sub_fuel f r repl s'
          end
      end
  end.

Definition re_sub (r : regex) (repl : str) (s : str) : str :=
  re_sub_fuel (List.length s) r repl s.

End Re.

Export Re.

(** ** Floating-point numbers

    A Python [float] is an IEEE-754 binary64 number, written with the
    standard library's [spec_float].  [float(text)] and [round(x, 2)] are
    both correctly rounded (nearest, ties to even) in CPython, so they are
    given by exact integer arithmetic on the ratio they round. *)

Module PyFloat.

(** [n / d] rounded to the nearest integer, ties to even ([0 <= n],
    [0 < d]). *)
Definition round_half_even (n d : Z) : Z :=
  let q := n / d in
  match 2 * (n mod d) ?= d with
  | Lt => q
  | Gt => q + 1
  | Eq => if Z.even q then q else q + 1
  end.

(** The ratio [(n / d) / 2^q], as a numerator and a denominator. *)
Definition ratio_shift (n d q : Z) : Z * Z :=
  if 0 <=? q then (n, d * 2 ^ q) else (n * 2 ^ (- q), d).

(** [floor (log2 (n / d))] for [0 < n] and [0 < d]. *)
Definition ilog2_ratio (n d : Z) : Z :=
  let e0 := Z.log2 n - Z.log2 d in
  let '(n', d') := ratio_shift n d e0 in
  if n' <? d' then e0 - 1 else e0.

(** The binary64 number nearest to [n / d] ([0 < n], [0 < d]): 53
    significant bits, exponents of the last place from -1074 to 971,
    infinity beyond. *)
Definition binary64_of_ratio (n d : Z) : spec_float :=
  let ef := ilog2_ratio n d in
  let q := Z.max (ef - 52) (-1074) in
  let '(n', d') := ratio_shift n d q in
  let m := round_half_even n' d' in
  if m =? 0 then S754_zero false
  else
    let '(m', q') := if m =? 2 ^ 53 then (2 ^ 52, q + 1) else (m, q) in
    if q' <=? 971 then S754_finite false (Z.to_pos m') q'
    else S754_infinity false.

Definition signed (neg : bool) (x : spec_float) : spec_float :=
  if neg then SFopp x else x.

(** The value [(-1)^neg * m * 10^e] as a binary64 number. *)
Definition binary64_of_decimal (neg : bool) (m e : Z) : spec_float :=
  if m =? 0 then S754_zero neg
  else if 0 <=? e then signed neg (binary64_of_ratio (m * 10 ^ e) 1)
  else signed neg (binary64_of_ratio m (10 ^ (- e))).

Definition is_ascii_digit (c : ascii) : bool := in_range 48 57 c.

(** The text as [float] and [int] scan it: characters below 127 as they
    are, other whitespace as a blank, and the scan stops with a question
    mark at what is neither (no decimal digit lies between 127 and
    255). *)
Fixpoint ascii_transform (s : str) : str :=
  match s with
  | [] => []
  | c :: s' =>
      if ord c <? 127 then c :: ascii_transform s'
      else if Py_UNICODE_ISSPACE c then " "%char :: ascii_transform s'
      else ["?"%char]
  end.

(** Underscores are allowed between two digits only; they are dropped. *)
Fixpoint drop_underscores (prev : ascii) (s : str) : option str :=
  match s with
  | [] => if chr_eqb prev "_" then None else Some []
  | c :: s' =>
      if chr_eqb c "_" then
        if is_ascii_digit prev then drop_underscores c s' else None
      else if chr_eqb prev "_" && negb (is_ascii_digit c) then None
      else option_map (cons c) (drop_underscores c s')
  end.

Fixpoint span (p : ascii -> bool) (s : str) : str * str :=
  match s with
  | c :: s' =>
      if p c then let '(w, r) := span p s' in (c :: w, r) else ([], s)
  | [] => ([], [])
  end.

Definition parse_sign (s : str) : bool * str :=
  match s with
  | c :: s' =>
      if chr_eqb c "-" then (true, s')
      else if chr_eqb c "+" then (false, s')
      else (false, s)
  | [] => (false, s)
  end.

(** The exponent part, when one is written in full; otherwise nothing is
    consumed. *)
Definition parse_exponent (s : str) : Z * str :=
  match s with
  | c :: t =>
      if chr_eqb c "e" || chr_eqb c "E" then
        let '(eneg, t1) := parse_sign t in
        let '(ed, t2) := span is_ascii_digit t1 in
        match ed with
        | [] => (0, s)
        | _ :: _ => ((if eneg then - Z_of_digits ed else Z_of_digits ed), t2)
        end
      else (0, s)
  | [] => (0, s)
  end.

(** The decimal scanner: sign, digits, point, digits, exponent; at least
    one digit.  Returns the number and the text left over, or [None]
    when nothing could be converted. *)
Definition strtod (s : str) : option (spec_float * str) :=
  let '(neg, s1) := parse_sign s in
  let '(ip, s2) := span is_ascii_digit s1 in
  let '(fp, s3) :=
    match s2 with
    | c :: t => if chr_eqb c "." then span is_ascii_digit t else ([], s2)
    | [] => ([], s2)
    end in
  match ip ++ fp with
  | [] => None
  | _ :: _ =>
      let '(ex, s4) := parse_exponent s3 in
      Some (binary64_of_decimal neg (Z_of_digits (ip ++ fp))
              (ex - Z.of_nat (List.length fp)), s4)
  end.

Definition lower (c : ascii) : ascii :=
  if in_range 65 90 c then ascii_of_N (Z.to_N (ord c + 32)) else c.

(** [t] is the start of [s], letter case of [s] aside; the rest of [s]. *)
Fixpoint strip_prefix_nocase (t s : str) : option str :=
  match t, s with
  | [], _ => Some s
  | a :: t', b :: s' =>
      if chr_eqb a (lower b) then strip_prefix_nocase t' s' else None
  | _ :: _, [] => None
  end.

(** The scanner for [inf], [infinity] and [nan]. *)
Definition parse_inf_or_nan (s : str) : option (spec_float * str) :=
  let '(neg, s1) := parse_sign s in
  match strip_prefix_nocase $"inf" s1 with
  | Some s2 =>
      match strip_prefix_nocase $"inity" s2 with
      | Some s3 => Some (S754_infinity neg, s3)
      | None => Some (S754_infinity neg, s2)
      end
  | None =>
      match strip_prefix_nocase $"nan" s1 with
      | Some s2 => Some (S754_nan, s2)
      | None => None
      end
  end.

(** [float(s)] for a string [s]. *)
Definition float_of_str (s : str) : result spec_float :=
  match drop_underscores "000"%char (ascii_transform s) with
  | None => Raise ValueError
  | Some s1 =>
      let s2 := strip_with Py_ISSPACE s1 in
      match strtod s2 with
      | Some (x, []) => Ok x
      | Some (_, _ :: _) => Raise ValueError
      | None =>
          match parse_inf_or_nan s2 with
          | Some (x, []) => Ok x
          | _ => Raise ValueError
          end
      end
  end.

(** [round(x, 2)]: the exact value of [x] is rounded to two decimals,
    ties to even, and the decimal is read back as a binary64 number;
    [OverflowError] when that number is out of range.  Zeros, infinities
    and NaN round to themselves. *)
Definition round2 (x : spec_float) : result spec_float :=
  match x with
  | S754_finite s m e =>
      let k := if 0 <=? e then 100 * Z.pos m * 2 ^ e
               else round_half_even (100 * Z.pos m) (2 ^ (- e)) in
      if k =? 0 then Ok (S754_zero s)
      else match binary64_of_ratio k 100 with
           | S754_infinity _ => Raise OverflowError
           | y => Ok (signed s y)
           end
  | _ => Ok x
  end.

(** [int(s)] for a string [s], base 10. *)
Definition int_of_str (s : str) : result Z :=
  match drop_underscores "000"%char (ascii_transform s) with
  | None => Raise ValueError
  | Some s1 =>
      let '(neg, s2) := parse_sign (strip_with Py_ISSPACE s1) in
      match span is_ascii_digit s2 with
      | ((_ :: _) as ds, []) =>
          Ok (if neg then - Z_of_digits ds else Z_of_digits ds)
      | _ => Raise ValueError
      end
  end.

(** Orderings on floats as Python's comparison operators give them. *)
Definition float_le (x y : spec_float) : bool := SFleb x y.
Definition float_lt (x y : spec_float) : bool := SFltb x y.

Definition is_finite (x : spec_float) : bool :=
  match x with
  | S754_zero _ | S754_finite _ _ _ => true
  | _ => false
  end.

Definition is_nan (x : spec_float) : bool :=
  match x with S754_nan => true | _ => false end.

End PyFloat.

Export PyFloat.

(** ** Dates, times and the local zone *)

Module DateTime.

(** [datetime.date] *)
Record date : Type := Date {
  d_year : Z;
  d_month : Z;
  d_day : Z
}.

(** [datetime.datetime] without its zone.  The scripts never set seconds
    or microseconds, which stay 0 in every value they build. *)
Record datetime : Type := DateTime {
  year : Z;
  month : Z;
  day : Z;
  hour : Z;
  minute : Z
}.

Definition is_leap (y : Z) : bool :=
  (y mod 4 =? 0) && (negb (y mod 100 =? 0) || (y mod 400 =? 0)).

Definition days_in_month (y m : Z) : Z :=
  if m =? 2 then (if is_leap y then 29 else 28)
  else if (m =? 4) || (m =? 6) || (m =? 9) || (m =? 11) then 30
  else 31.

Definition days_before_year (y : Z) : Z :=
  let p := y - 1 in p * 365 + p / 4 - p / 100 + p / 400.

Definition days_before_month (y m : Z) : Z :=
  fold_left (fun acc k => acc + days_in_month y (Z.of_nat k))
            (seq 1 (Z.to_nat (m - 1))) 0.

(** Day number in the proleptic Gregorian calendar, 0001-01-01 being
    day 1. *)
Definition ymd2ord (y m d : Z) : Z :=
  days_before_year y + days_before_month y m + d.

(** Monday is 0, Sunday is 6. *)
Definition weekday (y m d : Z) : Z := (ymd2ord y m d + 6) mod 7.

Definition valid_date (y m d : Z) : bool :=
  (1 <=? y) && (y <=? 9999) && (1 <=? m) && (m <=? 12)
  && (1 <=? d) && (d <=? days_in_month y m).

Definition valid_time (h mi : Z) : bool :=
  (0 <=? h) && (h <=? 23) && (0 <=? mi) && (mi <=? 59).

(** [datetime(y, m, d)], for fields that are machine integers, as those
    of a time tuple are. *)
Definition datetime_new (y m d : Z) : result datetime :=
  if valid_date y m d then Ok (DateTime y m d 0 0) else Raise ValueError.

(** [dt.replace(hour=h, minute=mi)] *)
Definition replace_time (dt : datetime) (h mi : Z) : result datetime :=
  if valid_time h mi
  then Ok (DateTime (year dt) (month dt) (day dt) h mi)
  else Raise ValueError.

(** A time zone, by the offset from UTC (in seconds) that it gives to a
    wall-clock date and time ([utcoffset] with [fold=0]). *)
Definition tzinfo : Type := datetime -> Z.

(** A datetime with a zone attached: [dt.replace(tzinfo=tz)]. *)
Record aware : Type := Aware {
  naive : datetime;
  zone : tzinfo
}.

Definition replace_tzinfo (dt : datetime) (tz : tzinfo) : aware :=
  Aware dt tz.

Definition utcoffset (a : aware) : Z := zone a (naive a).

Definition format_offset (off : Z) : str :=
  let a := Z.abs off in
  (if off <? 0 then $"-" else $"+")
    ++ fmt_d 2 (a / 3600) ++ $":" ++ fmt_d 2 ((a mod 3600) / 60)
    ++ (if a mod 60 =? 0 then [] else $":" ++ fmt_d 2 (a mod 60)).

(** [a.isoformat()] *)
Definition isoformat (a : aware) : str :=
  let dt := naive a in
  fmt_d 4 (year dt) ++ $"-" ++ fmt_d 2 (month dt) ++ $"-"
    ++ fmt_d 2 (day dt) ++ $"T" ++ fmt_d 2 (hour dt) ++ $":"
    ++ fmt_d 2 (minute dt) ++ $":00" ++ format_offset (utcoffset a).

(** The last Sunday of a month of 31 days. *)
Definition last_sunday (y m : Z) : Z := 31 - (weekday y m 31 + 1) mod 7.

Definition wall_key (m d h mi : Z) : Z := ((m * 100 + d) * 100 + h) * 100 + mi.

(** [ZoneInfo("Europe/London")] under the rule in force since 1996:
    summer time from 01:00 UTC on the last Sunday of March to 01:00 UTC
    on the last Sunday of October.  On the wall clock, and with
    [fold=0], the offset is one hour from 02:00 on the first of these
    days (the skipped hour 01:00-02:00 keeps the offset before the
    change) until 02:00 on the second (the repeated hour 01:00-02:00
    takes its first reading). *)
Definition Europe_London : tzinfo :=
  fun dt =>
    let y := year dt in
    let k := wall_key (month dt) (day dt) (hour dt) (minute dt) in
    if (wall_key 3 (last_sunday y 3) 2 0 <=? k)
       && (k <? wall_key 10 (last_sunday y 10) 2 0)
    then 3600 else 0.

Definition digit : regex := Cls Py_UNICODE_ISDECIMAL.
Definition chars (lo hi : ascii) : regex := Cls (in_range (ord lo) (ord hi)).
Definition space_run : regex := Plus Py_UNICODE_ISSPACE.

(** The pattern that [strptime] builds for ['%Y-%m-%d %H:%M']. *)
Definition strptime_re : regex :=
  Cat (Group 1 (Cat digit (Cat digit (Cat digit digit))))
 (Cat (Lit $"-")
 (Cat (Group 2 (Alt (Cat (Lit $"1") (chars "0" "2"))
               (Alt (Cat (Lit $"0") (chars "1" "9"))
                    (chars "1" "9"))))
 (Cat (Lit $"-")
 (Cat (Group 3 (Alt (Cat (Lit $"3") (chars "0" "1"))
               (Alt (Cat (chars "1" "2") digit)
               (Alt (Cat (Lit $"0") (chars "1" "9"))
               (Alt (chars "1" "9")
                    (Cat (Lit $" ") (chars "1" "9")))))))
 (Cat space_run
 (Cat (Group 4 (Alt (Cat (Lit $"2") (chars "0" "3"))
               (Alt (Cat (chars "0" "1") digit)
                    digit)))
 (Cat (Lit $":")
      (Group 5 (Alt (Cat (chars "0" "5") digit) digit))))))))).

(** [datetime.strptime(s, '%Y-%m-%d %H:%M')] *)
Definition strptime (s : str) : result datetime :=
  match re_match strptime_re s with
  | Some (MatchObject caps []) =>
      Y <- (g <- attr_of (group 1 caps) ;; int_of_str g) ;;
      m <- (g <- attr_of (group 2 caps) ;; int_of_str g) ;;
      d <- (g <- attr_of (group 3 caps) ;; int_of_str g) ;;
      H <- (g <- attr_of (group 4 caps) ;; int_of_str g) ;;
      M <- (g <- attr_of (group 5 caps) ;; int_of_str g) ;;
      dt <- datetime_new Y m d ;;
      replace_time dt H M
  | _ => Raise ValueError
  end.

(** [d.strftime('%Y-%m-%d')], for a year of four digits. *)
Definition strftime_dashed (d : date) : str :=
  fmt_d 4 (d_year d) ++ $"-" ++ fmt_d 2 (d_month d) ++ $"-"
    ++ fmt_d 2 (d_day d).

(** [d.strftime('%Y%m%d')], for a year of four digits. *)
Definition strftime_compact (d : date) : str :=
  fmt_d 4 (d_year d) ++ fmt_d 2 (d_month d) ++ fmt_d 2 (d_day d).

Definition next_day (d : date) : date :=
  if d_day d <? days_in_month (d_year d) (d_month d)
  then Date (d_year d) (d_month d) (d_day d + 1)
  else if d_month d <? 12 then Date (d_year d) (d_month d + 1) 1
  else Date (d_year d + 1) 1 1.

(** [d + timedelta(days=i)], short of the end of year 9999. *)
Definition add_days (d : date) (i : nat) : date := Nat.iter i next_day d.

End DateTime.

Export DateTime.

(** ** Records, output and the storage client *)

Module Tides.

(** One tide event, as the dictionaries built by both scripts hold it.
    [tide_type] is [None] where Python would store [None]. *)
Record tide : Type := Tide {
  tide_time : str;
  tide_type : option str;
  height_m : spec_float
}.

(** The lines the scripts print, one constructor per [print] statement,
    with the values that the statement interpolates. *)
Inductive message : Type :=
| Fetching_feed (url : str)
| Feed_empty
| Skipping_entry_no_date (title : option str)
| Error_processing_line (line : str) (e : exn)
| No_records_to_insert
| Prepared_records (n : nat) (table : str)
| Upsert_succeeded
| Upsert_failed (e : exn)
| Upsert_hint
| Fetching_day (date_str : str)
| Error_fetching_url (url : str) (e : exn)
| No_tide_container (date_str : str)
| Skipping_record (full_datetime_str : str) (e : exn)
| No_records_collected
| Collected_records (n : nat) (days : nat)
| Week_upsert_succeeded
| Week_upsert_failed (e : exn)
| Week_upsert_hint
| Scraper_started
| Scraper_finished.

(** What a run does to the outside world, in order. *)
Inductive event : Type :=
| Print (m : message)
| Upsert (table : str) (records : list tide) (on_conflict : str).

(** A computation that prints, calls the storage client and may raise:
    the events it performed and how it ended. *)
Definition io (A : Type) : Type := list event * result A.

Definition io_ret {A : Type} (a : A) : io A := ([], Ok a).

Definition io_raise {A : Type} (e : exn) : io A := ([], Raise e).

Definition io_bind {A B : Type} (c : io A) (f : A -> io B) : io B :=
  match c with
  | (out, Ok a) => let '(out', r) := f a in (out ++ out', r)
  | (out, Raise e) => (out, Raise e)
  end.

Definition print (m : message) : io unit := ([Print m], Ok tt).

(** A library call that prints nothing. *)
Definition lift {A : Type} (r : result A) : io A := ([], r).

(** [try: c  except <classes> as e: handler e] *)
Definition io_try {A : Type} (c : io A) (catches : exn -> bool)
           (handler : exn -> io A) : io A :=
  match c with
  | (out, Raise e) =>
      if catches e
      then let '(out', r) := handler e in (out ++ out', r)
      else (out, Raise e)
  | (out, Ok a) => (out, Ok a)
  end.

(** [except Exception]: every class of [exn] derives from it. *)
Definition any_exception (e : exn) : bool := true.

(** [for x in xs: body], the loop carrying the locals [st]. *)
Fixpoint for_each {X S : Type} (xs : list X) (st : S)
         (body : X -> S -> io S) : io S :=
  match xs with
  | [] => io_ret st
  | x :: xs' => io_bind (body x st) (fun st' => for_each xs' st' body)
  end.

(** The storage client: what the call
    [supabase.table(t).upsert(records, on_conflict=c).execute()]
    does, seen from the scripts: it returns or it raises. *)
Definition storage : Type := str -> list tide -> str -> result unit.

Definition upsert (supabase : storage) (table : str) (records : list tide)
           (on_conflict : str) : io unit :=
  ([Upsert table records on_conflict], supabase table records on_conflict).

(** Each script sets [TABLE_NAME = "tides"]. *)
Definition TABLE_NAME : str := $"tides".

End Tides.

Export Tides.

Notation "x <~ c ;; k" := (io_bind c (fun x => k))
  (at level 61, c at next level, right associativity) : py_scope.
Notation "c ;;; k" := (io_bind c (fun _ => k))
  (at level 61, right associativity) : py_scope.

(** ** The feed pipeline: [scripts/tide_scraper.py] *)

Module Feed.

Definition TIDE_FEED_URL : str :=
  $"https://www.tidetimes.org.uk/burry-port-tide-times.rss".

(** One entry of the parsed feed, by the keys the script reads, each
    [None] when the entry lacks the key.  [published_parsed] holds
    Python's [None] (here [Some None]) when the feed parser could not
    read the date, and otherwise a time tuple, of which the script uses
    the first three fields: year, month, day. *)
Record entry : Type := Entry {
  published_parsed : option (option (Z * Z * Z));
  title : option str;
  description : option str
}.

(** ['<[^<]+?>'] *)
Definition TAG_RE : regex :=
  Cat (Lit $"<")
 (Cat (PlusLazy (fun c => negb (chr_eqb c "<")))
      (Lit $">")).

Definition digit_or_dot (c : ascii) : bool :=
  Py_UNICODE_ISDECIMAL c || chr_eqb c ".".

(** [r'(\d{2}:\d{2})\s+-\s+(High|Low)\s+Tide\s+(?:&#x28;|\()([\d\.]+m)(?:&#x29;|\))'] *)
Definition TIDE_RE : regex :=
  Cat (Group 1 (Cat digit (Cat digit (Cat (Lit $":") (Cat digit digit)))))
 (Cat space_run
 (Cat (Lit $"-")
 (Cat space_run
 (Cat (Group 2 (Alt (Lit $"High") (Lit $"Low")))
 (Cat space_run
 (Cat (Lit $"Tide")
 (Cat space_run
 (Cat (Alt (Lit $"&#x28;") (Lit $"("))
 (Cat (Group 3 (Cat (Plus digit_or_dot) (Lit $"m")))
      (Alt (Lit $"&#x29;") (Lit $")"))))))))))).

(** Lines 37-44: the lines of an entry's description, tags replaced by
    line breaks. *)
Definition entry_lines (e : entry) : list str :=
  let description := match description e with
                     | Some d => d
                     | None => []
                     end in
  let clean_text := re_sub TAG_RE [ascii_of_N 10] description in
  splitlines clean_text.

Section WithZone.
Variable london_tz : tzinfo.

(** Lines 56-62: the entry's date and the time of day, made local. *)
Definition combine (date_tuple : Z * Z * Z) (tide_time_only : option str)
  : result str :=
  let '(y, m, d) := date_tuple in
  event_date <- datetime_new y m d ;;
  t <- attr_of tide_time_only ;;
  tide_hour <- (h <- subscript (split ":" t) 0 ;; int_of_str h) ;;
  t' <- attr_of tide_time_only ;;
  tide_minute <- (mi <- subscript (split ":" t') 1 ;; int_of_str mi) ;;
  naive_dt <- replace_time event_date tide_hour tide_minute ;;
  let local_dt := replace_tzinfo naive_dt london_tz in
  Ok (isoformat local_dt).

(** Lines 52-68: the body of the [try], from the match to the record. *)
Definition line_record (date_tuple : Z * Z * Z) (m : match_object)
  : result tide :=
  let tide_time_only := group 1 (mo_captures m) in
  let tide_type := group 2 (mo_captures m) in
  let height_str := group 3 (mo_captures m) in
  height_m <- (h <- attr_of height_str ;; float_of_str (remove_char "m" h)) ;;
  tide_iso_time <- combine date_tuple tide_time_only ;;
  rounded <- round2 height_m ;;
  Ok (Tide tide_iso_time tide_type rounded).

(** Lines 45-70: one line of the cleaned description. *)
Definition process_line (date_tuple : Z * Z * Z) (raw : str)
           (records : list tide) : io (list tide) :=
  let line := strip raw in
  match re_search TIDE_RE line with
  | None => io_ret records
  | Some m =>
      io_try
        (r <~ lift (line_record date_tuple m) ;; io_ret (records ++ [r]))
        (caught_by [ValueError; AttributeError])
        (fun e => print (Error_processing_line line e) ;;; io_ret records)
  end.

(** Lines 30-70: one entry of the feed. *)
Definition process_entry (e : entry) (records : list tide)
  : io (list tide) :=
  date_tuple <~ lift (attr_of (published_parsed e)) ;;
  match date_tuple with
  | None => print (Skipping_entry_no_date (title e)) ;;; io_ret records
  | Some date_tuple =>
      for_each (entry_lines e) records (process_line date_tuple)
  end.
End WithZone.

(** A dictionary keyed by text, in insertion order: setting a key that is
    present replaces its value in place, a new key goes last. *)
Fixpoint dict_set {V : Type} (k : str) (v : V) (d : list (str * V))
  : list (str * V) :=
  match d with
  | [] => [(k, v)]
  | (k', v') :: d' =>
      if str_eqb k k' then (k, v) :: d' else (k', v') :: dict_set k v d'
  end.

(** [{r['tide_time']: r for r in records}] *)
Definition dict_of_records (records : list tide) : list (str * tide) :=
  fold_left (fun d r => dict_set (tide_time r) r d) records [].

(** [list(d.values())] *)
Definition dict_values {V : Type} (d : list (str * V)) : list V :=
  map snd d.

Fixpoint insert_by_time (r : tide) (l : list tide) : list tide :=
  match l with
  | [] => [r]
  | r' :: l' =>
      if str_ltb (tide_time r') (tide_time r)
      then r' :: insert_by_time r l'
      else r :: l
  end.

(** [l.sort(key=lambda r: r['tide_time'])]: the stable sort, by
    insertion. *)
Definition sort_by_time (l : list tide) : list tide :=
  fold_right insert_by_time [] l.

(** Lines 74-75. *)
Definition deduplicate (records : list tide) : list tide :=
  dict_values (dict_of_records records).

Definition unique_records (records : list tide) : list tide :=
  sort_by_time (deduplicate records).

(** [parse_tide_feed()], given the entries that [feedparser.parse]
    returned. *)
Definition parse_tide_feed (feed_entries : list entry) : io (list tide) :=
  print (Fetching_feed TIDE_FEED_URL) ;;;
  let london_tz := Europe_London in
  match feed_entries with
  | [] => print Feed_empty ;;; io_ret []
  | _ :: _ =>
      records <~ for_each feed_entries [] (process_entry london_tz) ;;
      io_ret (unique_records records)
  end.

(** [update_supabase_tides(records)] *)
Definition update_supabase_tides (supabase : storage) (records : list tide)
  : io unit :=
  match records with
  | [] => print No_records_to_insert
  | _ :: _ =>
      print (Prepared_records (List.length records) TABLE_NAME) ;;;
      io_try
        (upsert supabase TABLE_NAME records $"tide_time" ;;;
         print Upsert_succeeded)
        any_exception
        (fun e => print (Upsert_failed e) ;;; print Upsert_hint)
  end.

(** [main()] *)
Definition main (supabase : storage) (feed_entries : list entry) : io unit :=
  print Scraper_started ;;;
  tide_data <~ parse_tide_feed feed_entries ;;
  update_supabase_tides supabase tide_data ;;;
  print Scraper_finished.

End Feed.

(** ** The day-page pipeline: [scripts/tide_scraper_week.py] *)

Module Week.

Definition BASE_URL : str :=
  $"https://www.tidetimes.org.uk/burry-port-tide-times-".

Definition DAYS_TO_FORECAST : nat := 7.

(** A table row as the script looks at it: its [class] attribute, the
    text of its first [td] of class [tal], [tac] and [tar] when there is
    one, and for the [tac] cell the text of its first [span], when there
    is one. *)
Record row : Type := Row {
  row_class : list str;
  tal : option str;
  tac : option (option str);
  tar : option str
}.

(** What [requests.get] and the DOM library give for a day's URL: a
    failed request, or a page with its [div] of id [tides] (when
    present), the first [table] inside it (when present) and the rows of
    that table. *)
Inductive response : Type :=
| Request_failed
| Page (tides_div : option (option (list row))).

(** The locals of [scrape_single_day] that the loop over the rows reads
    and writes; [full_datetime_str] is unbound until its assignment has
    run once. *)
Record locals : Type := Locals {
  daily_records : list tide;
  full_datetime_str : option str
}.

(** Reading a local variable. *)
Definition load {A : Type} (v : option A) : io A :=
  match v with
  | Some a => io_ret a
  | None => io_raise UnboundLocalError
  end.

Definition has_class (c : str) (r : row) : bool :=
  existsb (str_eqb c) (row_class r).

Section WithNetwork.
Variable http_get : str -> response.

(** Lines 64-73: the target date and the time text, made local.  The
    first component is [full_datetime_str], which is bound before
    [strptime] runs. *)
Definition combine (date_obj : date) (london_tz : tzinfo)
           (tide_time_raw : str) : str * result str :=
  let full_datetime_str :=
    strftime_dashed date_obj ++ $" " ++ tide_time_raw in
  (full_datetime_str,
   naive_dt <- strptime full_datetime_str ;;
   let local_dt := replace_tzinfo naive_dt london_tz in
   Ok (isoformat local_dt)).

(** Lines 61-79: the body of the [try]; the locals as the statements
    that ran have left them, and the outcome. *)
Definition row_try (date_obj : date) (london_tz : tzinfo)
           (tide_type tide_time_raw height_text : str) (st : locals)
  : locals * result unit :=
  match (x <- float_of_str (remove_char "m" (strip height_text)) ;;
         round2 x) with
  | Raise e => (st, Raise e)
  | Ok height_m =>
      let '(fds, iso) := combine date_obj london_tz tide_time_raw in
      let st1 := Locals (daily_records st) (Some fds) in
      match iso with
      | Raise e => (st1, Raise e)
      | Ok tide_iso_time =>
          (Locals (daily_records st1
                     ++ [Tide tide_iso_time (Some tide_type) height_m])
                  (full_datetime_str st1),
           Ok tt)
      end
  end.

(** Lines 45-82: one row of the table. *)
Definition process_row (date_obj : date) (london_tz : tzinfo) (r : row)
           (st : locals) : io locals :=
  match tal r, tac r, tar r with
  | Some type_text, Some tide_time_cell, Some height_text =>
      let tide_type := strip type_text in
      match tide_time_cell with
      | None => io_ret st
      | Some span_text =>
          let tide_time_raw := strip span_text in
          match row_try date_obj london_tz tide_type tide_time_raw
                        height_text st with
          | (st', Ok _) => io_ret st'
          | (st', Raise e) =>
              if caught_by [ValueError] e then
                fds <~ load (full_datetime_str st') ;;
                print (Skipping_record fds e) ;;;
                io_ret st'
              else io_raise e
          end
      end
  | _, _, _ => io_ret st
  end.

(** [scrape_single_day(date_obj, london_tz)] *)
Definition scrape_single_day (date_obj : date) (london_tz : tzinfo)
  : io (list tide) :=
  let date_str := strftime_compact date_obj in
  let url := BASE_URL ++ date_str in
  print (Fetching_day date_str) ;;;
  match http_get url with
  | Request_failed =>
      print (Error_fetching_url url RequestException) ;;; io_ret []
  | Page None => print (No_tide_container date_str) ;;; io_ret []
  | Page (Some table) =>
      data_table <~ lift (attr_of table) ;;
      let tide_rows :=
        filter (fun tr => negb (has_class $"colhead" tr)) data_table in
      st <~ for_each tide_rows (Locals [] None)
              (process_row date_obj london_tz) ;;
      io_ret (daily_records st)
  end.

(** Lines 88-95: the days of the forecast, one after the other. *)
Definition collect_days (today : date) (london_tz : tzinfo)
  : io (list tide) :=
  for_each (seq 0 DAYS_TO_FORECAST) []
    (fun i all_records =>
       let target_date := add_days today i in
       daily_data <~ scrape_single_day target_date london_tz ;;
       io_ret (all_records ++ daily_data)).

(** [run_weekly_scraper()], given today's date in London. *)
Definition run_weekly_scraper (supabase : storage) (today : date)
  : io unit :=
  let london_tz := Europe_London in
  all_records <~ collect_days today london_tz ;;
  match all_records with
  | [] => print No_records_collected
  | _ :: _ =>
      print (Collected_records (List.length all_records) DAYS_TO_FORECAST) ;;;
      io_try
        (upsert supabase TABLE_NAME all_records $"tide_time" ;;;
         print Week_upsert_succeeded)
        any_exception
        (fun e => print (Week_upsert_failed e) ;;; print Week_upsert_hint)
  end.

(** [main()] *)
Definition main (supabase : storage) (today : date) : io unit :=
  print Scraper_started ;;;
  run_weekly_scraper supabase today ;;;
  print Scraper_finished.
End WithNetwork.

End Week.

(** ** Notions used to state the properties *)

Module Props.

(** [denotes r w caps caps']: the text [w] is matched by [r], the
    captured groups going from [caps] to [caps']. *)
Inductive denotes : regex -> str -> captures -> captures -> Prop :=
| D_Lit : forall l caps, denotes (Lit l) l caps caps
| D_Cls : forall (p : ascii -> bool) c caps,
    p c = true -> denotes (Cls p) [c] caps caps
| D_Cat : forall r1 r2 w1 w2 c0 c1 c2,
    denotes r1 w1 c0 c1 -> denotes r2 w2 c1 c2 ->
    denotes (Cat r1 r2) (w1 ++ w2) c0 c2
| D_AltL : forall r1 r2 w c0 c1,
    denotes r1 w c0 c1 -> denotes (Alt r1 r2) w c0 c1
| D_AltR : forall r1 r2 w c0 c1,
    denotes r2 w c0 c1 -> denotes (Alt r1 r2) w c0 c1
| D_Plus : forall (p : ascii -> bool) c w caps,
    forallb p (c :: w) = true -> denotes (Plus p) (c :: w) caps caps
| D_PlusLazy : forall (p : ascii -> bool) c w caps,
    forallb p (c :: w) = true -> denotes (PlusLazy p) (c :: w) caps caps
| D_Group : forall i r w c0 c1,
    denotes r w c0 c1 -> denotes (Group i r) w c0 ((i, w) :: c1).

(** The next character, if any, is outside the class [p]. *)
Definition stops (p : ascii -> bool) (s : str) : bool :=
  match s with
  | [] => true
  | c :: _ => negb (p c)
  end.

(** [first_match r w c0 c1 ok]: in front of any rest [s] that [ok]
    accepts, the matcher takes [w] for [r] and hands [s] to the
    continuation, the groups going from [c0] to [c1], whenever the
    continuation accepts that. *)
Definition first_match (r : regex) (w : str) (c0 c1 : captures)
           (ok : str -> bool) : Prop :=
  forall (A : Type) (s : str) (k : cont A) (a : A),
    ok s = true -> k s c1 = Some a -> matches r (w ++ s) c0 k = Some a.

Definition anything (s : str) : bool := true.

Definition is_open_paren (s : str) : Prop := s = $"(" \/ s = $"&#x28;".
Definition is_close_paren (s : str) : Prop := s = $")" \/ s = $"&#x29;".

(** The last record of a batch that bears a given [tide_time]. *)
Definition last_with (t : str) (records : list tide) : option tide :=
  find (fun r => str_eqb (tide_time r) t) (rev records).

(** A finite binary64 number in canonical range: fewer than 54
    significant bits, last place between 2^-1074 and 2^971. *)
Definition valid_binary64 (x : spec_float) : Prop :=
  match x with
  | S754_finite _ m e => Z.pos m < 2 ^ 53 /\ -1074 <= e <= 971
  | _ => True
  end.

(** Zero, a finite number or infinity with the sign bit clear. *)
Definition sign_clear (x : spec_float) : Prop :=
  match x with
  | S754_zero false | S754_finite false _ _ | S754_infinity false => True
  | _ => False
  end.

(** [0.0 <= x], which no NaN satisfies. *)
Definition nonnegative (x : spec_float) : Prop :=
  float_le (S754_zero false) x = true.

(** [x] is the binary64 number nearest to a decimal with two places. *)
Definition two_decimals (x : spec_float) : Prop :=
  exists (neg : bool) (k : Z), 0 <= k /\ x = binary64_of_decimal neg k (-2).

(** [h] is [round(float(text), 2)]. *)
Definition parsed_height (text : str) (h : spec_float) : Prop :=
  exists x, float_of_str text = Ok x /\ round2 x = Ok h.

Definition is_High_or_Low (ty : option str) : Prop :=
  ty = Some $"High" \/ ty = Some $"Low".

(** No call to the storage client among the events. *)
Definition no_upsert (out : list event) : Prop :=
  forall table records on_conflict,
    ~ In (Upsert table records on_conflict) out.

(** A time of day as the tide pattern reads it: two digits, a colon, two
    digits. *)
Definition is_HHMM (t : str) : bool :=
  match t with
  | [a; b; c; d; e] =>
      Py_UNICODE_ISDECIMAL a && Py_UNICODE_ISDECIMAL b && chr_eqb c ":"
      && Py_UNICODE_ISDECIMAL d && Py_UNICODE_ISDECIMAL e
  | _ => false
  end.

(** A height as the tide pattern reads it: digits and points, at least
    one. *)
Definition is_height (h : str) : bool :=
  match h with
  | [] => false
  | _ :: _ => forallb Feed.digit_or_dot h
  end.

(** [a] is not after [b] in the order of the sort. *)
Definition not_after (a b : tide) : Prop :=
  str_ltb (tide_time b) (tide_time a) = false.

Definition only_prints (out : list event) : Prop :=
  Forall (fun ev => exists m, ev = Print m) out.

(** The record [r] was built from the line [raw] of an entry dated
    [date_tuple]: the line matches the tide pattern, [h] is the height
    text it captured, the height of [r] is that text read and rounded,
    its time is the captured time combined with the date, its type is
    the captured type. *)
Definition from_feed_line (tz : tzinfo) (date_tuple : Z * Z * Z)
           (raw h : str) (r : tide) : Prop :=
  exists m t,
    re_search Feed.TIDE_RE (strip raw) = Some m
    /\ group 1 (mo_captures m) = Some t
    /\ group 3 (mo_captures m) = Some (h ++ $"m")
    /\ parsed_height h (height_m r)
    /\ Feed.combine tz date_tuple (Some t) = Ok (tide_time r)
    /\ tide_type r = group 2 (mo_captures m).

Definition has_published_parsed (e : Feed.entry) : Prop :=
  Feed.published_parsed e <> None.

(** What holds of a record that the feed pipeline hands on: its height
    is neither negative nor NaN, has two decimals when finite, its type
    is one of the two labels, and it was built from a line of an entry
    of the feed; it is finite when that line's height text has at most
    308 characters. *)
Definition feed_record (tz : tzinfo) (entries : list Feed.entry)
           (r : tide) : Prop :=
  nonnegative (height_m r)
  /\ (is_finite (height_m r) = true -> two_decimals (height_m r))
  /\ is_High_or_Low (tide_type r)
  /\ exists e date_tuple raw h,
       In e entries
       /\ Feed.published_parsed e = Some (Some date_tuple)
       /\ In raw (Feed.entry_lines e)
       /\ from_feed_line tz date_tuple raw h r
       /\ ((List.length h <= 308)%nat -> is_finite (height_m r) = true).

(** The URL that [scrape_single_day] fetches for a date. *)
Definition day_url (date_obj : date) : str :=
  Week.BASE_URL ++ strftime_compact date_obj.

(** The rows of the tide table of a page, if it has one. *)
Definition rows_of (resp : Week.response) : list Week.row :=
  match resp with
  | Week.Page (Some (Some rows)) => rows
  | _ => []
  end.

(** The record [r] was built from the table row [rw] of the page for
    [date_obj]: the row has its three cells and the time span, the
    height of [r] is the height cell read and rounded, its time is the
    span's text combined with the date, its type is the trimmed text of
    the type cell. *)
Definition from_row (date_obj : date) (tz : tzinfo) (rw : Week.row)
           (r : tide) : Prop :=
  exists type_text span_text height_text,
    Week.tal rw = Some type_text
    /\ Week.tac rw = Some (Some span_text)
    /\ Week.tar rw = Some height_text
    /\ parsed_height (remove_char "m" (strip height_text)) (height_m r)
    /\ snd (Week.combine date_obj tz (strip span_text)) = Ok (tide_time r)
    /\ tide_type r = Some (strip type_text).

(** The tide line for a time, a type and a height, with the parentheses
    written as given. *)
Definition tide_line (open_paren close_paren t ty h : str) : str :=
  t ++ $" - " ++ ty ++ $" Tide " ++ open_paren ++ h ++ $"m" ++ close_paren.

End Props.

Export Props.

(** ** Sample inputs *)

Module Samples.

Import Week.

(** A row as the site writes it. *)
Definition row_high : row :=
  Row [] (Some $"High") (Some (Some $"06:15")) (Some $"7.42m").

Definition row_low : row :=
  Row [] (Some $"Low") (Some (Some $"12:30")) (Some $"1.10m").

(** A row whose height cell holds no number. *)
Definition row_no_height : row :=
  Row [] (Some $"Low") (Some (Some $"12:30")) (Some $"n/a").

(** A row whose height cell holds a number below zero. *)
Definition row_negative : row :=
  Row [] (Some $"Low") (Some (Some $"12:30")) (Some $"-1.5m").

(** A row whose type cell holds another label. *)
Definition row_spring : row :=
  Row [] (Some $"Spring") (Some (Some $"12:30")) (Some $"1.10m").

(** The network answering every URL with a page that holds the given
    rows. *)
Definition serving (rows : list row) : str -> response :=
  fun _ => Page (Some (Some rows)).

Definition day_2024_06_01 : date := Date 2024 6 1.

(** A feed line whose height has 310 digits: 1 followed by 309
    zeros. *)
Definition line_huge : str :=
  $"06:15 - High Tide (1" ++ repeat "0"%char 309 ++ $"m)".

Definition entry_of (line : str) : Feed.entry :=
  Feed.Entry (Some (Some (2024, 6, 1))) None (Some line).

Definition storage_ok : storage := fun _ _ _ => Ok tt.

End Samples.

(** ** Notions used for the runs as a whole *)

Module Runs.

(** The calls to the storage client among the events, in order: table,
    batch and conflict column of each. *)
Definition upserts (out : list event) : list (str * list tide * str) :=
  flat_map (fun ev => match ev with
                      | Upsert table records on_conflict =>
                          [(table, records, on_conflict)]
                      | Print _ => []
                      end) out.

(** The one call that a non-empty batch leads to. *)
Definition upsert_of (records : list tide) : list (str * list tide * str) :=
  match records with
  | [] => []
  | _ :: _ => [(TABLE_NAME, records, $"tide_time")]
  end.

(** The entry has no key [published_parsed]: line 31 raises on it. *)
Definition lacks_published_parsed (e : Feed.entry) : bool :=
  match Feed.published_parsed e with
  | None => true
  | Some _ => false
  end.

(** The record that one line gives when it is read on its own (none, or
    one). *)
Definition line_records (tz : tzinfo) (date_tuple : Z * Z * Z) (raw : str)
  : list tide :=
  match snd (Feed.process_line tz date_tuple raw []) with
  | Ok records => records
  | Raise _ => []
  end.

(** The records that the lines of one entry give, each line read on
    its own. *)
Definition entry_records (tz : tzinfo) (e : Feed.entry) : list tide :=
  match Feed.published_parsed e with
  | Some (Some date_tuple) =>
      List.concat (map (line_records tz date_tuple) (Feed.entry_lines e))
  | _ => []
  end.

(** A line of text: no [<] and no line boundary in it. *)
Definition tag_free_line (l : str) : bool :=
  forallb (fun c => negb (chr_eqb c "<") && negb (is_linebreak c)) l.

(** What stands between [<] and [>] in a tag: at least one character,
    none of them [<] or [>]. *)
Definition tag_body (b : str) : bool :=
  match b with
  | [] => false
  | _ :: _ =>
      forallb (fun c => negb (chr_eqb c "<") && negb (chr_eqb c ">")) b
  end.

(** The lines, each followed by the tag. *)
Definition tagged (tag : str) (lines : list str) : str :=
  List.concat (map (fun l => l ++ $"<" ++ tag ++ $">") lines).

(** [l1] is [l2] with some members left out, the order kept. *)
Inductive subsequence {A : Type} : list A -> list A -> Prop :=
| Sub_nil : subsequence [] []
| Sub_skip : forall x l1 l2, subsequence l1 l2 -> subsequence l1 (x :: l2)
| Sub_keep : forall x l1 l2,
    subsequence l1 l2 -> subsequence (x :: l1) (x :: l2).

(** The height cell of a row that has the three cells and the time
    span: the rows that reach the [try]. *)
Definition row_height (rw : Week.row) : option str :=
  match Week.tal rw, Week.tac rw, Week.tar rw with
  | Some _, Some (Some _), Some height_text => Some height_text
  | _, _, _ => None
  end.

(** The test of line 50 and the one of line 55 both pass. *)
Definition reaches_try (rw : Week.row) : bool :=
  match row_height rw with
  | Some _ => true
  | None => false
  end.

(** The height cell reaches [float] and [float] rejects it. *)
Definition unreadable_height (rw : Week.row) : bool :=
  match row_height rw with
  | Some height_text =>
      match float_of_str (remove_char "m" (strip height_text)) with
      | Ok _ => false
      | Raise _ => true
      end
  | None => false
  end.

(** The batch that a list of rows gives, row by row: a row that gives a
    record (the one [from_row] names) puts it next in the batch, a row
    that gives none puts nothing. *)
Inductive records_of_rows (date_obj : date) (tz : tzinfo)
  : list Week.row -> list tide -> Prop :=
| Rows_done : records_of_rows date_obj tz [] []
| Rows_record : forall rw r rows records,
    from_row date_obj tz rw r ->
    records_of_rows date_obj tz rows records ->
    records_of_rows date_obj tz (rw :: rows) (r :: records)
| Rows_nothing : forall rw rows records,
    (forall r, ~ from_row date_obj tz rw r) ->
    records_of_rows date_obj tz rows records ->
    records_of_rows date_obj tz (rw :: rows) records.

(** [full_datetime_str] has been assigned. *)
Definition bound (st : Week.locals) : Prop :=
  Week.full_datetime_str st <> None.

(** The rows that [scrape_single_day] loops over. *)
Definition tide_rows (rows : list Week.row) : list Week.row :=
  filter (fun tr => negb (Week.has_class $"colhead" tr)) rows.

(** The batch of a day when the scrape returns one, otherwise nothing. *)
Definition day_records (http_get : str -> Week.response) (tz : tzinfo)
           (d : date) : list tide :=
  match snd (Week.scrape_single_day http_get d tz) with
  | Ok records => records
  | Raise _ => []
  end.

(** What the scrape of a day prints. *)
Definition day_events (http_get : str -> Week.response) (tz : tzinfo)
           (d : date) : list event :=
  fst (Week.scrape_single_day http_get d tz).

(** Lines 93-95: one turn of the loop over the days. *)
Definition day_step (http_get : str -> Week.response) (today : date)
           (tz : tzinfo) (i : nat) (all_records : list tide)
  : io (list tide) :=
  daily_data <~ Week.scrape_single_day http_get (add_days today i) tz ;;
  io_ret (all_records ++ daily_data).

(** The dates that the run announces with [Fetching data for: ...],
    in the order of the announcements. *)
Definition announced (out : list event) : list str :=
  flat_map (fun ev => match ev with
                      | Print (Fetching_day date_str) => [date_str]
                      | _ => []
                      end) out.

(** The days of a forecast that starts at [today]. *)
Definition forecast_days (today : date) : list date :=
  map (add_days today) (seq 0 Week.DAYS_TO_FORECAST).

(** Wall-clock order of dates and times. *)
Definition wall_ltb (a b : datetime) : bool :=
  if year a <? year b then true else if year b <? year a then false
  else if month a <? month b then true else if month b <? month a then false
  else if day a <? day b then true else if day b <? day a then false
  else if hour a <? hour b then true else if hour b <? hour a then false
  else minute a <? minute b.

Definition wall_lt (a b : datetime) : Prop := wall_ltb a b = true.

(** A date and time that [datetime] accepts. *)
Definition valid_datetime (dt : datetime) : Prop :=
  valid_date (year dt) (month dt) (day dt) = true
  /\ valid_time (hour dt) (minute dt) = true.

(** The timestamp text of a wall-clock date and time in London. *)
Definition london_iso (dt : datetime) : str :=
  isoformat (replace_tzinfo dt Europe_London).

(** The text [HH:MM] of an hour and a minute. *)
Definition hhmm (h mi : Z) : str := fmt_d 2 h ++ $":" ++ fmt_d 2 mi.

End Runs.

Export Runs.

Unset Implicit Arguments.

(** * Properties *)

(** ** Text: equality and order *)

Section TextFacts.

Lemma chr_eqb_eq (a b : ascii) : chr_eqb a b = true <-> a = b.
Proof. apply Ascii.eqb_eq. Qed.

Lemma chr_eqb_refl (a : ascii) : chr_eqb a a = true.
Proof. apply chr_eqb_eq; reflexivity. Qed.

Lemma str_eqb_eq (s t : str) : str_eqb s t = true <-> s = t.
Proof.
  revert t; induction s as [|a s IH]; intros [|b t]; simpl;
    try (split; congruence).
  rewrite andb_true_iff, chr_eqb_eq, IH. split.
  - intros [-> ->]; reflexivity.
  - intros E; injection E; auto.
Qed.

Lemma str_eqb_refl (s : str) : str_eqb s s = true.
Proof. apply str_eqb_eq; reflexivity. Qed.

Lemma str_eqb_neq (s t : str) : str_eqb s t = false <-> s <> t.
Proof.
  rewrite <- str_eqb_eq. destruct (str_eqb s t); split; congruence.
Qed.

Lemma ord_inj (a b : ascii) : ord a = ord b -> a = b.
Proof.
  unfold ord; intros E. apply N2Z.inj in E.
  rewrite <- (ascii_N_embedding a), <- (ascii_N_embedding b), E.
  reflexivity.
Qed.

Lemma str_ltb_irrefl (s : str) : str_ltb s s = false.
Proof.
  induction s as [|a s IH]; simpl; [reflexivity|].
  rewrite Z.ltb_irrefl; exact IH.
Qed.

Lemma str_ltb_trans (s t u : str) :
  str_ltb s t = true -> str_ltb t u = true -> str_ltb s u = true.
Proof.
  revert t u; induction s as [|a s IH]; intros [|b t] [|c u]; simpl;
    try congruence.
  destruct (ord a <? ord b) eqn:Eab, (ord b <? ord a) eqn:Eba,
           (ord b <? ord c) eqn:Ebc, (ord c <? ord b) eqn:Ecb,
           (ord a <? ord c) eqn:Eac, (ord c <? ord a) eqn:Eca;
    try congruence;
    rewrite ?Z.ltb_lt, ?Z.ltb_ge in *; try lia.
  apply IH.
Qed.

(** Two texts of which neither is below the other are the same text. *)
Lemma str_ltb_total (s t : str) :
  str_ltb s t = false -> str_ltb t s = false -> s = t.
Proof.
  revert t; induction s as [|a s IH]; intros [|b t]; simpl;
    try congruence.
  destruct (ord a <? ord b) eqn:Eab, (ord b <? ord a) eqn:Eba;
    try congruence.
  rewrite Z.ltb_ge in *. intros H1 H2.
  assert (a = b) by (apply ord_inj; lia). subst b.
  f_equal. apply IH; assumption.
Qed.

Lemma str_ltb_asym (s t : str) :
  str_ltb s t = true -> str_ltb t s = false.
Proof.
  intros H. destruct (str_ltb t s) eqn:E; [|reflexivity].
  pose proof (str_ltb_trans _ _ _ H E) as C.
  rewrite str_ltb_irrefl in C. discriminate.
Qed.

Lemma lstrip_with_id (p : ascii -> bool) (c : ascii) (s : str) :
  p c = false -> lstrip_with p (c :: s) = c :: s.
Proof. intros H; simpl; rewrite H; reflexivity. Qed.

(** Stripping leaves alone a text that neither starts nor ends with a
    character of the class. *)
Lemma strip_with_id (p : ascii -> bool) (a z : ascii) (s : str) :
  p a = false -> p z = false ->
  strip_with p (a :: s ++ [z]) = a :: s ++ [z].
Proof.
  intros Ha Hz. unfold strip_with, rstrip_with.
  rewrite lstrip_with_id by assumption.
  assert (E : rev (a :: s ++ [z]) = z :: rev (a :: s)).
  { change (a :: s ++ [z]) with ((a :: s) ++ [z]).
    rewrite rev_app_distr. reflexivity. }
  rewrite E, lstrip_with_id by assumption.
  rewrite <- E. apply rev_involutive.
Qed.

End TextFacts.

(** ** Regular expressions: what a successful match tells *)

Section RegexFacts.

Lemma strip_prefix_spec (l s s' : str) :
  strip_prefix l s = Some s' <-> s = l ++ s'.
Proof.
  revert s; induction l as [|a l IH]; intros s; simpl.
  - split; congruence.
  - destruct s as [|b s]; [split; discriminate|].
    destruct (chr_eqb a b) eqn:E.
    + apply chr_eqb_eq in E; subst b. rewrite IH.
      split; [intros ->; reflexivity | intros H; injection H; auto].
    + split; [discriminate|]. intros H; injection H; intros _ ->.
      rewrite chr_eqb_refl in E; discriminate.
Qed.

Lemma strip_prefix_app (l s : str) : strip_prefix l (l ++ s) = Some s.
Proof. apply strip_prefix_spec; reflexivity. Qed.

Lemma firstn_matched (w s : str) :
  firstn (List.length (w ++ s) - List.length s) (w ++ s) = w.
Proof.
  rewrite length_app.
  replace (List.length w + List.length s - List.length s)%nat
    with (List.length w + 0)%nat by lia.
  rewrite firstn_app_2. simpl. apply app_nil_r.
Qed.

Variable A : Type.

Lemma plus_greedy_sound (p : ascii -> bool) (s : str) (caps : captures)
      (k : cont A) (a : A) :
  plus_greedy p s caps k = Some a ->
  exists c w s', s = (c :: w) ++ s' /\ forallb p (c :: w) = true
                 /\ k s' caps = Some a.
Proof.
  induction s as [|c s IH]; simpl; [discriminate|].
  destruct (p c) eqn:Hc; [|discriminate].
  destruct (plus_greedy p s caps k) as [a'|] eqn:E.
  - intros H; injection H; intros ->.
    destruct (IH eq_refl) as (c' & w & s' & -> & Hw & Hk).
    exists c, (c' :: w), s'. repeat split; [|exact Hk].
    simpl in *. rewrite Hc. exact Hw.
  - intros Hk. exists c, [], s. simpl. rewrite Hc. auto.
Qed.

Lemma plus_lazy_sound (p : ascii -> bool) (s : str) (caps : captures)
      (k : cont A) (a : A) :
  plus_lazy p s caps k = Some a ->
  exists c w s', s = (c :: w) ++ s' /\ forallb p (c :: w) = true
                 /\ k s' caps = Some a.
Proof.
  induction s as [|c s IH]; simpl; [discriminate|].
  destruct (p c) eqn:Hc; [|discriminate].
  destruct (k s caps) as [a'|] eqn:E.
  - intros H; injection H; intros ->.
    exists c, [], s. simpl. rewrite Hc. auto.
  - intros H. destruct (IH H) as (c' & w & s' & -> & Hw & Hk).
    exists c, (c' :: w), s'. repeat split; [|exact Hk].
    simpl in *. rewrite Hc. exact Hw.
Qed.

(** Whatever the matcher answers went through a split of the text into a
    part that the expression denotes and a rest that the continuation
    accepted. *)
Lemma matches_sound (r : regex) :
  forall (s : str) (caps : captures) (k : cont A) (a : A),
    matches r s caps k = Some a ->
    exists w s' caps',
      s = w ++ s' /\ denotes r w caps caps' /\ k s' caps' = Some a.
Proof.
  induction r as [l|p|r1 IH1 r2 IH2|r1 IH1 r2 IH2|p|p|i r IH];
    intros s caps k a; simpl.
  - destruct (strip_prefix l s) as [s'|] eqn:E; [|discriminate].
    apply strip_prefix_spec in E. intros Hk.
    exists l, s', caps. auto using D_Lit.
  - destruct s as [|c s]; [discriminate|].
    destruct (p c) eqn:Hc; [|discriminate]. intros Hk.
    exists [c], s, caps. auto using D_Cls.
  - intros H. apply IH1 in H. destruct H as (w1 & s1 & c1 & -> & D1 & H).
    apply IH2 in H. destruct H as (w2 & s2 & c2 & -> & D2 & H).
    exists (w1 ++ w2), s2, c2. rewrite app_assoc.
    eauto using D_Cat.
  - destruct (matches r1 s caps k) as [a'|] eqn:E.
    + intros H; injection H; intros ->.
      apply IH1 in E. destruct E as (w & s' & c' & -> & D & H').
      exists w, s', c'. auto using D_AltL.
    + intros H. apply IH2 in H. destruct H as (w & s' & c' & -> & D & H').
      exists w, s', c'. auto using D_AltR.
  - intros H. apply plus_greedy_sound in H.
    destruct H as (c & w & s' & -> & Hw & Hk).
    exists (c :: w), s', caps. auto using D_Plus.
  - intros H. apply plus_lazy_sound in H.
    destruct H as (c & w & s' & -> & Hw & Hk).
    exists (c :: w), s', caps. auto using D_PlusLazy.
  - intros H. apply IH in H. destruct H as (w & s' & c' & -> & D & H).
    rewrite firstn_matched in H.
    exists w, s', ((i, w) :: c'). auto using D_Group.
Qed.

End RegexFacts.

Lemma re_match_sound (r : regex) (s : str) (m : match_object) :
  re_match r s = Some m ->
  exists w, s = w ++ mo_rest m /\ denotes r w [] (mo_captures m).
Proof.
  unfold re_match. intros H. apply matches_sound in H.
  destruct H as (w & s' & c' & -> & D & H).
  injection H; intros <-. simpl. eauto.
Qed.

Lemma re_search_sound (r : regex) (s : str) (m : match_object) :
  re_search r s = Some m ->
  exists pre w, s = pre ++ w ++ mo_rest m /\ denotes r w [] (mo_captures m).
Proof.
  induction s as [|c s IH]; simpl.
  - destruct (re_match r []) as [m'|] eqn:E; [|discriminate].
    intros H; injection H; intros ->.
    apply re_match_sound in E. destruct E as (w & E & D).
    exists [], w. auto.
  - destruct (re_match r (c :: s)) as [m'|] eqn:E.
    + intros H; injection H; intros ->.
      apply re_match_sound in E. destruct E as (w & E & D).
      exists [], w. auto.
    + intros H. destruct (IH H) as (pre & w & -> & D).
      exists (c :: pre), w. auto.
Qed.

(** ** The tide pattern *)

Section TidePattern.

Import Feed.

Ltac invert_denotes :=
  repeat match goal with
         | H : denotes (Cat _ _) _ _ _ |- _ => inversion H; subst; clear H
         | H : denotes (Group _ _) _ _ _ |- _ => inversion H; subst; clear H
         | H : denotes (Alt _ _) _ _ _ |- _ => inversion H; subst; clear H
         | H : denotes (Lit _) _ _ _ |- _ => inversion H; subst; clear H
         | H : denotes (Cls _) _ _ _ |- _ => inversion H; subst; clear H
         | H : denotes (Plus _) _ _ _ |- _ => inversion H; subst; clear H
         end.

(** The groups of any match of the tide pattern: a time of two digits,
    a colon and two digits; [High] or [Low]; digits and points followed
    by [m]. *)
Lemma TIDE_RE_groups (w : str) (caps : captures) :
  denotes TIDE_RE w [] caps ->
  exists t ty h,
    caps = [(3%nat, h ++ $"m"); (2%nat, ty); (1%nat, t)]
    /\ is_HHMM t = true
    /\ (ty = $"High" \/ ty = $"Low")
    /\ is_height h = true.
Proof.
  unfold TIDE_RE, digit, space_run. intros H. invert_denotes;
    match goal with
    | |- exists t ty h, [(_, (?c :: ?x) ++ _); (_, ?y); (_, ?z)] = _ /\ _ =>
        exists z, y, (c :: x)
    end;
    (split; [reflexivity|]);
    (split; [cbn [app list_ascii_of_string is_HHMM];
             repeat match goal with
                    | H : Py_UNICODE_ISDECIMAL _ = true |- _ =>
                        rewrite H; clear H
                    end; reflexivity|]);
    (split; [auto|]); assumption.
Qed.

Lemma TIDE_RE_search_groups (line : str) (m : match_object) :
  re_search TIDE_RE line = Some m ->
  exists t ty h,
    group 1 (mo_captures m) = Some t
    /\ group 2 (mo_captures m) = Some ty
    /\ group 3 (mo_captures m) = Some (h ++ $"m")
    /\ is_HHMM t = true
    /\ (ty = $"High" \/ ty = $"Low")
    /\ is_height h = true.
Proof.
  intros H. apply re_search_sound in H. destruct H as (pre & w & _ & D).
  apply TIDE_RE_groups in D. destruct D as (t & ty & h & E & Ht & Hty & Hh).
  exists t, ty, h. rewrite E. simpl. auto 10.
Qed.

(** *** Matching a well-formed line *)

Lemma first_match_Lit (l : str) (caps : captures) :
  first_match (Lit l) l caps caps anything.
Proof. intros A s k a _ Hk. simpl. rewrite strip_prefix_app. exact Hk. Qed.

Lemma first_match_Cls (p : ascii -> bool) (c : ascii) (caps : captures) :
  p c = true -> first_match (Cls p) [c] caps caps anything.
Proof. intros Hc A s k a _ Hk. simpl. rewrite Hc. exact Hk. Qed.

Lemma plus_greedy_stops (A : Type) (p : ascii -> bool) (s : str)
      (caps : captures) (k : cont A) :
  stops p s = true -> plus_greedy p s caps k = None.
Proof.
  destruct s as [|c s]; simpl; [reflexivity|].
  destruct (p c); [discriminate | reflexivity].
Qed.

(** A run of the class, followed by a character outside it: the longest
    match is tried first, and it is the whole run. *)
Lemma first_match_Plus (p : ascii -> bool) (w : str) (caps : captures) :
  w <> [] -> forallb p w = true ->
  first_match (Plus p) w caps caps (stops p).
Proof.
  intros Hne Hw A s k a Hs Hk. simpl.
  induction w as [|c w IH]; [congruence|].
  simpl in *. apply andb_true_iff in Hw. destruct Hw as [Hc Hw].
  rewrite Hc. destruct w as [|c' w].
  - simpl. rewrite plus_greedy_stops by assumption. exact Hk.
  - rewrite IH; [reflexivity | discriminate | exact Hw].
Qed.

Lemma first_match_Cat (r1 r2 : regex) (w1 w2 : str) (c0 c1 c2 : captures)
      (ok1 ok2 : str -> bool) :
  first_match r1 w1 c0 c1 ok1 -> first_match r2 w2 c1 c2 ok2 ->
  (forall s, ok2 s = true -> ok1 (w2 ++ s) = true) ->
  first_match (Cat r1 r2) (w1 ++ w2) c0 c2 ok2.
Proof.
  intros H1 H2 Hok A s k a Hs Hk. simpl. rewrite <- app_assoc.
  apply H1; [apply Hok; exact Hs|]. apply H2; assumption.
Qed.

Lemma first_match_AltL (r1 r2 : regex) (w : str) (c0 c1 : captures)
      (ok : str -> bool) :
  first_match r1 w c0 c1 ok -> first_match (Alt r1 r2) w c0 c1 ok.
Proof. intros H A s k a Hs Hk. simpl. rewrite (H A s k a Hs Hk). reflexivity. Qed.

Lemma first_match_AltR (r1 r2 : regex) (w : str) (c0 c1 : captures)
      (ok : str -> bool) :
  (forall A s caps (k : cont A), matches r1 (w ++ s) caps k = None) ->
  first_match r2 w c0 c1 ok -> first_match (Alt r1 r2) w c0 c1 ok.
Proof. intros Hn H A s k a Hs Hk. simpl. rewrite Hn. apply H; assumption. Qed.

Lemma first_match_Group (i : nat) (r : regex) (w : str) (c0 c1 : captures)
      (ok : str -> bool) :
  first_match r w c0 c1 ok -> first_match (Group i r) w c0 ((i, w) :: c1) ok.
Proof.
  intros H A s k a Hs Hk. simpl. apply H; [exact Hs|].
  rewrite firstn_matched. exact Hk.
Qed.

End TidePattern.

Section TideLine.

Import Feed.

Lemma is_HHMM_inv (t : str) :
  is_HHMM t = true ->
  exists a b d e,
    t = [a; b; ":"%char; d; e]
    /\ Py_UNICODE_ISDECIMAL a = true /\ Py_UNICODE_ISDECIMAL b = true
    /\ Py_UNICODE_ISDECIMAL d = true /\ Py_UNICODE_ISDECIMAL e = true.
Proof.
  destruct t as [|a [|b [|c [|d [|e [|f t]]]]]]; simpl; try discriminate.
  rewrite !andb_true_iff, chr_eqb_eq.
  intros [[[[Ha Hb] ->] Hd] He]. exists a, b, d, e. auto.
Qed.

Lemma is_height_inv (h : str) :
  is_height h = true -> h <> [] /\ forallb digit_or_dot h = true.
Proof. destruct h; simpl; [discriminate|]. split; [discriminate | auto]. Qed.

Lemma blank_run (caps : captures) :
  first_match space_run $" " caps caps (stops Py_UNICODE_ISSPACE).
Proof. apply first_match_Plus; [discriminate | reflexivity]. Qed.

Lemma first_match_time (t : str) (caps : captures) :
  is_HHMM t = true ->
  first_match (Group 1 (Cat digit (Cat digit (Cat (Lit $":") (Cat digit digit)))))
              t caps ((1%nat, t) :: caps) anything.
Proof.
  intros Ht. apply is_HHMM_inv in Ht.
  destruct Ht as (a & b & d & e & -> & Ha & Hb & Hd & He).
  apply first_match_Group.
  change [a; b; ":"%char; d; e] with ([a] ++ [b] ++ $":" ++ [d] ++ [e]).
  unfold digit.
  repeat (eapply first_match_Cat;
          [try (apply first_match_Cls; assumption); apply first_match_Lit
          | | reflexivity]).
  apply first_match_Cls; assumption.
Qed.

Lemma first_match_type (ty : str) (caps : captures) :
  ty = $"High" \/ ty = $"Low" ->
  first_match (Group 2 (Alt (Lit $"High") (Lit $"Low")))
              ty caps ((2%nat, ty) :: caps) anything.
Proof.
  intros [-> | ->]; apply first_match_Group.
  - apply first_match_AltL, first_match_Lit.
  - apply first_match_AltR; [reflexivity | apply first_match_Lit].
Qed.

Lemma first_match_open (op : str) (caps : captures) :
  is_open_paren op ->
  first_match (Alt (Lit $"&#x28;") (Lit $"(")) op caps caps anything.
Proof.
  intros [-> | ->].
  - apply first_match_AltR; [reflexivity | apply first_match_Lit].
  - apply first_match_AltL, first_match_Lit.
Qed.

Lemma first_match_close (cl : str) (caps : captures) :
  is_close_paren cl ->
  first_match (Alt (Lit $"&#x29;") (Lit $")")) cl caps caps anything.
Proof.
  intros [-> | ->].
  - apply first_match_AltR; [reflexivity | apply first_match_Lit].
  - apply first_match_AltL, first_match_Lit.
Qed.

Lemma first_match_height (h : str) (caps : captures) :
  is_height h = true ->
  first_match (Group 3 (Cat (Plus digit_or_dot) (Lit $"m")))
              (h ++ $"m") caps ((3%nat, h ++ $"m") :: caps) anything.
Proof.
  intros Hh. apply is_height_inv in Hh. destruct Hh as [Hne Hh].
  apply first_match_Group.
  eapply first_match_Cat;
    [apply first_match_Plus; assumption | apply first_match_Lit
    | reflexivity].
Qed.

(** A well-formed tide line matches the pattern from its first
    character, whichever way its parentheses are written, and the groups
    are its time, its type and its height with the unit. *)
Lemma tide_line_match (op cl t ty h : str) :
  is_open_paren op -> is_close_paren cl ->
  is_HHMM t = true -> (ty = $"High" \/ ty = $"Low") ->
  is_height h = true ->
  re_match TIDE_RE (tide_line op cl t ty h)
  = Some (MatchObject [(3%nat, h ++ $"m"); (2%nat, ty); (1%nat, t)] []).
Proof.
  intros Hop Hcl Ht Hty Hh.
  assert (F : first_match TIDE_RE
                (t ++ $" " ++ $"-" ++ $" " ++ ty ++ $" " ++ $"Tide"
                   ++ $" " ++ op ++ (h ++ $"m") ++ cl)
                [] [(3%nat, h ++ $"m"); (2%nat, ty); (1%nat, t)] anything).
  { unfold TIDE_RE.
    eapply first_match_Cat; [apply first_match_time; exact Ht | | reflexivity].
    eapply first_match_Cat; [apply blank_run | | reflexivity].
    eapply first_match_Cat; [apply first_match_Lit | | reflexivity].
    eapply first_match_Cat; [apply blank_run | |].
    2: { intros s _. destruct Hty as [-> | ->]; reflexivity. }
    eapply first_match_Cat; [apply first_match_type; exact Hty | | reflexivity].
    eapply first_match_Cat; [apply blank_run | | reflexivity].
    eapply first_match_Cat; [apply first_match_Lit | | reflexivity].
    eapply first_match_Cat; [apply blank_run | |].
    2: { intros s _. destruct Hop as [-> | ->]; reflexivity. }
    eapply first_match_Cat; [apply first_match_open; exact Hop | | reflexivity].
    eapply first_match_Cat; [apply first_match_height; exact Hh | | reflexivity].
    apply first_match_close; exact Hcl. }
  unfold re_match.
  replace (tide_line op cl t ty h)
    with ((t ++ $" " ++ $"-" ++ $" " ++ ty ++ $" " ++ $"Tide"
             ++ $" " ++ op ++ (h ++ $"m") ++ cl) ++ []).
  - apply F; reflexivity.
  - unfold tide_line. rewrite app_nil_r.
    repeat rewrite <- app_assoc. reflexivity.
Qed.

Lemma re_search_first (r : regex) (s : str) (m : match_object) :
  re_match r s = Some m -> re_search r s = Some m.
Proof. intros H. destruct s; cbn [re_search]; rewrite H; reflexivity. Qed.

Lemma tide_line_search (op cl t ty h : str) :
  is_open_paren op -> is_close_paren cl ->
  is_HHMM t = true -> (ty = $"High" \/ ty = $"Low") ->
  is_height h = true ->
  re_search TIDE_RE (tide_line op cl t ty h)
  = Some (MatchObject [(3%nat, h ++ $"m"); (2%nat, ty); (1%nat, t)] []).
Proof.
  intros. apply re_search_first, tide_line_match; assumption.
Qed.

Lemma tide_line_strip (op cl t ty h : str) :
  is_open_paren op -> is_close_paren cl -> is_HHMM t = true ->
  strip (tide_line op cl t ty h) = tide_line op cl t ty h.
Proof.
  intros Hop Hcl Ht. apply is_HHMM_inv in Ht.
  destruct Ht as (a & b & d & e & -> & Ha & _).
  assert (Hsp : forall c, Py_UNICODE_ISDECIMAL c = true ->
                          Py_UNICODE_ISSPACE c = false).
  { intros c. unfold Py_UNICODE_ISDECIMAL, Py_UNICODE_ISSPACE, in_range.
    intros H. apply andb_true_iff in H. destruct H as [H1 H2].
    apply Z.leb_le in H1, H2.
    repeat match goal with
           | |- context [?x <=? ?y] => destruct (Z.leb_spec x y); try lia
           | |- context [?x =? ?y] => destruct (Z.eqb_spec x y); try lia
           end; reflexivity. }
  unfold strip, tide_line.
  destruct Hcl as [-> | ->].
  - replace ([a; b; ":"%char; d; e] ++ $" - " ++ ty ++ $" Tide " ++ op ++ h ++ $"m" ++ $")")
      with (a :: ([b; ":"%char; d; e] ++ $" - " ++ ty ++ $" Tide " ++ op ++ h ++ $"m") ++ [")"%char]).
    + apply strip_with_id; [auto | reflexivity].
    + cbn [app list_ascii_of_string].
      repeat (rewrite <- ?app_assoc; cbn [app]). reflexivity.
  - replace ([a; b; ":"%char; d; e] ++ $" - " ++ ty ++ $" Tide " ++ op ++ h ++ $"m" ++ $"&#x29;")
      with (a :: ([b; ":"%char; d; e] ++ $" - " ++ ty ++ $" Tide " ++ op ++ h ++ $"m" ++ $"&#x29") ++ [";"%char]).
    + apply strip_with_id; [auto | reflexivity].
    + cbn [app list_ascii_of_string].
      repeat (rewrite <- ?app_assoc; cbn [app]). reflexivity.
Qed.

End TideLine.

(** ** Rounding to binary64 *)

Section Rounding.

Lemma round_half_even_nonneg (n d : Z) :
  0 <= n -> 0 < d -> 0 <= round_half_even n d.
Proof.
  intros Hn Hd. unfold round_half_even.
  assert (0 <= n / d) by (apply Z.div_pos; lia).
  destruct (2 * (n mod d) ?= d); [destruct (Z.even (n / d))| |]; lia.
Qed.

(** Rounding does not pass an integer that the ratio does not pass. *)
Lemma round_half_even_le (n d K : Z) :
  0 <= n -> 0 < d -> n <= K * d -> round_half_even n d <= K.
Proof.
  intros Hn Hd HK. unfold round_half_even.
  pose proof (Z.div_mod n d ltac:(lia)) as E.
  pose proof (Z.mod_pos_bound n d Hd) as B.
  assert (Hq : n / d <= K).
  { apply Z.div_le_upper_bound; lia. }
  destruct (Z.eq_dec (n / d) K) as [Eq|Ne].
  - assert (n mod d = 0) by nia.
    replace (2 * (n mod d) ?= d) with Lt; [lia|].
    symmetry. apply Z.compare_lt_iff. lia.
  - destruct (2 * (n mod d) ?= d); [destruct (Z.even (n / d))| |]; lia.
Qed.

Lemma pow2_pos (e : Z) : 0 <= e -> 0 < 2 ^ e.
Proof. intros. apply Z.pow_pos_nonneg; lia. Qed.

Lemma ratio_shift_pos (n d q : Z) :
  0 < n -> 0 < d ->
  0 < fst (ratio_shift n d q) /\ 0 < snd (ratio_shift n d q).
Proof.
  intros Hn Hd. unfold ratio_shift.
  destruct (Z.leb_spec 0 q); simpl.
  - pose proof (pow2_pos q ltac:(lia)). nia.
  - pose proof (pow2_pos (- q) ltac:(lia)). nia.
Qed.

(** Shifting by [q] and by [q + j] differ by the factor [2^j]. *)
Lemma ratio_shift_add (n d q j : Z) :
  0 <= j ->
  fst (ratio_shift n d q) * snd (ratio_shift n d (q + j))
  = 2 ^ j * fst (ratio_shift n d (q + j)) * snd (ratio_shift n d q).
Proof.
  intros Hj. unfold ratio_shift.
  destruct (Z.leb_spec 0 q), (Z.leb_spec 0 (q + j)); simpl; try lia.
  - rewrite Z.pow_add_r by lia. ring.
  - assert (E : 2 ^ j = 2 ^ (- q) * 2 ^ (q + j)).
    { rewrite <- Z.pow_add_r by lia. f_equal. lia. }
    rewrite E. ring.
  - assert (E : 2 ^ (- q) = 2 ^ j * 2 ^ (- (q + j))).
    { rewrite <- Z.pow_add_r by lia. f_equal. lia. }
    rewrite E. ring.
Qed.

Lemma ratio_shift_ge_mono (n d e j : Z) :
  0 < n -> 0 < d -> 0 <= j ->
  snd (ratio_shift n d (e + j)) <= fst (ratio_shift n d (e + j)) ->
  snd (ratio_shift n d e) <= fst (ratio_shift n d e).
Proof.
  intros Hn Hd Hj H.
  pose proof (ratio_shift_add n d e j Hj) as E.
  destruct (ratio_shift_pos n d e Hn Hd) as [P1 P2].
  destruct (ratio_shift_pos n d (e + j) Hn Hd) as [P3 P4].
  pose proof (pow2_pos j Hj) as Pj.
  revert E H P1 P2 P3 P4 Pj.
  generalize (fst (ratio_shift n d e)) (snd (ratio_shift n d e))
             (fst (ratio_shift n d (e + j))) (snd (ratio_shift n d (e + j)))
             (2 ^ j).
  intros n1 d1 n2 d2 p E H P1 P2 P3 P4 Pj.
  destruct (Z.le_gt_cases d1 n1) as [|C]; [assumption | exfalso].
  assert (n1 * d2 < d1 * d2) by nia.
  assert (d1 * d2 <= d1 * n2) by nia.
  assert (d1 * n2 <= p * (n2 * d1)) by nia.
  nia.
Qed.

Lemma ratio_shift_lt_scaled (n d e j : Z) :
  0 < n -> 0 < d -> 0 <= j ->
  fst (ratio_shift n d (e + j)) < snd (ratio_shift n d (e + j)) ->
  fst (ratio_shift n d e) < 2 ^ j * snd (ratio_shift n d e).
Proof.
  intros Hn Hd Hj H.
  pose proof (ratio_shift_add n d e j Hj) as E.
  destruct (ratio_shift_pos n d e Hn Hd) as [P1 P2].
  destruct (ratio_shift_pos n d (e + j) Hn Hd) as [P3 P4].
  pose proof (pow2_pos j Hj) as Pj.
  revert E H P1 P2 P3 P4 Pj.
  generalize (fst (ratio_shift n d e)) (snd (ratio_shift n d e))
             (fst (ratio_shift n d (e + j))) (snd (ratio_shift n d (e + j)))
             (2 ^ j).
  intros n1 d1 n2 d2 p E H P1 P2 P3 P4 Pj.
  destruct (Z.lt_ge_cases n1 (p * d1)) as [|C]; [assumption | exfalso].
  assert (p * d1 * d2 <= n1 * d2) by nia.
  assert (p * n2 * d1 < p * d2 * d1) by nia.
  nia.
Qed.

Lemma ratio_shift_lt_mono (n d e j : Z) :
  0 < n -> 0 < d -> 0 <= j ->
  fst (ratio_shift n d e) < snd (ratio_shift n d e) ->
  fst (ratio_shift n d (e + j)) < snd (ratio_shift n d (e + j)).
Proof.
  intros Hn Hd Hj H.
  pose proof (ratio_shift_add n d e j Hj) as E.
  destruct (ratio_shift_pos n d e Hn Hd) as [P1 P2].
  destruct (ratio_shift_pos n d (e + j) Hn Hd) as [P3 P4].
  pose proof (pow2_pos j Hj) as Pj.
  revert E H P1 P2 P3 P4 Pj.
  generalize (fst (ratio_shift n d e)) (snd (ratio_shift n d e))
             (fst (ratio_shift n d (e + j))) (snd (ratio_shift n d (e + j)))
             (2 ^ j).
  intros n1 d1 n2 d2 p E H P1 P2 P3 P4 Pj.
  destruct (Z.lt_ge_cases n2 d2) as [|C]; [assumption | exfalso].
  assert (n1 * d2 < d1 * d2) by nia.
  assert (d1 * d2 <= d1 * n2) by nia.
  assert (d1 * n2 <= p * (n2 * d1)) by nia.
  nia.
Qed.

Lemma ilog2_ratio_cases (n d : Z) :
  let e0 := Z.log2 n - Z.log2 d in
  (ilog2_ratio n d = e0 - 1
   /\ fst (ratio_shift n d e0) < snd (ratio_shift n d e0))
  \/ (ilog2_ratio n d = e0
      /\ snd (ratio_shift n d e0) <= fst (ratio_shift n d e0)).
Proof.
  intros e0. unfold ilog2_ratio. fold e0.
  destruct (ratio_shift n d e0) as [n' d']. simpl.
  destruct (Z.ltb_spec n' d'); [left | right]; auto.
Qed.

(** [2 ^ ilog2_ratio n d <= n / d] *)
Lemma ilog2_ratio_lower (n d : Z) :
  0 < n -> 0 < d ->
  snd (ratio_shift n d (ilog2_ratio n d))
  <= fst (ratio_shift n d (ilog2_ratio n d)).
Proof.
  intros Hn Hd.
  destruct (ilog2_ratio_cases n d) as [[-> H] | [-> H]]; [|exact H].
  pose proof (Z.log2_spec n Hn) as [Ln _].
  pose proof (Z.log2_spec d Hd) as [_ Ld].
  pose proof (Z.log2_nonneg n). pose proof (Z.log2_nonneg d).
  unfold ratio_shift.
  destruct (Z.leb_spec 0 (Z.log2 n - Z.log2 d - 1)); simpl.
  - assert (E : 2 ^ Z.log2 n
                = 2 ^ Z.succ (Z.log2 d) * 2 ^ (Z.log2 n - Z.log2 d - 1)).
    { rewrite <- Z.pow_add_r by lia. f_equal. lia. }
    pose proof (pow2_pos (Z.log2 n - Z.log2 d - 1) ltac:(lia)). nia.
  - assert (E : 2 ^ Z.succ (Z.log2 d)
                = 2 ^ Z.log2 n * 2 ^ (- (Z.log2 n - Z.log2 d - 1))).
    { rewrite <- Z.pow_add_r by lia. f_equal. lia. }
    pose proof (pow2_pos (- (Z.log2 n - Z.log2 d - 1)) ltac:(lia)). nia.
Qed.

(** [n / d < 2 ^ (ilog2_ratio n d + 1)] *)
Lemma ilog2_ratio_upper (n d : Z) :
  0 < n -> 0 < d ->
  fst (ratio_shift n d (ilog2_ratio n d + 1))
  < snd (ratio_shift n d (ilog2_ratio n d + 1)).
Proof.
  intros Hn Hd.
  destruct (ilog2_ratio_cases n d) as [[-> H] | [-> H]].
  - replace (Z.log2 n - Z.log2 d - 1 + 1) with (Z.log2 n - Z.log2 d) by lia.
    exact H.
  - pose proof (Z.log2_spec n Hn) as [_ Ln].
    pose proof (Z.log2_spec d Hd) as [Ld _].
    pose proof (Z.log2_nonneg n). pose proof (Z.log2_nonneg d).
    unfold ratio_shift.
    destruct (Z.leb_spec 0 (Z.log2 n - Z.log2 d + 1)); simpl.
    + assert (E : 2 ^ Z.succ (Z.log2 n)
                  = 2 ^ Z.log2 d * 2 ^ (Z.log2 n - Z.log2 d + 1)).
      { rewrite <- Z.pow_add_r by lia. f_equal. lia. }
      pose proof (pow2_pos (Z.log2 n - Z.log2 d + 1) ltac:(lia)). nia.
    + assert (E : 2 ^ Z.log2 d
                  = 2 ^ Z.succ (Z.log2 n) * 2 ^ (- (Z.log2 n - Z.log2 d + 1))).
      { rewrite <- Z.pow_add_r by lia. f_equal. lia. }
      pose proof (pow2_pos (- (Z.log2 n - Z.log2 d + 1)) ltac:(lia)). nia.
Qed.

(** The significand before normalisation has at most 53 bits, or is
    exactly [2^53]. *)
Lemma significand_bound (n d : Z) :
  0 < n -> 0 < d ->
  let q := Z.max (ilog2_ratio n d - 52) (-1074) in
  0 <= round_half_even (fst (ratio_shift n d q)) (snd (ratio_shift n d q))
    <= 2 ^ 53.
Proof.
  intros Hn Hd q.
  destruct (ratio_shift_pos n d q Hn Hd) as [P1 P2].
  split; [apply round_half_even_nonneg; lia|].
  apply round_half_even_le; [lia | lia |].
  pose proof (ilog2_ratio_upper n d Hn Hd) as U.
  destruct (Z.le_gt_cases q (ilog2_ratio n d + 1)) as [Hq|Hq].
  - set (j := ilog2_ratio n d + 1 - q).
    assert (Hj : 0 <= j <= 53) by (unfold j, q; lia).
    replace (ilog2_ratio n d + 1) with (q + j) in U by (unfold j; lia).
    apply ratio_shift_lt_scaled in U; try lia.
    assert (2 ^ j <= 2 ^ 53) by (apply Z.pow_le_mono_r; lia).
    nia.
  - set (j := q - (ilog2_ratio n d + 1)).
    replace q with (ilog2_ratio n d + 1 + j) by (unfold j; lia).
    apply (ratio_shift_lt_mono n d _ j) in U; try (unfold j; lia).
    destruct (ratio_shift_pos n d (ilog2_ratio n d + 1 + j) Hn Hd).
    lia.
Qed.

Lemma binary64_of_ratio_shape (n d : Z) :
  0 < n -> 0 < d ->
  binary64_of_ratio n d = S754_zero false
  \/ binary64_of_ratio n d = S754_infinity false
  \/ exists m e, binary64_of_ratio n d = S754_finite false m e
                 /\ Z.pos m < 2 ^ 53 /\ -1074 <= e <= 971.
Proof.
  intros Hn Hd. unfold binary64_of_ratio.
  pose proof (significand_bound n d Hn Hd) as B. cbv zeta in B.
  set (q := Z.max (ilog2_ratio n d - 52) (-1074)) in *.
  destruct (ratio_shift n d q) as [n' d'] eqn:E. simpl fst in B; simpl snd in B.
  set (m := round_half_even n' d') in *.
  destruct (Z.eqb_spec m 0) as [|Hm0]; [auto|].
  destruct (Z.eqb_spec m (2 ^ 53)) as [Hm|Hm].
  - destruct (Z.leb_spec (q + 1) 971); [|auto].
    right; right. exists (Z.to_pos (2 ^ 52)), (q + 1).
    split; [reflexivity|]. split; [reflexivity | unfold q in *; lia].
  - destruct (Z.leb_spec q 971); [|auto].
    right; right. exists (Z.to_pos m), q.
    split; [reflexivity|]. rewrite Z2Pos.id by lia.
    split; [lia | unfold q; lia].
Qed.

(** The largest finite binary64 number. *)
Lemma binary64_of_ratio_finite (n d : Z) :
  0 < n -> 0 < d -> n <= (2 ^ 53 - 1) * 2 ^ 971 * d ->
  binary64_of_ratio n d <> S754_infinity false.
Proof.
  intros Hn Hd Hmax. unfold binary64_of_ratio.
  pose proof (significand_bound n d Hn Hd) as B. cbv zeta in B.
  assert (Hef : ilog2_ratio n d <= 1023).
  { destruct (Z.le_gt_cases (ilog2_ratio n d) 1023) as [|C]; [assumption|].
    exfalso.
    pose proof (ilog2_ratio_lower n d Hn Hd) as L.
    replace (ilog2_ratio n d) with (1024 + (ilog2_ratio n d - 1024)) in L
      by lia.
    apply ratio_shift_ge_mono in L; try lia.
    unfold ratio_shift in L. simpl in L.
    assert (2 ^ 1024 = 2 ^ 53 * 2 ^ 971) by reflexivity. nia. }
  set (q := Z.max (ilog2_ratio n d - 52) (-1074)) in *.
  assert (Hq : q <= 971) by (unfold q; lia).
  destruct (ratio_shift n d q) as [n' d'] eqn:E. simpl fst in B; simpl snd in B.
  set (m := round_half_even n' d') in *.
  destruct (Z.eqb_spec m 0) as [|Hm0]; [discriminate|].
  destruct (Z.eqb_spec m (2 ^ 53)) as [Hm|Hm].
  - destruct (Z.leb_spec (q + 1) 971) as [|C]; [discriminate|].
    exfalso. assert (q = 971) by lia.
    assert (m <= 2 ^ 53 - 1); [|lia].
    unfold m. unfold ratio_shift in E. subst q. rewrite H in E.
    simpl in E. injection E; intros <- <-.
    apply round_half_even_le; [lia | | lia].
    pose proof (pow2_pos 971 ltac:(lia)). nia.
  - destruct (Z.leb_spec q 971); [discriminate | lia].
Qed.

End Rounding.

(** ** Reading and rounding heights *)

(** The rounding of ratios agrees with the standard library's IEEE-754
    division on sample ratios: thirds, a tie, a subnormal-sized ratio and
    a large one. *)
Example binary64_of_ratio_agrees_with_SFdiv :
  map (fun p => binary64_of_ratio (Z.pos (fst p)) (Z.pos (snd p)))
      [(1, 3); (2, 3); (742, 100); (110, 100); (1, 1000000007);
       (9007199254740993, 1); (9007199254740995, 2);
       (18014398509481985, 2); (1, 2 ^ 1074 * 3); (2 ^ 1023 * 3, 2)]%positive
  = map (fun p => SFdiv 53 1024 (S754_finite false (fst p) 0)
                        (S754_finite false (snd p) 0))
        [(1, 3); (2, 3); (742, 100); (110, 100); (1, 1000000007);
         (9007199254740993, 1); (9007199254740995, 2);
         (18014398509481985, 2); (1, 2 ^ 1074 * 3); (2 ^ 1023 * 3, 2)]%positive.
Proof. vm_compute. reflexivity. Qed.

(** [round(2.675, 2)] is 2.67 and [round(0.125, 2)] is 0.12, as in
    Python. *)
Example round2_samples :
  (x <- float_of_str $"2.675" ;; round2 x) = float_of_str $"2.67"
  /\ (x <- float_of_str $"0.125" ;; round2 x) = float_of_str $"0.12"
  /\ (x <- float_of_str $"-0.001" ;; round2 x) = Ok (S754_zero true)
  /\ float_of_str $"1e400" = Ok (S754_infinity false)
  /\ float_of_str $" 1_0.5e-1 " = float_of_str $"1.05"
  /\ float_of_str $"1.2.3" = Raise ValueError
  /\ float_of_str $"nan" = Ok S754_nan.
Proof. repeat split; vm_compute; reflexivity. Qed.

Section FloatFacts.

Lemma signed_valid (neg : bool) (x : spec_float) :
  valid_binary64 x -> valid_binary64 (signed neg x).
Proof. destruct neg, x; simpl; auto. Qed.

Lemma binary64_of_ratio_valid (n d : Z) :
  0 < n -> 0 < d -> valid_binary64 (binary64_of_ratio n d).
Proof.
  intros Hn Hd.
  destruct (binary64_of_ratio_shape n d Hn Hd)
    as [-> | [-> | (m & e & -> & Hm & He)]]; simpl; auto.
Qed.

Lemma binary64_of_ratio_sign_clear (n d : Z) :
  0 < n -> 0 < d -> sign_clear (binary64_of_ratio n d).
Proof.
  intros Hn Hd.
  destruct (binary64_of_ratio_shape n d Hn Hd)
    as [-> | [-> | (m & e & -> & Hm & He)]]; simpl; auto.
Qed.

Lemma pow10_pos (e : Z) : 0 <= e -> 0 < 10 ^ e.
Proof. intros. apply Z.pow_pos_nonneg; lia. Qed.

Lemma binary64_of_decimal_valid (neg : bool) (m e : Z) :
  0 <= m -> valid_binary64 (binary64_of_decimal neg m e).
Proof.
  intros Hm. unfold binary64_of_decimal.
  destruct (Z.eqb_spec m 0); [exact I|].
  destruct (Z.leb_spec 0 e); apply signed_valid, binary64_of_ratio_valid;
    try lia; try (apply pow10_pos; lia);
    pose proof (pow10_pos e ltac:(lia)); nia.
Qed.

Lemma binary64_of_decimal_sign_clear (m e : Z) :
  0 <= m -> sign_clear (binary64_of_decimal false m e).
Proof.
  intros Hm. unfold binary64_of_decimal.
  destruct (Z.eqb_spec m 0); [exact I|].
  destruct (Z.leb_spec 0 e); simpl; apply binary64_of_ratio_sign_clear;
    try lia; try (apply pow10_pos; lia);
    pose proof (pow10_pos e ltac:(lia)); nia.
Qed.

(** A decimal of no more than 308 digits and no positive exponent is in
    range. *)
Lemma binary64_of_decimal_finite (neg : bool) (m e : Z) :
  0 <= m < 10 ^ 308 -> e <= 0 ->
  is_finite (binary64_of_decimal neg m e) = true.
Proof.
  intros Hm He. unfold binary64_of_decimal.
  destruct (Z.eqb_spec m 0); [reflexivity|].
  assert (Hmax : 10 ^ 308 <= (2 ^ 53 - 1) * 2 ^ 971)
    by (apply Z.leb_le; vm_compute; reflexivity).
  assert (F : forall n d, 0 < n -> 0 < d -> n <= (2 ^ 53 - 1) * 2 ^ 971 * d ->
                          is_finite (signed neg (binary64_of_ratio n d)) = true).
  { intros n0 d0 Hn Hd Hb.
    pose proof (binary64_of_ratio_finite n0 d0 Hn Hd Hb) as NI.
    destruct (binary64_of_ratio_shape n0 d0 Hn Hd)
      as [E | [E | (m' & e' & E & _)]]; rewrite E in *;
      [destruct neg; reflexivity | congruence | destruct neg; reflexivity]. }
  destruct (Z.leb_spec 0 e).
  - assert (e = 0) by lia. subst e. apply F; lia.
  - pose proof (pow10_pos (- e) ltac:(lia)). apply F; nia.
Qed.

Lemma is_ascii_digit_val (c : ascii) :
  is_ascii_digit c = true -> 0 <= digit_val c <= 9.
Proof.
  unfold is_ascii_digit, in_range, digit_val.
  rewrite andb_true_iff, !Z.leb_le. lia.
Qed.

Lemma Z_of_digits_snoc (s : str) (c : ascii) :
  Z_of_digits (s ++ [c]) = 10 * Z_of_digits s + digit_val c.
Proof. unfold Z_of_digits. rewrite fold_left_app. reflexivity. Qed.

Lemma Z_of_digits_bound (s : str) :
  forallb is_ascii_digit s = true ->
  0 <= Z_of_digits s < 10 ^ Z.of_nat (List.length s).
Proof.
  induction s as [|c s IH] using rev_ind; intros H.
  - simpl. unfold Z_of_digits. simpl. lia.
  - rewrite forallb_app in H. apply andb_true_iff in H.
    destruct H as [Hs Hc]. simpl in Hc. rewrite andb_true_r in Hc.
    apply is_ascii_digit_val in Hc. specialize (IH Hs).
    rewrite Z_of_digits_snoc, length_app. simpl List.length.
    rewrite Nat2Z.inj_add. simpl Z.of_nat.
    rewrite Z.pow_add_r by lia. simpl (10 ^ 1). lia.
Qed.

Lemma span_spec (p : ascii -> bool) (s : str) :
  s = fst (span p s) ++ snd (span p s)
  /\ forallb p (fst (span p s)) = true
  /\ stops p (snd (span p s)) = true.
Proof.
  induction s as [|c s IH]; simpl; [auto|].
  destruct (p c) eqn:Hc.
  - destruct (span p s) as [w r]. simpl in *.
    destruct IH as (E & Hw & Hr). rewrite Hc. repeat split; auto.
    f_equal; exact E.
  - simpl. rewrite Hc. auto.
Qed.

(** What [float] can answer: a number in canonical range, or
    [ValueError]. *)
Lemma strtod_valid (s : str) (x : spec_float) (rest : str) :
  strtod s = Some (x, rest) -> valid_binary64 x.
Proof.
  unfold strtod. destruct (parse_sign s) as [neg s1].
  pose proof (span_spec is_ascii_digit s1) as (_ & Hip & _).
  destruct (span is_ascii_digit s1) as [ip s2]. simpl in Hip.
  assert (Hfp : forall t, forallb is_ascii_digit (fst (span is_ascii_digit t)) = true)
    by (intros t; apply span_spec).
  match goal with
  | |- context [let '(fp, s3) := ?e in _] =>
      assert (Hf : forallb is_ascii_digit (fst e) = true);
      [| destruct e as [fp s3] ]
  end.
  { destruct s2 as [|c t]; [reflexivity|].
    destruct (chr_eqb c "."); [apply Hfp | reflexivity]. }
  simpl in Hf.
  destruct (ip ++ fp) as [|c0 ds] eqn:E; [discriminate|].
  destruct (parse_exponent s3) as [ex s4].
  intros H; injection H; intros _ <-.
  apply binary64_of_decimal_valid.
  apply Z_of_digits_bound. rewrite <- E, forallb_app, Hip, Hf. reflexivity.
Qed.

Lemma parse_inf_or_nan_valid (s : str) (x : spec_float) (rest : str) :
  parse_inf_or_nan s = Some (x, rest) -> valid_binary64 x.
Proof.
  unfold parse_inf_or_nan. destruct (parse_sign s) as [neg s1].
  destruct (strip_prefix_nocase $"inf" s1) as [s2|].
  - destruct (strip_prefix_nocase $"inity" s2);
      intros H; injection H; intros _ <-; exact I.
  - destruct (strip_prefix_nocase $"nan" s1); [|discriminate].
    intros H; injection H; intros _ <-; exact I.
Qed.

Lemma float_of_str_valid (s : str) (x : spec_float) :
  float_of_str s = Ok x -> valid_binary64 x.
Proof.
  unfold float_of_str.
  destruct (drop_underscores "000" (ascii_transform s)) as [s1|];
    [|discriminate].
  destruct (strtod (strip_with Py_ISSPACE s1)) as [[y [|c r]]|] eqn:E.
  - intros H; injection H; intros <-. eapply strtod_valid; exact E.
  - discriminate.
  - destruct (parse_inf_or_nan (strip_with Py_ISSPACE s1))
      as [[y [|c r]]|] eqn:E'; try discriminate.
    intros H; injection H; intros <-.
    eapply parse_inf_or_nan_valid; exact E'.
Qed.

Lemma float_of_str_raises (s : str) (e : exn) :
  float_of_str s = Raise e -> e = ValueError.
Proof.
  unfold float_of_str.
  destruct (drop_underscores "000" (ascii_transform s)) as [s1|];
    [|congruence].
  destruct (strtod (strip_with Py_ISSPACE s1)) as [[y [|c r]]|];
    try congruence.
  destruct (parse_inf_or_nan (strip_with Py_ISSPACE s1))
    as [[y [|c r]]|]; congruence.
Qed.

Lemma int_of_str_raises (s : str) (e : exn) :
  int_of_str s = Raise e -> e = ValueError.
Proof.
  unfold int_of_str.
  destruct (drop_underscores "000" (ascii_transform s)) as [s1|];
    [|congruence].
  destruct (parse_sign (strip_with Py_ISSPACE s1)) as [neg s2].
  destruct (span is_ascii_digit s2) as [[|c ds] [|c' r]]; congruence.
Qed.

(** [round(x, 2)] never overflows: it answers for every number in
    canonical range, keeps the sign, keeps finite numbers finite and
    gives them two decimals. *)
Lemma round2_total (x : spec_float) :
  valid_binary64 x ->
  exists y, round2 x = Ok y
            /\ valid_binary64 y
            /\ (sign_clear x -> sign_clear y)
            /\ (is_finite x = true -> is_finite y = true /\ two_decimals y)
            /\ (is_finite x = false -> y = x).
Proof.
  destruct x as [s | s | | s m e].
  - intros _. exists (S754_zero s). simpl. repeat split; auto.
    exists s, 0. split; [lia | reflexivity].
  - intros _. exists (S754_infinity s). simpl.
    repeat split; auto; discriminate.
  - intros _. exists S754_nan. simpl. repeat split; auto; discriminate.
  - intros [Hm He]. unfold round2. cbn [is_finite sign_clear].
    set (k := if 0 <=? e then 100 * Z.pos m * 2 ^ e
              else round_half_even (100 * Z.pos m) (2 ^ (- e))).
    assert (Hk : 0 <= k <= (2 ^ 53 - 1) * 2 ^ 971 * 100).
    { unfold k. destruct (Z.leb_spec 0 e).
      - pose proof (pow2_pos e ltac:(lia)).
        assert (2 ^ e <= 2 ^ 971) by (apply Z.pow_le_mono_r; lia).
        split; [nia|].
        assert (Z.pos m * 2 ^ e <= (2 ^ 53 - 1) * 2 ^ 971); [|lia].
        apply Z.mul_le_mono_nonneg; lia.
      - pose proof (pow2_pos (- e) ltac:(lia)).
        split; [apply round_half_even_nonneg; lia|].
        assert (round_half_even (100 * Z.pos m) (2 ^ (- e)) <= 100 * Z.pos m).
        { apply round_half_even_le; try lia. nia. }
        pose proof (pow2_pos 971 ltac:(lia)). nia. }
    destruct (Z.eqb_spec k 0) as [Hk0|Hk0].
    + exists (S754_zero s). split; [reflexivity|]. split; [exact I|].
      split; [destruct s; auto|]. split; [|discriminate].
      intros _. split; [reflexivity|].
      exists s, 0. split; [lia | reflexivity].
    + assert (Hpos : 0 < k) by lia.
      pose proof (binary64_of_ratio_finite k 100 Hpos ltac:(lia) ltac:(lia)) as NI.
      assert (T : forall y, binary64_of_ratio k 100 = y ->
                            two_decimals (signed s y)).
      { intros y E. exists s, k. split; [lia|]. unfold binary64_of_decimal.
        destruct (Z.eqb_spec k 0); [lia|].
        change (0 <=? -2) with false. cbv iota.
        change (10 ^ (- -2)) with 100. rewrite E. reflexivity. }
      destruct (binary64_of_ratio_shape k 100 Hpos ltac:(lia))
        as [E | [E | (m' & e' & E & Hm' & He')]]; [| congruence |];
        rewrite E; specialize (T _ E);
        (eexists; split; [reflexivity|]);
        (split; [destruct s; simpl; auto|]);
        (split; [destruct s; simpl; auto|]);
        (split; [|discriminate]);
        intros _; (split; [destruct s; reflexivity | exact T]).
Qed.

Lemma sign_clear_nonnegative (x : spec_float) :
  sign_clear x -> nonnegative x.
Proof.
  destruct x as [[|] | [|] | | [|] m e]; simpl; try contradiction;
    intros _; reflexivity.
Qed.

End FloatFacts.

(** ** Loops *)

Section Loops.

Context {X S : Type}.

(** A step that does nothing can be left out of the loop. *)
Lemma for_each_skip (body : X -> S -> io S) (x : X) :
  (forall st, body x st = io_ret st) ->
  forall xs1 xs2 st,
    for_each (xs1 ++ x :: xs2) st body = for_each (xs1 ++ xs2) st body.
Proof.
  intros Hx xs1. induction xs1 as [|y xs1 IH]; intros xs2 st; simpl.
  - rewrite Hx. unfold io_ret. simpl.
    destruct (for_each xs2 st body). reflexivity.
  - destruct (body y st) as [out1 [st1|e]]; simpl; [|reflexivity].
    rewrite IH. reflexivity.
Qed.

End Loops.

(** ** One line of the feed *)

Section FeedLine.

Import Feed.

Lemma digit_or_dot_facts (c : ascii) :
  digit_or_dot c = true ->
  (ord c <? 127) = true /\ Py_ISSPACE c = false
  /\ chr_eqb c "_" = false /\ chr_eqb c "-" = false
  /\ chr_eqb c "+" = false /\ chr_eqb "i" (lower c) = false
  /\ chr_eqb "n" (lower c) = false /\ chr_eqb c "e" = false
  /\ chr_eqb c "E" = false /\ chr_eqb c "m" = false.
Proof.
  destruct c as [[] [] [] [] [] [] [] []]; vm_compute; intros H;
    try discriminate H; repeat split.
Qed.

Lemma decimal_facts (c : ascii) :
  Py_UNICODE_ISDECIMAL c = true ->
  chr_eqb c ":" = false /\ digit_or_dot c = true.
Proof.
  destruct c as [[] [] [] [] [] [] [] []]; vm_compute; intros H;
    try discriminate H; repeat split.
Qed.

Lemma forallb_In (p : ascii -> bool) (s : str) (c : ascii) :
  forallb p s = true -> In c s -> p c = true.
Proof. intros H. apply (proj1 (forallb_forall p s) H). Qed.

Lemma remove_unit (h : str) :
  forallb digit_or_dot h = true -> remove_char "m" (h ++ $"m") = h.
Proof.
  intros H. unfold remove_char. rewrite filter_app. simpl.
  rewrite app_nil_r. induction h as [|c h IH]; simpl in *; [reflexivity|].
  apply andb_true_iff in H. destruct H as [Hc Hh].
  apply digit_or_dot_facts in Hc.
  destruct Hc as (_ & _ & _ & _ & _ & _ & _ & _ & _ & ->). simpl.
  f_equal. apply IH; exact Hh.
Qed.

Lemma ascii_transform_plain (s : str) :
  forallb digit_or_dot s = true -> ascii_transform s = s.
Proof.
  induction s as [|c s IH]; simpl; [reflexivity|]. intros H.
  apply andb_true_iff in H. destruct H as [Hc Hs].
  apply digit_or_dot_facts in Hc. destruct Hc as (-> & _).
  f_equal. apply IH; exact Hs.
Qed.

Lemma drop_underscores_plain (s : str) (prev : ascii) :
  chr_eqb prev "_" = false -> forallb digit_or_dot s = true ->
  drop_underscores prev s = Some s.
Proof.
  revert prev. induction s as [|c s IH]; intros prev Hp H; simpl.
  - rewrite Hp. reflexivity.
  - simpl in H. apply andb_true_iff in H. destruct H as [Hc Hs].
    apply digit_or_dot_facts in Hc.
    destruct Hc as (_ & _ & Hu & _). rewrite Hu, Hp. simpl.
    rewrite (IH c Hu Hs). reflexivity.
Qed.

Lemma lstrip_plain (s : str) :
  forallb digit_or_dot s = true -> lstrip_with Py_ISSPACE s = s.
Proof.
  destruct s as [|c s]; simpl; [reflexivity|]. intros H.
  apply andb_true_iff in H. destruct H as [Hc _].
  apply digit_or_dot_facts in Hc. destruct Hc as (_ & -> & _). reflexivity.
Qed.

Lemma strip_plain (s : str) :
  forallb digit_or_dot s = true -> strip_with Py_ISSPACE s = s.
Proof.
  intros H. unfold strip_with, rstrip_with.
  rewrite (lstrip_plain s H), lstrip_plain.
  - apply rev_involutive.
  - apply forallb_forall. intros c Hc. apply in_rev in Hc.
    eapply forallb_In; eauto.
Qed.

Lemma parse_sign_plain (s : str) :
  forallb digit_or_dot s = true -> parse_sign s = (false, s).
Proof.
  destruct s as [|c s]; simpl; [reflexivity|]. intros H.
  apply andb_true_iff in H. destruct H as [Hc _].
  apply digit_or_dot_facts in Hc.
  destruct Hc as (_ & _ & _ & -> & -> & _). reflexivity.
Qed.

Lemma parse_exponent_plain (s : str) :
  forallb digit_or_dot s = true -> parse_exponent s = (0, s).
Proof.
  destruct s as [|c s]; simpl; [reflexivity|]. intros H.
  apply andb_true_iff in H. destruct H as [Hc _].
  apply digit_or_dot_facts in Hc.
  destruct Hc as (_ & _ & _ & _ & _ & _ & _ & -> & -> & _). reflexivity.
Qed.

Lemma parse_inf_or_nan_plain (s : str) :
  forallb digit_or_dot s = true -> parse_inf_or_nan s = None.
Proof.
  intros H. unfold parse_inf_or_nan. rewrite (parse_sign_plain s H).
  destruct s as [|c s]; [reflexivity|].
  simpl in H. apply andb_true_iff in H. destruct H as [Hc _].
  apply digit_or_dot_facts in Hc.
  destruct Hc as (_ & _ & _ & _ & _ & Hi & Hn & _).
  cbn [strip_prefix_nocase list_ascii_of_string]. rewrite Hi, Hn.
  reflexivity.
Qed.

Lemma span_suffix_plain (p : ascii -> bool) (s : str) :
  forallb digit_or_dot s = true ->
  forallb digit_or_dot (snd (span p s)) = true
  /\ (List.length (fst (span p s)) + List.length (snd (span p s))
      = List.length s)%nat.
Proof.
  induction s as [|c s IH]; simpl; [auto|]. intros H.
  apply andb_true_iff in H. destruct H as [Hc Hs].
  destruct (p c).
  - destruct (span p s) as [w r]. simpl in *.
    destruct (IH Hs) as [Hr Hl]. split; [exact Hr | lia].
  - simpl. rewrite Hc, Hs. auto.
Qed.

(** What the scan of a run of digits and points gives. *)
Lemma strtod_plain (s : str) (x : spec_float) (rest : str) :
  forallb digit_or_dot s = true ->
  strtod s = Some (x, rest) ->
  sign_clear x
  /\ ((List.length s <= 308)%nat -> is_finite x = true).
Proof.
  intros Hs. unfold strtod. rewrite (parse_sign_plain s Hs).
  pose proof (span_spec is_ascii_digit s) as (_ & Hip & _).
  pose proof (span_suffix_plain is_ascii_digit s Hs) as [Hs2 Hl1].
  destruct (span is_ascii_digit s) as [ip s2]. simpl in Hip, Hs2, Hl1.
  assert (Hfp : exists fp s3,
             match s2 with
             | c :: t => if chr_eqb c "." then span is_ascii_digit t
                         else ([], s2)
             | [] => ([], s2)
             end = (fp, s3)
             /\ forallb is_ascii_digit fp = true
             /\ forallb digit_or_dot s3 = true
             /\ (List.length fp <= List.length s2)%nat).
  { destruct s2 as [|c t]; [exists [], []; auto|].
    destruct (chr_eqb c ".").
    - simpl in Hs2. apply andb_true_iff in Hs2. destruct Hs2 as [_ Ht].
      pose proof (span_spec is_ascii_digit t) as (_ & Hf & _).
      pose proof (span_suffix_plain is_ascii_digit t Ht) as [Ht3 Hl].
      destruct (span is_ascii_digit t) as [fp s3]. simpl in *.
      exists fp, s3. repeat split; auto. lia.
    - exists [], (c :: t). repeat split; auto. simpl. lia. }
  destruct Hfp as (fp & s3 & -> & Hf & Hs3 & Hl2).
  destruct (ip ++ fp) as [|c0 ds] eqn:E; [discriminate|].
  rewrite (parse_exponent_plain s3 Hs3).
  intros H; injection H; intros _ <-.
  assert (B : 0 <= Z_of_digits (c0 :: ds)
              < 10 ^ Z.of_nat (List.length (c0 :: ds))).
  { apply Z_of_digits_bound. rewrite <- E, forallb_app, Hip, Hf.
    reflexivity. }
  split.
  - apply binary64_of_decimal_sign_clear. lia.
  - intros Hlen. apply binary64_of_decimal_finite; [|lia].
    split; [lia|]. eapply Z.lt_le_trans; [apply B|].
    apply Z.pow_le_mono_r; [lia|].
    rewrite <- E, length_app. lia.
Qed.

(** Reading a height as the pattern captures it: [ValueError], or a
    number that is neither negative nor NaN, and finite when the text has
    at most 308 characters. *)
Lemma float_of_height (h : str) (x : spec_float) :
  is_height h = true -> float_of_str h = Ok x ->
  sign_clear x /\ ((List.length h <= 308)%nat -> is_finite x = true).
Proof.
  intros Hh. apply is_height_inv in Hh. destruct Hh as [_ Hh].
  unfold float_of_str.
  rewrite (ascii_transform_plain h Hh),
    (drop_underscores_plain h "000" eq_refl Hh), (strip_plain h Hh),
    (parse_inf_or_nan_plain h Hh).
  destruct (strtod h) as [[y [|c r]]|] eqn:E; try discriminate.
  intros H; injection H; intros <-.
  eapply strtod_plain; eauto.
Qed.

Lemma split_HHMM (a b d e : ascii) :
  Py_UNICODE_ISDECIMAL a = true -> Py_UNICODE_ISDECIMAL b = true ->
  Py_UNICODE_ISDECIMAL d = true -> Py_UNICODE_ISDECIMAL e = true ->
  split ":" [a; b; ":"%char; d; e] = [[a; b]; [d; e]].
Proof.
  intros Ha Hb Hd He.
  apply decimal_facts in Ha, Hb, Hd, He.
  destruct Ha as [Ha _], Hb as [Hb _], Hd as [Hd _], He as [He _].
  simpl. rewrite Ha, Hb, Hd, He. reflexivity.
Qed.

Variable london_tz : tzinfo.

(** Combining the date and the captured time gives a timestamp or
    [ValueError], nothing else. *)
Lemma combine_raises (date_tuple : Z * Z * Z) (t : str) (e : exn) :
  is_HHMM t = true ->
  combine london_tz date_tuple (Some t) = Raise e -> e = ValueError.
Proof.
  intros Ht. apply is_HHMM_inv in Ht.
  destruct Ht as (a & b & d & f & -> & Ha & Hb & Hd & Hf).
  unfold combine. destruct date_tuple as [[y m] dd].
  unfold datetime_new. destruct (valid_date y m dd);
    cbn [bind attr_of]; [|congruence].
  rewrite (split_HHMM a b d f Ha Hb Hd Hf).
  cbn [bind subscript nth_error].
  destruct (int_of_str [a; b]) as [hh|e1] eqn:E1; cbn [bind].
  2: { intros H; injection H; intros <-.
       eapply int_of_str_raises; eauto. }
  destruct (int_of_str [d; f]) as [mm|e2] eqn:E2; cbn [bind].
  2: { intros H; injection H; intros <-.
       eapply int_of_str_raises; eauto. }
  unfold replace_time. destruct (valid_time hh mm); cbn [bind]; congruence.
Qed.

(** The body of the [try]: a record built from successful conversions,
    or [ValueError]. *)
Lemma line_record_cases (date_tuple : Z * Z * Z) (line : str)
      (m : match_object) :
  re_search TIDE_RE line = Some m ->
  line_record london_tz date_tuple m = Raise ValueError
  \/ exists t ty h x iso y,
       group 1 (mo_captures m) = Some t /\ is_HHMM t = true
       /\ group 3 (mo_captures m) = Some (h ++ $"m") /\ is_height h = true
       /\ group 2 (mo_captures m) = Some ty
       /\ (ty = $"High" \/ ty = $"Low")
       /\ float_of_str h = Ok x
       /\ combine london_tz date_tuple (Some t) = Ok iso
       /\ round2 x = Ok y
       /\ line_record london_tz date_tuple m = Ok (Tide iso (Some ty) y).
Proof.
  intros Hm. apply TIDE_RE_search_groups in Hm.
  destruct Hm as (t & ty & h & G1 & G2 & G3 & Ht & Hty & Hh).
  unfold line_record. rewrite G1, G2, G3. cbn [bind attr_of].
  pose proof (is_height_inv h Hh) as [_ Hh'].
  rewrite (remove_unit h Hh').
  destruct (float_of_str h) as [x|e] eqn:Ef; cbn [bind].
  2: { left. f_equal. eapply float_of_str_raises; eauto. }
  destruct (combine london_tz date_tuple (Some t)) as [iso|e] eqn:Ec;
    cbn [bind].
  2: { left. f_equal. eapply combine_raises; eauto. }
  destruct (round2_total x (float_of_str_valid h x Ef)) as (y & Er & _).
  rewrite Er. cbn [bind]. right.
  exists t, ty, h, x, iso, y. auto 14.
Qed.

(** One line either leaves the batch as it is or appends one record,
    and never raises. *)
Lemma process_line_cases (date_tuple : Z * Z * Z) (raw : str)
      (records : list tide) :
  (re_search TIDE_RE (strip raw) = None
   /\ process_line london_tz date_tuple raw records = ([], Ok records))
  \/ (exists m,
        re_search TIDE_RE (strip raw) = Some m
        /\ line_record london_tz date_tuple m = Raise ValueError
        /\ process_line london_tz date_tuple raw records
           = ([Print (Error_processing_line (strip raw) ValueError)],
              Ok records))
  \/ (exists m r,
        re_search TIDE_RE (strip raw) = Some m
        /\ line_record london_tz date_tuple m = Ok r
        /\ process_line london_tz date_tuple raw records
           = ([], Ok (records ++ [r]))).
Proof.
  unfold process_line.
  destruct (re_search TIDE_RE (strip raw)) as [m|] eqn:E; [|left; auto].
  right.
  destruct (line_record_cases date_tuple (strip raw) m E)
    as [R | (t & ty & h & x & iso & y & _ & _ & _ & _ & _ & _ & _ & _ & _ & R)];
    rewrite R.
  - left. exists m. auto.
  - right. exists m, (Tide iso (Some ty) y). auto.
Qed.

End FeedLine.

(** ** Deduplication *)

Section Dedup.

Import Feed.

Lemma dict_set_keys (k : str) (v : tide) (d : list (str * tide)) (k' : str) :
  In k' (map fst (dict_set k v d)) <-> k' = k \/ In k' (map fst d).
Proof.
  induction d as [|[k0 v0] d IH]; simpl.
  - intuition.
  - destruct (str_eqb k k0) eqn:E; simpl.
    + apply str_eqb_eq in E. subst k0. intuition.
    + rewrite IH. intuition.
Qed.

Lemma dict_set_NoDup (k : str) (v : tide) (d : list (str * tide)) :
  NoDup (map fst d) -> NoDup (map fst (dict_set k v d)).
Proof.
  induction d as [|[k0 v0] d IH]; simpl; intros H.
  - constructor; [intros [] | constructor].
  - inversion H as [|x l Hx Hl]; subst.
    destruct (str_eqb k k0) eqn:E; simpl.
    + apply str_eqb_eq in E. subst k0. constructor; assumption.
    + constructor; [|apply IH; assumption].
      rewrite dict_set_keys. intros [-> | C]; [|contradiction].
      rewrite str_eqb_refl in E. discriminate.
Qed.

(** Setting a key replaces what the key held and leaves the other keys
    alone. *)
Lemma dict_set_In (k : str) (v : tide) (d : list (str * tide))
      (k' : str) (v' : tide) :
  NoDup (map fst d) ->
  (In (k', v') (dict_set k v d)
   <-> (k' = k /\ v' = v) \/ (k' <> k /\ In (k', v') d)).
Proof.
  induction d as [|[k0 v0] d IH]; simpl; intros H.
  - split.
    + intros [E | []]. injection E; auto.
    + intros [[-> ->] | [_ []]]. auto.
  - inversion H as [|x l Hx Hl]; subst.
    destruct (str_eqb k k0) eqn:E; simpl.
    + apply str_eqb_eq in E. subst k0. split.
      * intros [E | Hin]; [injection E; auto|].
        right. split; [|auto]. intros ->. apply Hx.
        change k with (fst (k, v')). apply in_map. exact Hin.
      * intros [[-> ->] | [Hne [E | Hin]]]; auto.
        injection E; intros. congruence.
    + apply str_eqb_neq in E. rewrite (IH Hl). split.
      * intros [E' | [[-> ->] | [Hne Hin]]]; auto.
        injection E'; intros -> ->. auto.
      * intros [[-> ->] | [Hne [E' | Hin]]]; auto.
Qed.

Lemma dict_of_records_snoc (rs : list tide) (r : tide) :
  dict_of_records (rs ++ [r])
  = dict_set (tide_time r) r (dict_of_records rs).
Proof. unfold dict_of_records. rewrite fold_left_app. reflexivity. Qed.

Lemma last_with_snoc (t : str) (rs : list tide) (r : tide) :
  last_with t (rs ++ [r])
  = if str_eqb (tide_time r) t then Some r else last_with t rs.
Proof. unfold last_with. rewrite rev_app_distr. reflexivity. Qed.

Lemma last_with_key (t : str) (rs : list tide) (r : tide) :
  last_with t rs = Some r -> tide_time r = t /\ In r rs.
Proof.
  unfold last_with. intros H. apply find_some in H. destruct H as [Hin E].
  apply str_eqb_eq in E. apply in_rev in Hin. auto.
Qed.

Lemma last_with_found (t : str) (rs : list tide) :
  In t (map tide_time rs) -> exists r, last_with t rs = Some r.
Proof.
  intros H. apply in_map_iff in H. destruct H as (r0 & E & Hin).
  unfold last_with.
  destruct (find (fun r => str_eqb (tide_time r) t) (rev rs)) as [r|] eqn:F;
    [eauto|].
  exfalso. apply in_rev in Hin.
  pose proof (find_none _ _ F r0 Hin) as C. simpl in C.
  rewrite E, str_eqb_refl in C. discriminate.
Qed.

(** The dictionary built from a batch holds, under each timestamp of the
    batch, the last record that bears it, and nothing else. *)
Lemma dict_of_records_spec (rs : list tide) :
  NoDup (map fst (dict_of_records rs))
  /\ forall k v, In (k, v) (dict_of_records rs) <-> last_with k rs = Some v.
Proof.
  induction rs as [|r rs [IH1 IH2]] using rev_ind.
  - split; [constructor|]. intros k v. simpl. split; [intros [] | discriminate].
  - rewrite dict_of_records_snoc. split; [apply dict_set_NoDup; exact IH1|].
    intros k v. rewrite (dict_set_In _ _ _ _ _ IH1), last_with_snoc, IH2.
    destruct (str_eqb (tide_time r) k) eqn:E.
    + apply str_eqb_eq in E. subst k. split.
      * intros [[_ ->] | [C _]]; [reflexivity | congruence].
      * intros H; injection H; intros <-. auto.
    + apply str_eqb_neq in E. split.
      * intros [[-> _] | [_ H]]; [congruence | exact H].
      * intros H. right. split; [congruence | exact H].
Qed.

Lemma deduplicate_In (rs : list tide) (r : tide) :
  In r (deduplicate rs) <-> last_with (tide_time r) rs = Some r.
Proof.
  destruct (dict_of_records_spec rs) as [_ S].
  unfold deduplicate, dict_values. rewrite in_map_iff. split.
  - intros ([k v] & E & Hin). simpl in E. subst v.
    apply S in Hin. destruct (last_with_key _ _ _ Hin) as [-> _]. exact Hin.
  - intros H. exists (tide_time r, r). split; [reflexivity|].
    apply S. exact H.
Qed.

Lemma deduplicate_times (rs : list tide) :
  map tide_time (deduplicate rs) = map fst (dict_of_records rs).
Proof.
  destruct (dict_of_records_spec rs) as [_ S].
  unfold deduplicate, dict_values. rewrite map_map.
  apply map_ext_in. intros [k v] Hin. simpl.
  apply S in Hin. apply last_with_key in Hin. tauto.
Qed.

Lemma deduplicate_NoDup (rs : list tide) :
  NoDup (map tide_time (deduplicate rs)).
Proof. rewrite deduplicate_times. apply dict_of_records_spec. Qed.

End Dedup.

(** ** Sorting *)

Section Sorting.

Import Feed.

Lemma not_after_trans (a b c : tide) :
  not_after a b -> not_after b c -> not_after a c.
Proof.
  unfold not_after. intros Hab Hbc.
  destruct (str_ltb (tide_time c) (tide_time a)) eqn:Hca; [|reflexivity].
  destruct (str_ltb (tide_time a) (tide_time b)) eqn:Hab'.
  - rewrite (str_ltb_trans _ _ _ Hca Hab') in Hbc. discriminate.
  - rewrite (str_ltb_total _ _ Hab' Hab) in Hca. congruence.
Qed.

Lemma insert_by_time_perm (r : tide) (l : list tide) :
  Permutation (insert_by_time r l) (r :: l).
Proof.
  induction l as [|r' l IH]; simpl; [reflexivity|].
  destruct (str_ltb (tide_time r') (tide_time r)); [|reflexivity].
  rewrite IH. apply perm_swap.
Qed.

Lemma sort_by_time_perm (l : list tide) : Permutation (sort_by_time l) l.
Proof.
  induction l as [|r l IH]; simpl; [reflexivity|].
  rewrite insert_by_time_perm. constructor. exact IH.
Qed.

Lemma insert_by_time_sorted (r : tide) (l : list tide) :
  StronglySorted not_after l -> StronglySorted not_after (insert_by_time r l).
Proof.
  induction l as [|r' l IH]; simpl; intros H.
  - repeat constructor.
  - inversion H as [|x l' Hl Hf]; subst.
    destruct (str_ltb (tide_time r') (tide_time r)) eqn:E.
    + constructor; [apply IH; exact Hl|].
      eapply Permutation_Forall;
        [symmetry; apply insert_by_time_perm|].
      constructor; [|exact Hf].
      unfold not_after. apply str_ltb_asym. exact E.
    + constructor; [exact H|]. constructor; [exact E|].
      eapply Forall_impl; [|exact Hf].
      intros x Hx. apply (not_after_trans r r' x); assumption.
Qed.

Lemma sort_by_time_sorted (l : list tide) :
  StronglySorted not_after (sort_by_time l).
Proof.
  induction l as [|r l IH]; simpl; [constructor|].
  apply insert_by_time_sorted. exact IH.
Qed.

(** Sorted without repeated timestamps is strictly ascending. *)
Lemma sorted_strict (l : list tide) :
  StronglySorted not_after l -> NoDup (map tide_time l) ->
  StronglySorted str_lt (map tide_time l).
Proof.
  induction l as [|r l IH]; simpl; intros Hs Hn; [constructor|].
  inversion Hs as [|x l' Hl Hf]; subst.
  inversion Hn as [|x l' Hx Hn']; subst.
  constructor; [apply IH; assumption|].
  apply Forall_forall. intros t Ht. apply in_map_iff in Ht.
  destruct Ht as (r' & <- & Hin).
  rewrite Forall_forall in Hf. specialize (Hf r' Hin). unfold not_after in Hf.
  unfold str_lt.
  destruct (str_ltb (tide_time r) (tide_time r')) eqn:E; [reflexivity|].
  exfalso. apply Hx. rewrite (str_ltb_total _ _ E Hf).
  apply in_map. exact Hin.
Qed.

Lemma unique_records_perm (rs : list tide) :
  Permutation (unique_records rs) (deduplicate rs).
Proof. apply sort_by_time_perm. Qed.

Lemma unique_records_NoDup (rs : list tide) :
  NoDup (map tide_time (unique_records rs)).
Proof.
  eapply Permutation_NoDup; [|apply deduplicate_NoDup].
  apply Permutation_map. symmetry. apply unique_records_perm.
Qed.

Lemma unique_records_sorted (rs : list tide) :
  StronglySorted str_lt (map tide_time (unique_records rs)).
Proof.
  apply sorted_strict; [apply sort_by_time_sorted | apply unique_records_NoDup].
Qed.

Lemma unique_records_In (rs : list tide) (r : tide) :
  In r (unique_records rs) <-> last_with (tide_time r) rs = Some r.
Proof.
  rewrite <- deduplicate_In. split; apply Permutation_in;
    [|symmetry]; apply unique_records_perm.
Qed.

End Sorting.

(** ** Loops over the members of a list *)

Section LoopsIn.

Context {X S : Type}.

Lemma only_prints_app (o1 o2 : list event) :
  only_prints o1 -> only_prints o2 -> only_prints (o1 ++ o2).
Proof. unfold only_prints. intros. apply Forall_app; auto. Qed.

Lemma only_prints_nil : only_prints [].
Proof. constructor. Qed.

Lemma only_prints_one (m : message) : only_prints [Print m].
Proof. constructor; [eauto | constructor]. Qed.

Lemma only_prints_no_upsert (out : list event) :
  only_prints out -> no_upsert out.
Proof.
  unfold only_prints, no_upsert. intros H t rs c Hin.
  rewrite Forall_forall in H. destruct (H _ Hin) as [m E]. discriminate.
Qed.

(** A body that never raises, only prints and keeps [P] on the members
    of the list makes a loop that does the same. *)
Lemma for_each_total_in (P : S -> Prop) (body : X -> S -> io S)
      (xs : list X) :
  (forall x st, In x xs -> P st ->
     exists out st', body x st = (out, Ok st') /\ only_prints out /\ P st') ->
  forall st, P st ->
    exists out st',
      for_each xs st body = (out, Ok st') /\ only_prints out /\ P st'.
Proof.
  induction xs as [|x xs IH]; intros Hbody st Hst; simpl.
  - exists [], st. auto using only_prints_nil.
  - destruct (Hbody x st (or_introl eq_refl) Hst)
      as (out1 & st1 & E1 & O1 & H1).
    destruct (IH (fun y s Hy => Hbody y s (or_intror Hy)) st1 H1)
      as (out2 & st2 & E2 & O2 & H2).
    rewrite E1. simpl. rewrite E2.
    exists (out1 ++ out2), st2. auto using only_prints_app.
Qed.

(** When the loop returns, it has kept what every returning run of the
    body on a member of the list keeps. *)
Lemma for_each_returns_in (P : S -> Prop) (body : X -> S -> io S)
      (xs : list X) :
  (forall x st out st',
     In x xs -> P st -> body x st = (out, Ok st') -> P st') ->
  forall st out st',
    P st -> for_each xs st body = (out, Ok st') -> P st'.
Proof.
  induction xs as [|x xs IH]; intros Hbody st out st' Hst; simpl.
  - unfold io_ret. intros E; injection E; intros <- _. exact Hst.
  - destruct (body x st) as [out1 [st1|e]] eqn:E1; simpl; [|discriminate].
    destruct (for_each xs st1 body) as [out2 r2] eqn:E2.
    intros E; injection E; intros -> _.
    eapply (IH (fun y s o s' Hy => Hbody y s o s' (or_intror Hy)));
      [|exact E2].
    eapply Hbody; eauto. left; reflexivity.
Qed.

(** A loop whose body only prints only prints, however it ends. *)
Lemma for_each_only_prints (body : X -> S -> io S) :
  (forall x st, only_prints (fst (body x st))) ->
  forall xs st, only_prints (fst (for_each xs st body)).
Proof.
  intros Hbody xs. induction xs as [|x xs IH]; intros st; simpl.
  - apply only_prints_nil.
  - pose proof (Hbody x st) as H1.
    destruct (body x st) as [out1 [st1|e]]; simpl in *; [|exact H1].
    pose proof (IH st1) as H2.
    destruct (for_each xs st1 body) as [out2 r2]. simpl in *.
    apply only_prints_app; assumption.
Qed.

End LoopsIn.

(** ** The feed pipeline as a whole *)

Section FeedPipeline.

Import Feed.

Variable london_tz : tzinfo.

(** What a line that yields a record yields. *)
Lemma line_record_ok (date_tuple : Z * Z * Z) (raw : str)
      (m : match_object) (r : tide) :
  re_search TIDE_RE (strip raw) = Some m ->
  line_record london_tz date_tuple m = Ok r ->
  nonnegative (height_m r)
  /\ (is_finite (height_m r) = true -> two_decimals (height_m r))
  /\ is_High_or_Low (tide_type r)
  /\ exists h,
       from_feed_line london_tz date_tuple raw h r
       /\ ((List.length h <= 308)%nat -> is_finite (height_m r) = true).
Proof.
  intros Hm Hr.
  destruct (line_record_cases london_tz date_tuple (strip raw) m Hm)
    as [R | (t & ty & h & x & iso & y
             & G1 & Ht & G3 & Hh & G2 & Hty & Ef & Ec & Er & R)];
    [congruence|].
  rewrite R in Hr. injection Hr; intros <-. simpl.
  destruct (float_of_height h x Hh Ef) as [Sx Fx].
  destruct (round2_total x (float_of_str_valid h x Ef))
    as (y' & Er' & _ & Sy & Fy & Ny).
  rewrite Er in Er'. injection Er'; intros <-.
  split; [apply sign_clear_nonnegative; auto|].
  split.
  { intros Hy. destruct (is_finite x) eqn:Efin; [apply Fy; reflexivity|].
    rewrite (Ny eq_refl), Efin in Hy. discriminate. }
  split.
  { unfold is_High_or_Low. destruct Hty as [-> | ->]; auto. }
  exists h. split.
  - exists m, t. simpl. repeat split; auto.
    exists x. auto.
  - intros Hl. apply Fy. apply Fx. exact Hl.
Qed.

Variable entries : list entry.

Lemma process_line_total (e : entry) (date_tuple : Z * Z * Z) (raw : str)
      (records : list tide) :
  In e entries -> published_parsed e = Some (Some date_tuple) ->
  In raw (entry_lines e) ->
  Forall (feed_record london_tz entries) records ->
  exists out records',
    process_line london_tz date_tuple raw records = (out, Ok records')
    /\ only_prints out
    /\ Forall (feed_record london_tz entries) records'.
Proof.
  intros He Hd Hraw Hrs.
  destruct (process_line_cases london_tz date_tuple raw records)
    as [[_ E] | [(m & _ & _ & E) | (m & r & Hm & Hr & E)]]; rewrite E.
  - exists [], records. auto using only_prints_nil.
  - eexists _, records. auto using only_prints_one.
  - exists [], (records ++ [r]).
    split; [reflexivity|]. split; [apply only_prints_nil|].
    apply Forall_app. split; [exact Hrs|]. constructor; [|constructor].
    destruct (line_record_ok date_tuple raw m r Hm Hr)
      as (N & T & HL & h & F & Fin).
    unfold feed_record. repeat split; auto.
    exists e, date_tuple, raw, h. auto.
Qed.

(** An entry that has the key [published_parsed] is processed without
    raising. *)
Lemma process_entry_total (e : entry) (records : list tide) :
  In e entries -> has_published_parsed e ->
  Forall (feed_record london_tz entries) records ->
  exists out records',
    process_entry london_tz e records = (out, Ok records')
    /\ only_prints out
    /\ Forall (feed_record london_tz entries) records'.
Proof.
  intros He Hk Hrs. unfold process_entry, has_published_parsed in *.
  destruct (published_parsed e) as [[date_tuple|]|] eqn:Hd; [| |congruence].
  - destruct (for_each_total_in
                (Forall (feed_record london_tz entries))
                (process_line london_tz date_tuple) (entry_lines e)
                (fun raw st Hraw Hst =>
                   process_line_total e date_tuple raw st He Hd Hraw Hst)
                records Hrs) as (out & records' & E & O & F).
    exists out, records'. simpl. rewrite E. auto.
  - eexists _, records. split; [reflexivity|].
    split; [apply only_prints_one | exact Hrs].
Qed.

(** An entry without the key makes the attribute access raise. *)
Lemma process_entry_no_key (e : entry) (records : list tide) :
  published_parsed e = None ->
  process_entry london_tz e records = ([], Raise AttributeError).
Proof. intros H. unfold process_entry. rewrite H. reflexivity. Qed.

Lemma process_entry_returns (e : entry) (records records' : list tide)
      (out : list event) :
  In e entries ->
  Forall (feed_record london_tz entries) records ->
  process_entry london_tz e records = (out, Ok records') ->
  Forall (feed_record london_tz entries) records'.
Proof.
  intros He Hrs E.
  destruct (published_parsed e) as [d|] eqn:Hd.
  - destruct (process_entry_total e records He) as (o & r' & E' & _ & F);
      [unfold has_published_parsed; congruence | exact Hrs |].
    rewrite E in E'. injection E'; intros -> _. exact F.
  - rewrite (process_entry_no_key e records Hd) in E. discriminate.
Qed.

Lemma process_line_only_prints (date_tuple : Z * Z * Z) (raw : str)
      (records : list tide) :
  only_prints (fst (process_line london_tz date_tuple raw records)).
Proof.
  destruct (process_line_cases london_tz date_tuple raw records)
    as [[_ E] | [(m & _ & _ & E) | (m & r & _ & _ & E)]]; rewrite E;
    simpl; auto using only_prints_nil, only_prints_one.
Qed.

Lemma process_entry_only_prints (e : entry) (records : list tide) :
  only_prints (fst (process_entry london_tz e records)).
Proof.
  unfold process_entry.
  destruct (published_parsed e) as [[date_tuple|]|]; simpl.
  - pose proof (for_each_only_prints
                  (process_line london_tz date_tuple)
                  (process_line_only_prints date_tuple)
                  (entry_lines e) records) as H.
    destruct (for_each (entry_lines e) records
                       (process_line london_tz date_tuple)) as [o r].
    exact H.
  - apply only_prints_one.
  - apply only_prints_nil.
Qed.

End FeedPipeline.

Section FeedRun.

Import Feed.

Lemma parse_tide_feed_only_prints (entries : list entry) :
  only_prints (fst (parse_tide_feed entries)).
Proof.
  unfold parse_tide_feed. destruct entries as [|e0 es] eqn:E.
  - repeat constructor; eauto.
  - rewrite <- E.
    pose proof (for_each_only_prints
                  (process_entry Europe_London)
                  (process_entry_only_prints Europe_London) entries []) as H.
    destruct (for_each entries [] (process_entry Europe_London))
      as [out [records|e]]; simpl in *.
    + constructor; [eauto|]. rewrite app_nil_r. exact H.
    + constructor; [eauto | exact H].
Qed.

(** Each record of a batch that [parse_tide_feed] returns satisfies
    [feed_record], and the batch is strictly ascending. *)
Lemma parse_tide_feed_returns (entries : list entry) (out : list event)
      (records : list tide) :
  parse_tide_feed entries = (out, Ok records) ->
  Forall (feed_record Europe_London entries) records
  /\ StronglySorted str_lt (map tide_time records).
Proof.
  unfold parse_tide_feed. destruct entries as [|e0 es] eqn:E.
  - simpl. intros H; inversion H. split; constructor.
  - rewrite <- E.
    destruct (for_each entries [] (process_entry Europe_London))
      as [out1 [raw_records|e]] eqn:Ef; simpl; [|discriminate].
    intros H; inversion H; subst out records.
    split; [|apply unique_records_sorted].
    assert (F : Forall (feed_record Europe_London entries) raw_records).
    { eapply (for_each_returns_in
                (Forall (feed_record Europe_London entries))
                (process_entry Europe_London) entries);
        [|constructor|exact Ef].
      intros x st o st' Hx Hst Hb.
      eapply process_entry_returns; eauto. }
    apply Forall_forall. intros r Hr.
    apply unique_records_In in Hr. apply last_with_key in Hr.
    rewrite Forall_forall in F. apply F. tauto.
Qed.

(** [parse_tide_feed] returns for every feed whose entries all have the
    key [published_parsed]. *)
Lemma parse_tide_feed_total (entries : list entry) :
  Forall has_published_parsed entries ->
  exists out records, parse_tide_feed entries = (out, Ok records).
Proof.
  intros Hk. unfold parse_tide_feed. destruct entries as [|e0 es] eqn:E.
  - eexists _, []. reflexivity.
  - rewrite <- E in *.
    destruct (for_each_total_in
                (Forall (feed_record Europe_London entries))
                (process_entry Europe_London) entries) with (st := @nil tide)
      as (out & records & Ef & _); [|constructor|].
    + intros x st Hx Hst.
      apply process_entry_total; [exact Hx | | exact Hst].
      rewrite Forall_forall in Hk. apply Hk. exact Hx.
    + rewrite Ef. eexists _, _. reflexivity.
Qed.

End FeedRun.

(** ** The day-page pipeline as a whole *)

Section WeekPipeline.

Import Week.

Lemma process_row_records (date_obj : date) (tz : tzinfo) (rw : row)
      (st st' : locals) (out : list event) :
  process_row date_obj tz rw st = (out, Ok st') ->
  daily_records st' = daily_records st
  \/ exists r, daily_records st' = daily_records st ++ [r]
               /\ from_row date_obj tz rw r.
Proof.
  assert (Same : forall s, @io_ret locals s = (out, Ok st') ->
                           daily_records st' = daily_records s).
  { unfold io_ret. intros s H. inversion H. reflexivity. }
  assert (Handler : forall e s,
             (if caught_by [ValueError] e
              then fds <~ load (full_datetime_str s) ;;
                   print (Skipping_record fds e) ;;; io_ret s
              else io_raise e) = (out, Ok st') ->
             daily_records st' = daily_records s).
  { intros e s. destruct (caught_by [ValueError] e); [|discriminate].
    destruct (full_datetime_str s); simpl; intros H; inversion H.
    reflexivity. }
  unfold process_row.
  destruct (tal rw) as [type_text|] eqn:E1;
    [|intros H; left; exact (Same _ H)].
  destruct (tac rw) as [[span_text|]|] eqn:E2;
    try (destruct (tar rw); intros H; left; exact (Same _ H)).
  destruct (tar rw) as [height_text|] eqn:E3;
    [|intros H; left; exact (Same _ H)].
  unfold row_try.
  destruct (float_of_str (remove_char "m" (strip height_text)))
    as [x|e] eqn:Ef; cbn [bind];
    [|intros H; left; exact (Handler _ _ H)].
  destruct (round2 x) as [y|e] eqn:Er;
    [|intros H; left; exact (Handler _ _ H)].
  destruct (combine date_obj tz (strip span_text)) as [fds iso] eqn:Ec.
  destruct iso as [tide_iso_time|e].
  - intros H. apply Same in H. right. simpl in H.
    eexists. split; [exact H|].
    exists type_text, span_text, height_text.
    split; [exact E1|]. split; [exact E2|]. split; [exact E3|].
    split; [exists x; auto|]. rewrite Ec. split; reflexivity.
  - intros H. apply Handler in H. left. exact H.
Qed.

Lemma process_row_only_prints (date_obj : date) (tz : tzinfo) (rw : row)
      (st : locals) :
  only_prints (fst (process_row date_obj tz rw st)).
Proof.
  unfold process_row.
  destruct (tal rw); [|apply only_prints_nil].
  destruct (tac rw) as [[span_text|]|];
    try (destruct (tar rw); apply only_prints_nil).
  destruct (tar rw) as [height_text|]; [|apply only_prints_nil].
  destruct (row_try date_obj tz (strip s) (strip span_text) height_text st)
    as [st' [u|e]]; [apply only_prints_nil|].
  destruct (caught_by [ValueError] e); [|apply only_prints_nil].
  destruct (full_datetime_str st'); simpl;
    [apply only_prints_one | apply only_prints_nil].
Qed.

Variable http_get : str -> response.

Lemma io_bind_only_prints {A B : Type} (c : io A) (f : A -> io B) :
  only_prints (fst c) -> (forall a, only_prints (fst (f a))) ->
  only_prints (fst (io_bind c f)).
Proof.
  destruct c as [out [a|e]]; simpl; intros Hc Hf; [|exact Hc].
  specialize (Hf a). destruct (f a) as [out' r]. simpl in *.
  apply only_prints_app; assumption.
Qed.

Lemma scrape_single_day_only_prints (date_obj : date) (tz : tzinfo) :
  only_prints (fst (scrape_single_day http_get date_obj tz)).
Proof.
  unfold scrape_single_day.
  apply io_bind_only_prints; [apply only_prints_one|]. intros _.
  destruct (http_get _) as [|[[rows|]|]].
  - apply io_bind_only_prints; [apply only_prints_one|].
    intros _. apply only_prints_nil.
  - apply io_bind_only_prints; [apply only_prints_nil|]. intros data_table.
    apply io_bind_only_prints; [|intros; apply only_prints_nil].
    apply for_each_only_prints. intros. apply process_row_only_prints.
  - apply only_prints_nil.
  - apply io_bind_only_prints; [apply only_prints_one|].
    intros _. apply only_prints_nil.
Qed.

Lemma collect_days_only_prints (today : date) (tz : tzinfo) :
  only_prints (fst (collect_days http_get today tz)).
Proof.
  unfold collect_days. apply for_each_only_prints. intros i acc.
  apply io_bind_only_prints; [apply scrape_single_day_only_prints|].
  intros. apply only_prints_nil.
Qed.

(** Every record of a day's batch was built from a row of that day's
    table. *)
Lemma scrape_single_day_records (date_obj : date) (tz : tzinfo)
      (out : list event) (records : list tide) :
  scrape_single_day http_get date_obj tz = (out, Ok records) ->
  Forall (fun r => exists rw,
              In rw (rows_of (http_get (day_url date_obj)))
              /\ from_row date_obj tz rw r) records.
Proof.
  unfold scrape_single_day. fold (day_url date_obj).
  destruct (http_get (day_url date_obj)) as [|[[rows|]|]]; simpl.
  - intros H; inversion H. constructor.
  - set (Q := fun r => exists rw, In rw rows /\ from_row date_obj tz rw r).
    match goal with
    | |- context [for_each ?l ?s ?b] =>
        destruct (for_each l s b) as [out1 [st|e]] eqn:E
    end; simpl; [|discriminate].
    intros H; inversion H; subst.
    apply (for_each_returns_in
             (fun s => Forall Q (daily_records s))
             (process_row date_obj tz) _) in E; [exact E | | constructor].
    intros rw s o s' Hin Hs Hrow.
    apply filter_In in Hin. destruct Hin as [Hin _].
    destruct (process_row_records date_obj tz rw s s' o Hrow)
      as [E' | (r & E' & Hr)]; rewrite E'; [exact Hs|].
    apply Forall_app. split; [exact Hs|].
    constructor; [|constructor]. exists rw. auto.
  - discriminate.
  - intros H; inversion H. constructor.
Qed.

End WeekPipeline.

(** ** The properties of the two pipelines *)

Import Samples.

(** *** Malformed heights *)

(** In the feed pipeline a line whose captured height does not read as a
    number is reported and dropped, and the batch is left as it was. *)
Lemma feed_bad_height_reported_and_dropped
      (tz : tzinfo) (date_tuple : Z * Z * Z) (raw h : str)
      (m : match_object) (records : list tide) :
  re_search Feed.TIDE_RE (strip raw) = Some m ->
  group 3 (mo_captures m) = Some (h ++ $"m") ->
  float_of_str h = Raise ValueError ->
  Feed.process_line tz date_tuple raw records
  = ([Print (Error_processing_line (strip raw) ValueError)], Ok records).
Proof.
  intros Hm G3 Ef.
  destruct (process_line_cases tz date_tuple raw records)
    as [[C _] | [(m' & Hm' & _ & E) | (m' & r & Hm' & Hr & _)]].
  - congruence.
  - exact E.
  - exfalso. rewrite Hm in Hm'. injection Hm'; intros <-.
    destruct (line_record_cases tz date_tuple (strip raw) m Hm)
      as [R | (t & ty & h' & x & iso & y
               & _ & _ & G3' & _ & _ & _ & Ef' & _)]; [congruence|].
    rewrite G3 in G3'. injection G3'; intros E.
    apply app_inv_tail in E. subst h'. congruence.
Qed.

(** In the day-page pipeline a first row whose height cell does not read
    as a number makes [scrape_single_day] raise [UnboundLocalError],
    whatever rows follow. *)
Lemma first_row_bad_height_raises
      (http_get : str -> Week.response) (date_obj : date) (tz : tzinfo)
      (type_text span_text height_text : str) (rest : list Week.row) :
  http_get (day_url date_obj)
  = Week.Page (Some (Some (Week.Row [] (Some type_text)
                                    (Some (Some span_text))
                                    (Some height_text) :: rest))) ->
  float_of_str (remove_char "m" (strip height_text)) = Raise ValueError ->
  Week.scrape_single_day http_get date_obj tz
  = ([Print (Fetching_day (strftime_compact date_obj))],
     Raise UnboundLocalError).
Proof.
  intros Hpage Hf. unfold Week.scrape_single_day.
  fold (day_url date_obj). rewrite Hpage.
  cbn [lift attr_of io_bind filter Week.has_class Week.row_class existsb
       negb for_each].
  unfold Week.process_row.
  cbn [Week.tal Week.tac Week.tar]. unfold Week.row_try.
  rewrite Hf. reflexivity.
Qed.

(** C1 (the day-page half fails).  A row whose height cell holds no
    number, met before any row of the same page has been read in full,
    makes [float] raise before [full_datetime_str] is assigned; the
    handler then reads that unbound local, and [UnboundLocalError] leaves
    [scrape_single_day] and [run_weekly_scraper]: the rows after it are
    not read and nothing is stored.  The same row met after a good row is
    reported (with the date and time of the good row) and dropped. *)
Theorem scrape_single_day_unbound_on_first_bad_height :
  Week.scrape_single_day (serving [row_no_height; row_high])
                         day_2024_06_01 Europe_London
  = ([Print (Fetching_day $"20240601")], Raise UnboundLocalError)
  /\ (forall supabase,
        Week.run_weekly_scraper (serving [row_no_height; row_high]) supabase
                                day_2024_06_01
        = ([Print (Fetching_day $"20240601")], Raise UnboundLocalError))
  /\ Week.scrape_single_day (serving [row_high; row_no_height; row_low])
                            day_2024_06_01 Europe_London
     = ([Print (Fetching_day $"20240601");
         Print (Skipping_record $"2024-06-01 06:15" ValueError)],
        Ok [Tide $"2024-06-01T06:15:00+01:00" (Some $"High")
                 (S754_finite false 8354177308772270 (-50));
            Tide $"2024-06-01T12:30:00+01:00" (Some $"Low")
                 (S754_finite false 4953959590107546 (-52))]).
Proof.
  split; [vm_compute; reflexivity|].
  split; [intros supabase; vm_compute; reflexivity|].
  vm_compute; reflexivity.
Qed.

(** *** Heights *)

(** C2 as stated fails: the day-page pipeline hands on a height below
    zero when the cell holds one, and the feed pipeline hands on an
    infinite height when the digits exceed the binary64 range. *)
Lemma height_may_be_negative_or_infinite :
  (exists out records r,
      Week.scrape_single_day (serving [row_negative]) day_2024_06_01
                             Europe_London = (out, Ok records)
      /\ In r records
      /\ float_lt (height_m r) (S754_zero false) = true)
  /\ (exists out records r,
        Feed.parse_tide_feed [entry_of line_huge] = (out, Ok records)
        /\ In r records
        /\ is_finite (height_m r) = false).
Proof.
  split.
  - exists [Print (Fetching_day $"20240601")],
      [Tide $"2024-06-01T12:30:00+01:00" (Some $"Low")
            (S754_finite true 6755399441055744 (-52))],
      (Tide $"2024-06-01T12:30:00+01:00" (Some $"Low")
            (S754_finite true 6755399441055744 (-52))).
    split; [vm_compute; reflexivity|].
    split; [left; reflexivity | reflexivity].
  - exists [Print (Fetching_feed Feed.TIDE_FEED_URL)],
      [Tide $"2024-06-01T06:15:00+01:00" (Some $"High") (S754_infinity false)],
      (Tide $"2024-06-01T06:15:00+01:00" (Some $"High") (S754_infinity false)).
    split; [vm_compute; reflexivity|].
    split; [left; reflexivity | reflexivity].
Qed.

(** C2, amended.  Every record of the feed pipeline has a height that is
    neither negative nor NaN, that has two decimals when it is finite, and
    that is [round(float(h), 2)] for the height text [h] of the line it was
    built from, its time being that line's time combined with the entry's
    date; it is finite when [h] has at most 308 characters.  Every record
    of the day-page pipeline has the height [round(float(text), 2)] of the
    height cell of the row it was built from, whatever its sign, and the
    time of that row's span combined with the date.  A line or row whose
    height or time does not convert therefore yields no record. *)
Theorem heights_parsed_never_defaulted :
  (forall entries out records,
      Feed.parse_tide_feed entries = (out, Ok records) ->
      Forall (fun r =>
           nonnegative (height_m r)
           /\ (is_finite (height_m r) = true -> two_decimals (height_m r))
           /\ exists e date_tuple raw h,
                In e entries
                /\ Feed.published_parsed e = Some (Some date_tuple)
                /\ In raw (Feed.entry_lines e)
                /\ from_feed_line Europe_London date_tuple raw h r
                /\ ((List.length h <= 308)%nat ->
                    is_finite (height_m r) = true)) records)
  /\ (forall http_get date_obj tz out records,
        Week.scrape_single_day http_get date_obj tz = (out, Ok records) ->
        Forall (fun r => exists rw,
                    In rw (rows_of (http_get (day_url date_obj)))
                    /\ from_row date_obj tz rw r) records).
Proof.
  split.
  - intros entries out records E.
    destruct (parse_tide_feed_returns entries out records E) as [F _].
    eapply Forall_impl; [|exact F].
    intros r (N & T & _ & P). auto.
  - intros http_get date_obj tz out records.
    apply scrape_single_day_records.
Qed.

Lemma heights_parsed_never_defaulted_witness :
  Forall (fun r =>
       nonnegative (height_m r)
       /\ (is_finite (height_m r) = true -> two_decimals (height_m r))
       /\ exists e date_tuple raw h,
            In e [entry_of $"06:15 - High Tide (7.42m)"]
            /\ Feed.published_parsed e = Some (Some date_tuple)
            /\ In raw (Feed.entry_lines e)
            /\ from_feed_line Europe_London date_tuple raw h r
            /\ ((List.length h <= 308)%nat ->
                is_finite (height_m r) = true))
    [Tide $"2024-06-01T06:15:00+01:00" (Some $"High")
          (S754_finite false 8354177308772270 (-50))]
  /\ Forall (fun r => exists rw,
                 In rw (rows_of (serving [row_high; row_negative]
                                         (day_url day_2024_06_01)))
                 /\ from_row day_2024_06_01 Europe_London rw r)
            [Tide $"2024-06-01T06:15:00+01:00" (Some $"High")
                  (S754_finite false 8354177308772270 (-50));
             Tide $"2024-06-01T12:30:00+01:00" (Some $"Low")
                  (S754_finite true 6755399441055744 (-52))].
Proof.
  split.
  - apply (proj1 heights_parsed_never_defaulted
                 [entry_of $"06:15 - High Tide (7.42m)"]
                 [Print (Fetching_feed Feed.TIDE_FEED_URL)]).
    vm_compute. reflexivity.
  - apply (proj2 heights_parsed_never_defaulted
                 (serving [row_high; row_negative]) day_2024_06_01
                 Europe_London [Print (Fetching_day $"20240601")]).
    vm_compute. reflexivity.
Defined.

(** *** Tide types *)

(** C3 as stated fails: the day-page pipeline hands on whatever label the
    type cell holds. *)
Lemma day_page_type_not_checked :
  exists out records r,
    Week.scrape_single_day (serving [row_spring]) day_2024_06_01 Europe_London
    = (out, Ok records)
    /\ In r records
    /\ ~ is_High_or_Low (tide_type r).
Proof.
  exists [Print (Fetching_day $"20240601")],
    [Tide $"2024-06-01T12:30:00+01:00" (Some $"Spring")
          (S754_finite false 4953959590107546 (-52))],
    (Tide $"2024-06-01T12:30:00+01:00" (Some $"Spring")
          (S754_finite false 4953959590107546 (-52))).
  split; [vm_compute; reflexivity|].
  split; [left; reflexivity|].
  unfold is_High_or_Low. simpl. intros [C | C]; discriminate C.
Qed.

(** C3, amended.  Every record of the feed pipeline has the type [High] or
    [Low]; every record of the day-page pipeline was built from a row of
    the page, which gave it its time and its height, and has the trimmed
    text of the type cell of that same row. *)
Theorem tide_type_enumerated_in_feed_trimmed_in_day_page :
  (forall entries out records,
      Feed.parse_tide_feed entries = (out, Ok records) ->
      Forall (fun r => is_High_or_Low (tide_type r)) records)
  /\ (forall http_get date_obj tz out records,
        Week.scrape_single_day http_get date_obj tz = (out, Ok records) ->
        Forall (fun r => exists rw type_text,
                    In rw (rows_of (http_get (day_url date_obj)))
                    /\ from_row date_obj tz rw r
                    /\ Week.tal rw = Some type_text
                    /\ tide_type r = Some (strip type_text)) records).
Proof.
  split.
  - intros entries out records E.
    destruct (parse_tide_feed_returns entries out records E) as [F _].
    eapply Forall_impl; [|exact F].
    intros r (_ & _ & H & _). exact H.
  - intros http_get date_obj tz out records H.
    apply scrape_single_day_records in H.
    eapply Forall_impl; [|exact H].
    intros r (rw & Hin & Hrow).
    pose proof Hrow as (type_text & span_text & height_text
                        & E1 & _ & _ & _ & _ & Ety).
    exists rw, type_text. auto.
Qed.

Lemma tide_type_enumerated_in_feed_trimmed_in_day_page_witness :
  Forall (fun r => is_High_or_Low (tide_type r))
         [Tide $"2024-06-01T06:15:00+01:00" (Some $"High")
               (S754_finite false 8354177308772270 (-50))]
  /\ Forall (fun r => exists rw type_text,
                 In rw (rows_of (serving [row_high; row_spring]
                                         (day_url day_2024_06_01)))
                 /\ from_row day_2024_06_01 Europe_London rw r
                 /\ Week.tal rw = Some type_text
                 /\ tide_type r = Some (strip type_text))
            [Tide $"2024-06-01T06:15:00+01:00" (Some $"High")
                  (S754_finite false 8354177308772270 (-50));
             Tide $"2024-06-01T12:30:00+01:00" (Some $"Spring")
                  (S754_finite false 4953959590107546 (-52))].
Proof.
  split.
  - apply (proj1 tide_type_enumerated_in_feed_trimmed_in_day_page
                 [entry_of $"06:15 - High Tide (7.42m)"]
                 [Print (Fetching_feed Feed.TIDE_FEED_URL)]).
    vm_compute. reflexivity.
  - apply (proj2 tide_type_enumerated_in_feed_trimmed_in_day_page
                 (serving [row_high; row_spring]) day_2024_06_01 Europe_London
                 [Print (Fetching_day $"20240601")]).
    vm_compute. reflexivity.
Defined.

(** *** Deduplication and order *)

(** C4.  Deduplication keeps exactly one record per timestamp of the
    batch, namely the last record of the batch that bears it; sorting
    afterwards only reorders.  In particular two records with the same
    timestamp leave the second one alone. *)
Theorem deduplicate_last_seen_wins :
  (forall records,
      NoDup (map tide_time (Feed.deduplicate records))
      /\ (forall t, In t (map tide_time records)
                    <-> In t (map tide_time (Feed.deduplicate records)))
      /\ (forall r, In r (Feed.deduplicate records)
                    <-> last_with (tide_time r) records = Some r)
      /\ Permutation (Feed.unique_records records) (Feed.deduplicate records))
  /\ (forall t ty1 h1 ty2 h2,
        Feed.unique_records [Tide t ty1 h1; Tide t ty2 h2] = [Tide t ty2 h2]).
Proof.
  split.
  - intros records.
    split; [apply deduplicate_NoDup|].
    split; [|split; [apply deduplicate_In | apply unique_records_perm]].
    intros t. split.
    + intros H. destruct (last_with_found t records H) as [r Hr].
      destruct (last_with_key t records r Hr) as [<- _].
      apply in_map, deduplicate_In. exact Hr.
    + intros H. apply in_map_iff in H. destruct H as (r & <- & Hr).
      apply deduplicate_In, last_with_key in Hr.
      apply in_map. tauto.
  - intros t ty1 h1 ty2 h2.
    unfold Feed.unique_records, Feed.deduplicate, Feed.dict_of_records.
    simpl. rewrite str_eqb_refl. reflexivity.
Qed.

Lemma deduplicate_last_seen_wins_witness :
  In (Tide $"2024-06-01T06:15:00+01:00" (Some $"High") (S754_zero false))
     (Feed.deduplicate
        [Tide $"2024-06-01T06:15:00+01:00" (Some $"High")
              (S754_infinity false);
         Tide $"2024-06-01T12:30:00+01:00" (Some $"Low") (S754_zero false);
         Tide $"2024-06-01T06:15:00+01:00" (Some $"High") (S754_zero false)]).
Proof.
  apply (proj1 (proj2 (proj2 (proj1 deduplicate_last_seen_wins _))) _).
  vm_compute. reflexivity.
Defined.

(** C5.  Whatever the order of the batch, deduplicated and sorted it is
    strictly ascending by [tide_time], in the order of Python's [<] on
    the timestamps; so is every batch that [parse_tide_feed] returns, and
    it returns one for every feed whose entries have the key
    [published_parsed]. *)
Theorem parse_tide_feed_strictly_ascending :
  (forall records,
      StronglySorted str_lt (map tide_time (Feed.unique_records records)))
  /\ (forall entries out records,
        Feed.parse_tide_feed entries = (out, Ok records) ->
        StronglySorted str_lt (map tide_time records))
  /\ (forall entries,
        Forall has_published_parsed entries ->
        exists out records, Feed.parse_tide_feed entries = (out, Ok records)).
Proof.
  split; [apply unique_records_sorted|]. split.
  - intros entries out records E.
    apply (parse_tide_feed_returns entries out records E).
  - apply parse_tide_feed_total.
Qed.

Lemma parse_tide_feed_strictly_ascending_witness :
  StronglySorted str_lt
    [$"2024-06-01T06:15:00+01:00"; $"2024-06-01T12:30:00+01:00"].
Proof.
  apply (proj1 (proj2 parse_tide_feed_strictly_ascending)
               [entry_of $"12:30 - Low Tide (1.10m)<br/>06:15 - High Tide (7.42m)<br/>12:30 - Low Tide (1.10m)"]
               [Print (Fetching_feed Feed.TIDE_FEED_URL)]
               [Tide $"2024-06-01T06:15:00+01:00" (Some $"High")
                     (S754_finite false 8354177308772270 (-50));
                Tide $"2024-06-01T12:30:00+01:00" (Some $"Low")
                     (S754_finite false 4953959590107546 (-52))]).
  vm_compute. reflexivity.
Defined.

(** Three records given latest first come out earliest first. *)
Example unique_records_reverse_chronological :
  map tide_time
      (Feed.unique_records
         [Tide $"2024-06-01T18:45:00+01:00" (Some $"High") (S754_zero false);
          Tide $"2024-06-01T12:30:00+01:00" (Some $"Low") (S754_zero false);
          Tide $"2024-06-01T06:15:00+01:00" (Some $"High") (S754_zero false)])
  = [$"2024-06-01T06:15:00+01:00"; $"2024-06-01T12:30:00+01:00";
     $"2024-06-01T18:45:00+01:00"].
Proof. vm_compute. reflexivity. Qed.

(** *** The local zone *)

(** C6 as stated fails: on 2024-03-31 the wall clock skips from 01:00 to
    02:00, and a time in the skipped hour keeps the offset before the
    change, so 01:00 serialises with +00:00 on both days in both
    pipelines. *)
Lemma spring_forward_0100_same_offset :
  Feed.combine Europe_London (2024, 3, 30) (Some $"01:00")
  = Ok $"2024-03-30T01:00:00+00:00"
  /\ Feed.combine Europe_London (2024, 3, 31) (Some $"01:00")
     = Ok $"2024-03-31T01:00:00+00:00"
  /\ snd (Week.combine (Date 2024 3 30) Europe_London $"01:00")
     = Ok $"2024-03-30T01:00:00+00:00"
  /\ snd (Week.combine (Date 2024 3 31) Europe_London $"01:00")
     = Ok $"2024-03-31T01:00:00+00:00"
  /\ Z.abs (Europe_London (DateTime 2024 3 31 1 0)
            - Europe_London (DateTime 2024 3 30 1 0)) <> 3600.
Proof.
  repeat split; try (vm_compute; reflexivity).
  vm_compute. discriminate.
Qed.

(** C6, amended.  Combining 2024-03-30 with 02:00 and 2024-03-31 with
    02:00 gives, in both pipelines, timestamps with the offsets +00:00 and
    +01:00, one hour apart. *)
Theorem spring_forward_0200_one_hour_apart :
  Feed.combine Europe_London (2024, 3, 30) (Some $"02:00")
  = Ok $"2024-03-30T02:00:00+00:00"
  /\ Feed.combine Europe_London (2024, 3, 31) (Some $"02:00")
     = Ok $"2024-03-31T02:00:00+01:00"
  /\ snd (Week.combine (Date 2024 3 30) Europe_London $"02:00")
     = Ok $"2024-03-30T02:00:00+00:00"
  /\ snd (Week.combine (Date 2024 3 31) Europe_London $"02:00")
     = Ok $"2024-03-31T02:00:00+01:00"
  /\ Europe_London (DateTime 2024 3 31 2 0)
     - Europe_London (DateTime 2024 3 30 2 0) = 3600.
Proof. repeat split; vm_compute; reflexivity. Qed.

(** *** The end-to-end examples *)

(** C7.  The line ["06:15 - High Tide (7.42m)"] of an entry dated
    2024-06-01 gives the record with that time at +01:00, the type [High]
    and the height 7.42, the binary64 quotient of 742 by 100. *)
Theorem feed_line_2024_06_01 :
  Feed.process_line Europe_London (2024, 6, 1) $"06:15 - High Tide (7.42m)" []
  = ([], Ok [Tide $"2024-06-01T06:15:00+01:00" (Some $"High")
                  (S754_finite false 8354177308772270 (-50))])
  /\ Feed.parse_tide_feed [entry_of $"06:15 - High Tide (7.42m)"]
     = ([Print (Fetching_feed Feed.TIDE_FEED_URL)],
        Ok [Tide $"2024-06-01T06:15:00+01:00" (Some $"High")
                 (S754_finite false 8354177308772270 (-50))])
  /\ S754_finite false 8354177308772270 (-50)
     = SFdiv 53 1024 (S754_finite false 742 0) (S754_finite false 100 0).
Proof. repeat split; vm_compute; reflexivity. Qed.

Section EncodedParentheses.

Variables (tz : tzinfo) (date_tuple : Z * Z * Z).
Variables (t ty h : str) (records : list tide).
Hypothesis Ht : is_HHMM t = true.
Hypothesis Hty : ty = $"High" \/ ty = $"Low".
Hypothesis Hh : is_height h = true.


(** The record of the event, from its three groups. *)
Lemma line_record_of_event (rest : str) :
  Feed.line_record tz date_tuple
    (MatchObject [(3%nat, h ++ $"m"); (2%nat, ty); (1%nat, t)] rest)
  = (x <- float_of_str h ;;
     iso <- Feed.combine tz date_tuple (Some t) ;;
     y <- round2 x ;;
     Ok (Tide iso (Some ty) y)).
Proof.
  unfold Feed.line_record. cbn [mo_captures group Nat.eqb attr_of bind].
  rewrite (remove_unit h (proj2 (is_height_inv h Hh))). reflexivity.
Qed.

(** The conversions of the event succeed, or one of them raises
    [ValueError]. *)
Lemma event_conversions :
  (exists x y iso,
      float_of_str h = Ok x /\ round2 x = Ok y
      /\ Feed.combine tz date_tuple (Some t) = Ok iso)
  \/ float_of_str h = Raise ValueError
  \/ Feed.combine tz date_tuple (Some t) = Raise ValueError.
Proof.
  destruct (float_of_str h) as [x|e] eqn:Ef.
  - destruct (round2_total x (float_of_str_valid _ _ Ef)) as (y & Er & _).
    destruct (Feed.combine tz date_tuple (Some t)) as [iso|e] eqn:Ec.
    + left. exists x, y, iso. auto.
    + right. right. f_equal. eapply combine_raises; eauto.
  - right. left. f_equal. eapply float_of_str_raises; eauto.
Qed.

(** A line in which the pattern finds the event gives the record of
    the event, or is reported and dropped. *)
Lemma process_event (raw rest : str) :
  re_search Feed.TIDE_RE (strip raw)
  = Some (MatchObject [(3%nat, h ++ $"m"); (2%nat, ty); (1%nat, t)] rest) ->
  (forall x y iso,
      float_of_str h = Ok x -> round2 x = Ok y ->
      Feed.combine tz date_tuple (Some t) = Ok iso ->
      Feed.process_line tz date_tuple raw records
      = ([], Ok (records ++ [Tide iso (Some ty) y])))
  /\ (float_of_str h = Raise ValueError
      \/ Feed.combine tz date_tuple (Some t) = Raise ValueError ->
      Feed.process_line tz date_tuple raw records
      = ([Print (Error_processing_line (strip raw) ValueError)],
         Ok records)).
Proof.
  intros S. unfold Feed.process_line. rewrite S, line_record_of_event.
  split.
  - intros x y iso Ef Er Ec. rewrite Ef. cbn [bind]. rewrite Ec.
    cbn [bind]. rewrite Er. reflexivity.
  - intros [Ef | Ec].
    + rewrite Ef. reflexivity.
    + destruct (float_of_str h) as [x|e] eqn:Ef; cbn [bind].
      * rewrite Ec. reflexivity.
      * rewrite (float_of_str_raises _ _ Ef). reflexivity.
Qed.

End EncodedParentheses.

(** C8.  For every time of two digits, a colon and two digits, every type
    [High] or [Low] and every height of digits and points, the line
    written with [&#x28;] and [&#x29;] is extracted into the same record
    as the line written with [(] and [)]: when the height and the time
    convert, each of the two lines appends the record of that time, type
    and rounded height and prints nothing; when a conversion raises
    [ValueError], each is reported under its own text and dropped; and
    there is no third case. *)
Theorem encoded_parentheses_same_record
        (tz : tzinfo) (date_tuple : Z * Z * Z) (t ty h : str)
        (records : list tide) :
  is_HHMM t = true -> (ty = $"High" \/ ty = $"Low") -> is_height h = true ->
  let encoded := tide_line $"&#x28;" $"&#x29;" t ty h in
  let plain := tide_line $"(" $")" t ty h in
  snd (Feed.process_line tz date_tuple encoded records)
  = snd (Feed.process_line tz date_tuple plain records)
  /\ (forall x y iso,
        float_of_str h = Ok x -> round2 x = Ok y ->
        Feed.combine tz date_tuple (Some t) = Ok iso ->
        Feed.process_line tz date_tuple encoded records
        = ([], Ok (records ++ [Tide iso (Some ty) y]))
        /\ Feed.process_line tz date_tuple plain records
           = ([], Ok (records ++ [Tide iso (Some ty) y])))
  /\ (float_of_str h = Raise ValueError
      \/ Feed.combine tz date_tuple (Some t) = Raise ValueError ->
      Feed.process_line tz date_tuple encoded records
      = ([Print (Error_processing_line encoded ValueError)], Ok records)
      /\ Feed.process_line tz date_tuple plain records
         = ([Print (Error_processing_line plain ValueError)], Ok records))
  /\ ((exists x y iso,
          float_of_str h = Ok x /\ round2 x = Ok y
          /\ Feed.combine tz date_tuple (Some t) = Ok iso)
      \/ float_of_str h = Raise ValueError
      \/ Feed.combine tz date_tuple (Some t) = Raise ValueError).
Proof.
  intros Ht Hty Hh. cbv zeta.
  assert (Oe : is_open_paren $"&#x28;") by (right; reflexivity).
  assert (Ce : is_close_paren $"&#x29;") by (right; reflexivity).
  assert (Op : is_open_paren $"(") by (left; reflexivity).
  assert (Cp : is_close_paren $")") by (left; reflexivity).
  pose proof (tide_line_search _ _ t ty h Oe Ce Ht Hty Hh) as Se.
  pose proof (tide_line_search _ _ t ty h Op Cp Ht Hty Hh) as Sp.
  rewrite <- (tide_line_strip _ _ t ty h Oe Ce Ht) in Se at 1.
  rewrite <- (tide_line_strip _ _ t ty h Op Cp Ht) in Sp at 1.
  destruct (process_event tz date_tuple t ty h records Hh _ _ Se)
    as [Good_e Bad_e].
  destruct (process_event tz date_tuple t ty h records Hh _ _ Sp)
    as [Good_p Bad_p].
  rewrite (tide_line_strip _ _ t ty h Oe Ce Ht) in Bad_e.
  rewrite (tide_line_strip _ _ t ty h Op Cp Ht) in Bad_p.
  pose proof (event_conversions tz date_tuple t h Ht) as Cases.
  split; [|split; [|split]].
  - destruct Cases as [(x & y & iso & Ef & Er & Ec) | Bad].
    + rewrite (Good_e x y iso Ef Er Ec), (Good_p x y iso Ef Er Ec).
      reflexivity.
    + rewrite (Bad_e Bad), (Bad_p Bad). reflexivity.
  - intros x y iso Ef Er Ec.
    split; [apply (Good_e x) | apply (Good_p x)]; assumption.
  - intros Bad. split; [apply Bad_e | apply Bad_p]; exact Bad.
  - exact Cases.
Qed.

Lemma encoded_parentheses_same_record_witness :
  Feed.process_line Europe_London (2024, 6, 1)
    $"14:03 - Low Tide &#x28;1.10m&#x29;" []
  = ([], Ok [Tide $"2024-06-01T14:03:00+01:00" (Some $"Low")
                  (S754_finite false 4953959590107546 (-52))])
  /\ Feed.process_line Europe_London (2024, 6, 1)
       $"14:03 - Low Tide (1.10m)" []
     = ([], Ok [Tide $"2024-06-01T14:03:00+01:00" (Some $"Low")
                     (S754_finite false 4953959590107546 (-52))]).
Proof.
  apply (proj1 (proj2 (encoded_parentheses_same_record
                         Europe_London (2024, 6, 1) $"14:03" $"Low" $"1.10"
                         [] eq_refl (or_intror eq_refl) eq_refl))
               (S754_finite false 4953959590107546 (-52))
               (S754_finite false 4953959590107546 (-52))
               $"2024-06-01T14:03:00+01:00");
    vm_compute; reflexivity.
Defined.

(** Both ways of writing the line of the example give the record of
    14:03 at 1.1 metres. *)
Example encoded_parentheses_2024_06_01 :
  Feed.process_line Europe_London (2024, 6, 1)
    $"14:03 - Low Tide &#x28;1.10m&#x29;" []
  = ([], Ok [Tide $"2024-06-01T14:03:00+01:00" (Some $"Low")
                  (S754_finite false 4953959590107546 (-52))]).
Proof. vm_compute. reflexivity. Qed.

(** *** Lines that are no tide lines *)

(** C9.  A line in which the tide pattern matches nowhere adds nothing to
    the batch, prints nothing and raises nothing, and the scan of the
    other lines goes on as if the line were not there.  No line at all
    makes [process_line] raise. *)
Theorem unmatched_line_skipped :
  (forall tz date_tuple raw,
      re_search Feed.TIDE_RE (strip raw) = None ->
      (forall records,
          Feed.process_line tz date_tuple raw records = ([], Ok records))
      /\ (forall before after records,
            for_each (before ++ raw :: after) records
                     (Feed.process_line tz date_tuple)
            = for_each (before ++ after) records
                       (Feed.process_line tz date_tuple)))
  /\ (forall tz date_tuple raw records,
        exists out records',
          Feed.process_line tz date_tuple raw records = (out, Ok records')).
Proof.
  split.
  - intros tz date_tuple raw H.
    assert (S : forall records,
               Feed.process_line tz date_tuple raw records = ([], Ok records)).
    { intros records. unfold Feed.process_line. rewrite H. reflexivity. }
    split; [exact S|].
    intros before after records. apply for_each_skip. exact S.
  - intros tz date_tuple raw records.
    destruct (process_line_cases tz date_tuple raw records)
      as [[_ E] | [(m & _ & _ & E) | (m & r & _ & _ & E)]]; rewrite E; eauto.
Qed.

Lemma unmatched_line_skipped_witness :
  re_search Feed.TIDE_RE (strip $"Tide Times for Burry Port") = None
  /\ (forall records,
        Feed.process_line Europe_London (2024, 6, 1)
                          $"Tide Times for Burry Port" records
        = ([], Ok records)).
Proof.
  split; [vm_compute; reflexivity|].
  apply (proj1 unmatched_line_skipped Europe_London (2024, 6, 1)
               $"Tide Times for Burry Port").
  vm_compute. reflexivity.
Defined.

(** *** Empty batches *)

(** C10.  With an empty batch neither pipeline calls the storage client:
    [update_supabase_tides] prints one line and returns, and so does
    [run_weekly_scraper] after the fetches; no event of either run is an
    upsert. *)
Theorem empty_batch_no_upsert :
  (forall supabase,
      Feed.update_supabase_tides supabase []
      = ([Print No_records_to_insert], Ok tt))
  /\ (forall supabase entries out0,
        Feed.parse_tide_feed entries = (out0, Ok []) ->
        Feed.main supabase entries
        = ([Print Scraper_started] ++ out0
             ++ [Print No_records_to_insert; Print Scraper_finished], Ok tt)
        /\ no_upsert (fst (Feed.main supabase entries)))
  /\ (forall http_get supabase today out0,
        Week.collect_days http_get today Europe_London = (out0, Ok []) ->
        Week.run_weekly_scraper http_get supabase today
        = (out0 ++ [Print No_records_collected], Ok tt)
        /\ no_upsert (fst (Week.run_weekly_scraper http_get supabase today))).
Proof.
  split; [reflexivity|]. split.
  - intros supabase entries out0 E.
    assert (M : Feed.main supabase entries
                = ([Print Scraper_started] ++ out0
                     ++ [Print No_records_to_insert; Print Scraper_finished],
                   Ok tt)).
    { unfold Feed.main. rewrite E. simpl. reflexivity. }
    split; [exact M|]. rewrite M. unfold fst.
    apply only_prints_no_upsert.
    pose proof (parse_tide_feed_only_prints entries) as O.
    rewrite E in O. simpl in O.
    apply only_prints_app; [apply only_prints_one|].
    apply only_prints_app; [exact O|].
    constructor; [eauto | apply only_prints_one].
  - intros http_get supabase today out0 E.
    assert (R : Week.run_weekly_scraper http_get supabase today
                = (out0 ++ [Print No_records_collected], Ok tt)).
    { unfold Week.run_weekly_scraper. rewrite E. reflexivity. }
    split; [exact R|]. rewrite R. unfold fst.
    apply only_prints_no_upsert.
    apply only_prints_app; [|apply only_prints_one].
    pose proof (collect_days_only_prints http_get today Europe_London) as O.
    rewrite E in O. exact O.
Qed.

Lemma empty_batch_no_upsert_witness :
  no_upsert (fst (Week.run_weekly_scraper (fun _ => Week.Request_failed)
                                          storage_ok day_2024_06_01)).
Proof.
  apply (proj2 (proj2 (proj2 empty_batch_no_upsert)
                      (fun _ => Week.Request_failed) storage_ok day_2024_06_01
                      (fst (Week.collect_days (fun _ => Week.Request_failed)
                                              day_2024_06_01 Europe_London))
                      eq_refl)).
Defined.

(** * Further properties of the two scripts *)

(** ** The calls to the storage client *)

Section StorageCalls.

Lemma upserts_app (o1 o2 : list event) :
  upserts (o1 ++ o2) = upserts o1 ++ upserts o2.
Proof. unfold upserts. apply flat_map_app. Qed.

Lemma upserts_cons_print (m : message) (out : list event) :
  upserts (Print m :: out) = upserts out.
Proof. reflexivity. Qed.

Lemma upserts_only_prints (out : list event) :
  only_prints out -> upserts out = [].
Proof.
  induction out as [|ev out IH]; intros H; [reflexivity|].
  inversion H as [|x l [m ->] Hl]; subst. simpl. apply IH. exact Hl.
Qed.

(** The [try] around the call: whatever the client does, the function
    returns, after exactly one call. *)
Lemma guarded_upsert (supabase : storage) (records : list tide)
      (ok : message) (failed : exn -> message) (hint : message) :
  let run := io_try
               (upsert supabase TABLE_NAME records $"tide_time" ;;; print ok)
               any_exception
               (fun e => print (failed e) ;;; print hint) in
  snd run = Ok tt
  /\ upserts (fst run) = [(TABLE_NAME, records, $"tide_time")].
Proof.
  unfold upsert, io_try, io_bind, print, any_exception.
  destruct (supabase TABLE_NAME records $"tide_time") as [[]|e];
    split; reflexivity.
Qed.

(** The calls that [update_supabase_tides] makes. *)
Lemma update_calls (supabase : storage) (records : list tide) :
  snd (Feed.update_supabase_tides supabase records) = Ok tt
  /\ upserts (fst (Feed.update_supabase_tides supabase records))
     = upsert_of records.
Proof.
  unfold Feed.update_supabase_tides. destruct records as [|r records].
  - split; reflexivity.
  - pose proof (guarded_upsert supabase (r :: records) Upsert_succeeded
                               Upsert_failed Upsert_hint) as [H1 H2].
    cbv zeta in H1, H2.
    destruct (io_try _ _ _) as [out res]. simpl in *. subst res.
    split; [reflexivity|]. exact H2.
Qed.

End StorageCalls.

(** X1.  [update_supabase_tides] never raises, whatever the storage client
    does, and it calls the client exactly once for a batch that is not
    empty, with the table [tides], the batch as given and the conflict
    column [tide_time]. *)
Theorem update_supabase_tides_returns_after_one_call
        (supabase : storage) (records : list tide) :
  snd (Feed.update_supabase_tides supabase records) = Ok tt
  /\ upserts (fst (Feed.update_supabase_tides supabase records))
     = upsert_of records.
Proof.
  unfold Feed.update_supabase_tides. destruct records as [|r records].
  - split; reflexivity.
  - pose proof (guarded_upsert supabase (r :: records) Upsert_succeeded
                               Upsert_failed Upsert_hint) as [H1 H2].
    cbv zeta in H1, H2.
    destruct (io_try _ _ _) as [out res]. simpl in *. subst res.
    split; [reflexivity|]. exact H2.
Qed.

(** X2.  [main] of the feed script hands to the storage client exactly the
    batch that [parse_tide_feed] returned, in one call, and returns
    whatever the client does; when [parse_tide_feed] raises, [main] raises
    the same exception and the client is not called. *)
Theorem feed_main_stores_the_parsed_batch
        (supabase : storage) (entries : list Feed.entry) (out : list event) :
  (forall records,
      Feed.parse_tide_feed entries = (out, Ok records) ->
      snd (Feed.main supabase entries) = Ok tt
      /\ upserts (fst (Feed.main supabase entries)) = upsert_of records)
  /\ (forall e,
        Feed.parse_tide_feed entries = (out, Raise e) ->
        Feed.main supabase entries = (Print Scraper_started :: out, Raise e)
        /\ upserts (fst (Feed.main supabase entries)) = []).
Proof.
  pose proof (parse_tide_feed_only_prints entries) as O.
  split.
  - intros records E. rewrite E in O. simpl in O.
    destruct (update_calls supabase records) as [H1 H2].
    unfold Feed.main. rewrite E. unfold io_bind, print.
    destruct (Feed.update_supabase_tides supabase records) as [out2 res].
    simpl in *. subst res. split; [reflexivity|].
    change (upserts (out ++ out2 ++ [Print Scraper_finished])
            = upsert_of records).
    rewrite !upserts_app, (upserts_only_prints out O), H2. simpl.
    apply app_nil_r.
  - intros e E. rewrite E in O. simpl in O.
    unfold Feed.main. rewrite E. simpl. split; [reflexivity|].
    apply (upserts_only_prints out O).
Qed.

Lemma feed_main_stores_the_parsed_batch_witness :
  upserts (fst (Feed.main storage_ok [entry_of $"06:15 - High Tide (7.42m)"]))
  = [(TABLE_NAME,
      [Tide $"2024-06-01T06:15:00+01:00" (Some $"High")
            (S754_finite false 8354177308772270 (-50))],
      $"tide_time")].
Proof.
  apply (proj1 (feed_main_stores_the_parsed_batch
                  storage_ok [entry_of $"06:15 - High Tide (7.42m)"]
                  [Print (Fetching_feed Feed.TIDE_FEED_URL)])
               [Tide $"2024-06-01T06:15:00+01:00" (Some $"High")
                     (S754_finite false 8354177308772270 (-50))]).
  vm_compute. reflexivity.
Defined.

(** ** Entries without a date *)

Section EntryLoop.

Context {X S : Type}.

(** A member on which the body raises, whatever the state, makes the
    loop raise when the members before it return. *)
Lemma for_each_raises (body : X -> S -> io S) (bad : X -> bool) (e : exn) :
  (forall x st, bad x = true -> snd (body x st) = Raise e) ->
  (forall x st, bad x = false -> exists out st', body x st = (out, Ok st')) ->
  forall xs st, existsb bad xs = true ->
                snd (for_each xs st body) = Raise e.
Proof.
  intros Hbad Hgood xs. induction xs as [|x xs IH]; intros st H;
    [discriminate|].
  simpl in *. destruct (bad x) eqn:Bx.
  - specialize (Hbad x st Bx).
    destruct (body x st) as [out [st'|e']]; simpl in *; [discriminate|].
    exact Hbad.
  - destruct (Hgood x st Bx) as (out & st' & E). rewrite E. simpl.
    specialize (IH st' H).
    destruct (for_each xs st' body) as [out2 r2]. exact IH.
Qed.

(** A step that leaves the state alone can be left out of the loop, as
    far as the outcome goes. *)
Lemma for_each_skip_outcome (body : X -> S -> io S) (x : X) :
  (forall st, snd (body x st) = Ok st) ->
  forall xs1 xs2 st,
    snd (for_each (xs1 ++ x :: xs2) st body)
    = snd (for_each (xs1 ++ xs2) st body).
Proof.
  intros Hx xs1. induction xs1 as [|y xs1 IH]; intros xs2 st; simpl.
  - specialize (Hx st). destruct (body x st) as [o [s|e]]; simpl in *;
      [|discriminate].
    injection Hx; intros ->.
    destruct (for_each xs2 st body). reflexivity.
  - destruct (body y st) as [out1 [st1|e]]; simpl; [|reflexivity].
    specialize (IH xs2 st1).
    destruct (for_each (xs1 ++ x :: xs2) st1 body),
             (for_each (xs1 ++ xs2) st1 body). exact IH.
Qed.

End EntryLoop.

(** The outcome of [parse_tide_feed] in terms of the loop over the
    entries. *)
Lemma parse_tide_feed_outcome (entries : list Feed.entry) :
  snd (Feed.parse_tide_feed entries)
  = match snd (for_each entries [] (Feed.process_entry Europe_London)) with
    | Ok records => Ok (Feed.unique_records records)
    | Raise e => Raise e
    end.
Proof.
  unfold Feed.parse_tide_feed. destruct entries as [|e0 es]; [reflexivity|].
  unfold io_bind, print, io_ret.
  destruct (for_each (e0 :: es) [] _) as [o [r|e]]; reflexivity.
Qed.

(** X3.  [parse_tide_feed] raises exactly when some entry of the feed
    lacks the key [published_parsed]: the attribute access is outside the
    [try], and [AttributeError] is the only exception that leaves the
    function. *)
Theorem parse_tide_feed_raises_on_missing_key (entries : list Feed.entry) :
  (existsb lacks_published_parsed entries = true
   <-> snd (Feed.parse_tide_feed entries) = Raise AttributeError)
  /\ (forall e, snd (Feed.parse_tide_feed entries) = Raise e ->
                e = AttributeError).
Proof.
  assert (R : existsb lacks_published_parsed entries = true ->
              snd (Feed.parse_tide_feed entries) = Raise AttributeError).
  { intros H. unfold Feed.parse_tide_feed.
    destruct entries as [|e0 es] eqn:E; [discriminate|]. rewrite <- E in *.
    pose proof (for_each_raises
                  (Feed.process_entry Europe_London) lacks_published_parsed
                  AttributeError) as L.
    specialize (L ltac:(intros x st Hx; unfold lacks_published_parsed in Hx;
                        destruct (Feed.published_parsed x) eqn:K;
                        [discriminate|];
                        rewrite (process_entry_no_key Europe_London x st K);
                        reflexivity)).
    assert (G : forall x st, lacks_published_parsed x = false ->
                exists out st',
                  Feed.process_entry Europe_London x st = (out, Ok st')).
    { intros x st Hx. unfold lacks_published_parsed in Hx.
      unfold Feed.process_entry.
      destruct (Feed.published_parsed x) as [[d|]|]; [| |discriminate].
      - simpl.
        destruct (for_each_total_in
                    (fun _ => True) (Feed.process_line Europe_London d)
                    (Feed.entry_lines x)) with (st := st)
          as (o & s' & Ef & _); [|exact I|].
        + intros raw s _ _.
          destruct (process_line_cases Europe_London d raw s)
            as [[_ E'] | [(m & _ & _ & E') | (m & r & _ & _ & E')]];
            rewrite E'; eexists _, _;
            (split; [reflexivity|]); split;
            auto using only_prints_nil, only_prints_one.
        + rewrite Ef. eauto.
      - eexists _, _. reflexivity. }
    specialize (L G entries [] H).
    destruct (for_each entries [] (Feed.process_entry Europe_London))
      as [o [s|e]]; simpl in *; [discriminate | exact L]. }
  assert (T : existsb lacks_published_parsed entries = false ->
              exists out records,
                Feed.parse_tide_feed entries = (out, Ok records)).
  { intros H. apply parse_tide_feed_total. apply Forall_forall.
    intros x Hx. unfold has_published_parsed.
    destruct (Feed.published_parsed x) eqn:K; [discriminate|].
    exfalso. assert (C : existsb lacks_published_parsed entries = true).
    { apply existsb_exists. exists x. split; [exact Hx|].
      unfold lacks_published_parsed. rewrite K. reflexivity. }
    congruence. }
  split; [split; [exact R|]|].
  - intros H. destruct (existsb lacks_published_parsed entries) eqn:B;
      [reflexivity|].
    destruct (T eq_refl) as (out & records & E). rewrite E in H. discriminate.
  - intros e H. destruct (existsb lacks_published_parsed entries) eqn:B.
    + rewrite (R eq_refl) in H. congruence.
    + destruct (T eq_refl) as (out & records & E). rewrite E in H.
      discriminate.
Qed.

Lemma parse_tide_feed_raises_on_missing_key_witness :
  snd (Feed.parse_tide_feed
         [entry_of $"06:15 - High Tide (7.42m)";
          Feed.Entry None (Some $"Tide Times") (Some $"no date here")])
  = Raise AttributeError.
Proof.
  apply (proj1 (proj1 (parse_tide_feed_raises_on_missing_key
                         [entry_of $"06:15 - High Tide (7.42m)";
                          Feed.Entry None (Some $"Tide Times")
                                     (Some $"no date here")]))).
  reflexivity.
Defined.

(** X4.  An entry whose date the feed parser could not read (the key holds
    [None]) is reported and contributes nothing: the batch returned is the
    one the feed gives without that entry. *)
Theorem entry_without_date_contributes_nothing
        (before after : list Feed.entry) (e : Feed.entry) :
  Feed.published_parsed e = Some None ->
  snd (Feed.parse_tide_feed (before ++ e :: after))
  = snd (Feed.parse_tide_feed (before ++ after))
  /\ (forall records,
        Feed.process_entry Europe_London e records
        = ([Print (Skipping_entry_no_date (Feed.title e))], Ok records)).
Proof.
  intros K.
  assert (Sk : forall records,
             Feed.process_entry Europe_London e records
             = ([Print (Skipping_entry_no_date (Feed.title e))], Ok records)).
  { intros records. unfold Feed.process_entry. rewrite K. reflexivity. }
  split; [|exact Sk].
  rewrite !parse_tide_feed_outcome.
  rewrite (for_each_skip_outcome
             (Feed.process_entry Europe_London) e
             (fun st => f_equal snd (Sk st)) before after []).
  reflexivity.
Qed.

Lemma entry_without_date_contributes_nothing_witness :
  snd (Feed.parse_tide_feed
         ([entry_of $"06:15 - High Tide (7.42m)"]
            ++ Feed.Entry (Some None) None (Some $"12:30 - Low Tide (1.10m)")
            :: []))
  = snd (Feed.parse_tide_feed ([entry_of $"06:15 - High Tide (7.42m)"] ++ [])).
Proof.
  apply (proj1 (entry_without_date_contributes_nothing
                  [entry_of $"06:15 - High Tide (7.42m)"] []
                  (Feed.Entry (Some None) None
                              (Some $"12:30 - Low Tide (1.10m)"))
                  eq_refl)).
Defined.

(** ** The rows of a day page *)

Section StrptimeGroups.

Ltac split_denotes :=
  repeat match goal with
         | H : denotes (Cat _ _) _ _ _ |- _ => inversion H; subst; clear H
         | H : denotes (Group _ _) _ _ _ |- _ => inversion H; subst; clear H
         | H : denotes (Alt _ _) _ _ _ |- _ => inversion H; subst; clear H
         | H : denotes (Lit _) _ _ _ |- _ => inversion H; subst; clear H
         | H : denotes (Cls _) _ _ _ |- _ => inversion H; subst; clear H
         | H : denotes (Plus _) _ _ _ |- _ => inversion H; subst; clear H
         end.

(** Every match of the [strptime] pattern sets its five groups. *)
Lemma strptime_re_groups (w : str) (caps : captures) :
  denotes strptime_re w [] caps ->
  exists Y m d H M,
    caps = [(5%nat, M); (4%nat, H); (3%nat, d); (2%nat, m); (1%nat, Y)].
Proof.
  unfold strptime_re, digit, chars, space_run. intros H.
  split_denotes; eauto 10.
Qed.

(** [strptime] raises nothing but [ValueError]. *)
Lemma strptime_raises (s : str) (e : exn) :
  strptime s = Raise e -> e = ValueError.
Proof.
  unfold strptime.
  destruct (re_match strptime_re s) as [[caps rest]|] eqn:E;
    [|congruence].
  destruct rest; [|congruence].
  apply re_match_sound in E. destruct E as (w & _ & D). simpl in D.
  apply strptime_re_groups in D.
  destruct D as (Y & m & d & H & M & ->).
  cbn [group Nat.eqb attr_of bind].
  destruct (int_of_str Y) as [y|e1] eqn:E1; cbn [bind];
    [|intros X; inversion X; subst; eapply int_of_str_raises; eauto].
  destruct (int_of_str m) as [mo|e2] eqn:E2; cbn [bind];
    [|intros X; inversion X; subst; eapply int_of_str_raises; eauto].
  destruct (int_of_str d) as [dd|e3] eqn:E3; cbn [bind];
    [|intros X; inversion X; subst; eapply int_of_str_raises; eauto].
  destruct (int_of_str H) as [hh|e4] eqn:E4; cbn [bind];
    [|intros X; inversion X; subst; eapply int_of_str_raises; eauto].
  destruct (int_of_str M) as [mi|e5] eqn:E5; cbn [bind];
    [|intros X; inversion X; subst; eapply int_of_str_raises; eauto].
  unfold datetime_new. destruct (valid_date y mo dd); cbn [bind];
    [|congruence].
  unfold replace_time. destruct (valid_time hh mi); congruence.
Qed.

End StrptimeGroups.

Section Rows.

Import Week.

Variables (date_obj : date) (tz : tzinfo).

Lemma combine_raises_ValueError (t : str) (e : exn) :
  snd (Week.combine date_obj tz t) = Raise e -> e = ValueError.
Proof.
  unfold Week.combine. cbn [snd].
  destruct (strptime _) as [dt|e'] eqn:E; cbn [bind]; [discriminate|].
  intros X; inversion X; subst. eapply strptime_raises; eauto.
Qed.

Lemma reaches_try_inv (rw : row) :
  reaches_try rw = true ->
  exists type_text span_text height_text,
    tal rw = Some type_text /\ tac rw = Some (Some span_text)
    /\ tar rw = Some height_text /\ row_height rw = Some height_text.
Proof.
  unfold reaches_try, row_height.
  destruct (tal rw) as [a|]; [|discriminate].
  destruct (tac rw) as [[b|]|]; try discriminate.
  destruct (tar rw) as [c|]; [|discriminate]. eauto 10.
Qed.

(** A row without the three cells and the span is passed over. *)
Lemma process_row_skips (rw : row) (st : locals) :
  reaches_try rw = false -> process_row date_obj tz rw st = io_ret st.
Proof.
  unfold reaches_try, row_height, process_row.
  destruct (tal rw) as [a|]; [|reflexivity].
  destruct (tac rw) as [[b|]|]; try (destruct (tar rw); reflexivity).
  destruct (tar rw) as [c|]; [discriminate | reflexivity].
Qed.

(** The height of a row that reaches the [try] is read or [float]
    raises [ValueError]; when it is read, rounding returns. *)
Lemma height_cases (height_text : str) :
  (exists x y, float_of_str (remove_char "m" (strip height_text)) = Ok x
               /\ round2 x = Ok y)
  \/ float_of_str (remove_char "m" (strip height_text)) = Raise ValueError.
Proof.
  destruct (float_of_str (remove_char "m" (strip height_text)))
    as [x|e] eqn:E.
  - left. destruct (round2_total x (float_of_str_valid _ _ E))
      as (y & Hy & _). eauto.
  - right. f_equal. eapply float_of_str_raises; eauto.
Qed.

(** A row whose height is read binds [full_datetime_str] and the loop
    goes on. *)
Lemma process_row_readable (rw : row) (st : locals) :
  reaches_try rw = true -> unreadable_height rw = false ->
  exists out st',
    process_row date_obj tz rw st = (out, Ok st') /\ bound st'.
Proof.
  intros R U. destruct (reaches_try_inv rw R) as (a & b & c & Ea & Eb & Ec & Eh).
  unfold unreadable_height in U. rewrite Eh in U.
  unfold process_row, row_try. rewrite Ea, Eb, Ec.
  destruct (height_cases c) as [(x & y & Ef & Er) | Ef];
    [|rewrite Ef in U; discriminate].
  rewrite Ef. cbn [bind]. rewrite Er.
  destruct (Week.combine date_obj tz (strip b)) as [fds [iso|e]] eqn:Ec'.
  - eexists _, _. split; [reflexivity|]. unfold bound. simpl. congruence.
  - assert (e = ValueError).
    { apply (combine_raises_ValueError (strip b)). rewrite Ec'. reflexivity. }
    subst e. eexists _, _. split; [reflexivity|].
    unfold bound. simpl. congruence.
Qed.

(** A row whose height is not read, met while [full_datetime_str] is
    unbound, ends the function. *)
Lemma process_row_unreadable_unbound (rw : row) (st : locals) :
  unreadable_height rw = true -> full_datetime_str st = None ->
  process_row date_obj tz rw st = ([], Raise UnboundLocalError).
Proof.
  intros U N.
  assert (R : reaches_try rw = true).
  { unfold reaches_try. unfold unreadable_height in U.
    destruct (row_height rw); [reflexivity | discriminate]. }
  destruct (reaches_try_inv rw R) as (a & b & c & Ea & Eb & Ec & Eh).
  unfold unreadable_height in U. rewrite Eh in U.
  unfold process_row, row_try. rewrite Ea, Eb, Ec.
  destruct (height_cases c) as [(x & y & Ef & Er) | Ef];
    [rewrite Ef in U; discriminate|].
  rewrite Ef. cbn [bind]. cbn [caught_by existsb exn_eqb orb].
  rewrite N. reflexivity.
Qed.

(** Once [full_datetime_str] is bound every row is dealt with. *)
Lemma process_row_bound (rw : row) (st : locals) :
  bound st ->
  exists out st',
    process_row date_obj tz rw st = (out, Ok st') /\ bound st'.
Proof.
  intros B. destruct (reaches_try rw) eqn:R.
  - destruct (unreadable_height rw) eqn:U;
      [|apply process_row_readable; assumption].
    destruct (reaches_try_inv rw R) as (a & b & c & Ea & Eb & Ec & Eh).
    unfold unreadable_height in U. rewrite Eh in U.
    unfold process_row, row_try. rewrite Ea, Eb, Ec.
    destruct (height_cases c) as [(x & y & Ef & Er) | Ef];
      [rewrite Ef in U; discriminate|].
    rewrite Ef. cbn [bind]. cbn [caught_by existsb exn_eqb orb].
    unfold bound in B. destruct (full_datetime_str st) eqn:F;
      [|congruence].
    eexists _, _. split; [reflexivity|]. unfold bound. congruence.
  - rewrite (process_row_skips rw st R). eexists _, _.
    split; [reflexivity | exact B].
Qed.

Lemma rows_bound (rows : list row) (st : locals) :
  bound st ->
  exists out st',
    for_each rows st (process_row date_obj tz) = (out, Ok st').
Proof.
  revert st. induction rows as [|rw rows IH]; intros st B.
  - eexists _, _. reflexivity.
  - destruct (process_row_bound rw st B) as (o & st1 & E & B1).
    destruct (IH st1 B1) as (o2 & st2 & E2).
    simpl. rewrite E. simpl. rewrite E2. eauto.
Qed.

(** The loop over the rows, started with [full_datetime_str] unbound:
    what happens is settled by the first row that reaches the [try]. *)
Lemma rows_unbound (rows : list row) (st : locals) :
  full_datetime_str st = None ->
  match find reaches_try rows with
  | None => for_each rows st (process_row date_obj tz) = ([], Ok st)
  | Some rw =>
      if unreadable_height rw
      then for_each rows st (process_row date_obj tz)
           = ([], Raise UnboundLocalError)
      else exists out st',
             for_each rows st (process_row date_obj tz) = (out, Ok st')
  end.
Proof.
  intros N. induction rows as [|rw rows IH]; [reflexivity|].
  cbn [find for_each]. destruct (reaches_try rw) eqn:R.
  - destruct (unreadable_height rw) eqn:U.
    + rewrite (process_row_unreadable_unbound rw st U N). reflexivity.
    + destruct (process_row_readable rw st R U) as (o & st1 & E & B1).
      destruct (rows_bound rows st1 B1) as (o2 & st2 & E2).
      rewrite E. simpl. rewrite E2. eauto.
  - rewrite (process_row_skips rw st R). unfold io_ret, io_bind.
    destruct (find reaches_try rows) as [rw'|].
    + destruct (unreadable_height rw').
      * rewrite IH. reflexivity.
      * destruct IH as (o & st' & E). rewrite E. eauto.
    + rewrite IH. reflexivity.
Qed.

(** *** The records of the rows, in the order of the page *)

Lemma from_row_process (rw : row) (r : tide) (st : locals) :
  from_row date_obj tz rw r ->
  exists st',
    process_row date_obj tz rw st = ([], Ok st')
    /\ daily_records st' = daily_records st ++ [r].
Proof.
  intros (a & b & c & Ea & Eb & Ec & (x & Ef & Er) & Et & Ety).
  unfold process_row, row_try. rewrite Ea, Eb, Ec, Ef. cbn [bind].
  rewrite Er.
  destruct (Week.combine date_obj tz (strip b)) as [fds iso].
  simpl in Et. subst iso. eexists. split; [reflexivity|].
  destruct r as [t ty h]. simpl in *. subst. reflexivity.
Qed.

Lemma from_row_functional (rw : row) (r r' : tide) :
  from_row date_obj tz rw r -> from_row date_obj tz rw r' -> r = r'.
Proof.
  intros H H'.
  destruct (from_row_process rw r (Locals [] None) H) as (s1 & E1 & D1).
  destruct (from_row_process rw r' (Locals [] None) H') as (s2 & E2 & D2).
  rewrite E1 in E2. inversion E2; subst. rewrite D1 in D2.
  simpl in D2. congruence.
Qed.

Lemma rows_in_order (rows : list row) :
  forall (st st' : locals) (out : list event),
    for_each rows st (process_row date_obj tz) = (out, Ok st') ->
    exists rws new,
      daily_records st' = daily_records st ++ new
      /\ subsequence rws rows
      /\ Forall2 (from_row date_obj tz) rws new
      /\ (forall rw r, In rw rows -> from_row date_obj tz rw r -> In r new)
      /\ records_of_rows date_obj tz rows new.
Proof.
  induction rows as [|rw rows IH]; intros st st' out H.
  - inversion H; subst. exists [], []. rewrite app_nil_r.
    split; [reflexivity|]. split; [constructor|].
    split; [constructor|]. split; [intros ? ? []|constructor].
  - cbn [for_each] in H.
    destruct (process_row date_obj tz rw st) as [o1 [st1|e]] eqn:E1;
      [|discriminate].
    unfold io_bind in H.
    destruct (for_each rows st1 (process_row date_obj tz))
      as [o2 [st2|e]] eqn:E2; [|discriminate].
    inversion H; subst. clear H.
    destruct (IH st1 st' o2 E2) as (rws & new & D & Sub & F2 & C & R).
    destruct (process_row_records date_obj tz rw st st1 o1 E1)
      as [D1 | (r & D1 & Hr)].
    + assert (No : forall r', ~ from_row date_obj tz rw r').
      { intros r' Hfr.
        destruct (from_row_process rw r' st Hfr) as (s & Es & Ds).
        rewrite E1 in Es. inversion Es; subst.
        rewrite D1 in Ds.
        apply (f_equal (@List.length tide)) in Ds.
        rewrite length_app in Ds. simpl in Ds. lia. }
      exists rws, new. split; [congruence|].
      split; [constructor; exact Sub|]. split; [exact F2|].
      split; [|apply Rows_nothing; assumption].
      intros rw' r' [<-|Hin] Hfr; [|eauto].
      exfalso. exact (No r' Hfr).
    + exists (rw :: rws), (r :: new).
      split; [rewrite D, D1, <- app_assoc; reflexivity|].
      split; [constructor; exact Sub|].
      split; [constructor; assumption|].
      split; [|apply Rows_record; assumption].
      intros rw' r' [<-|Hin] Hfr.
      * left. eapply from_row_functional; eauto.
      * right. eauto.
Qed.

(** The rows of a page give one batch only. *)
Lemma records_of_rows_functional (rows : list row) :
  forall records records',
    records_of_rows date_obj tz rows records ->
    records_of_rows date_obj tz rows records' ->
    records = records'.
Proof.
  induction rows as [|rw rows IH]; intros records records' H H'.
  - inversion H; inversion H'; reflexivity.
  - inversion H as [|? r ? recs Hr Hrest|? ? ? No Hrest]; subst;
      inversion H' as [|? r' ? recs' Hr' Hrest'|? ? ? No' Hrest']; subst.
    + f_equal; [eapply from_row_functional; eauto | eapply IH; eauto].
    + exfalso. exact (No' r Hr).
    + exfalso. exact (No r' Hr').
    + eapply IH; eauto.
Qed.

End Rows.

(** [scrape_single_day] on a page that has the table. *)
Lemma scrape_single_day_table
      (http_get : str -> Week.response) (date_obj : date) (tz : tzinfo)
      (rows : list Week.row) :
  http_get (day_url date_obj) = Week.Page (Some (Some rows)) ->
  Week.scrape_single_day http_get date_obj tz
  = (Print (Fetching_day (strftime_compact date_obj))
       :: fst (for_each (tide_rows rows) (Week.Locals [] None)
                        (Week.process_row date_obj tz)),
     match snd (for_each (tide_rows rows) (Week.Locals [] None)
                         (Week.process_row date_obj tz)) with
     | Ok st => Ok (Week.daily_records st)
     | Raise e => Raise e
     end).
Proof.
  intros H. unfold Week.scrape_single_day. fold (day_url date_obj).
  rewrite H. unfold tide_rows.
  cbn [lift attr_of io_bind print app].
  match goal with
  | |- context [for_each ?l ?s ?b] => destruct (for_each l s b) as [o [st|e]]
  end; simpl; [rewrite app_nil_r|]; reflexivity.
Qed.

(** X5.  [scrape_single_day] raises in two cases only.  It raises
    [AttributeError] exactly when the page has the [div] of id [tides]
    but no table in it.  It raises [UnboundLocalError] exactly when, among
    the rows that are not column heads, the first one with the three cells
    and the time span has a height that [float] rejects: the handler then
    reads [full_datetime_str] before any row has bound it. *)
Theorem scrape_single_day_raises_in_two_cases
        (http_get : str -> Week.response) (date_obj : date) (tz : tzinfo) :
  let outcome := snd (Week.scrape_single_day http_get date_obj tz) in
  (outcome = Raise AttributeError
   <-> http_get (day_url date_obj) = Week.Page (Some None))
  /\ (outcome = Raise UnboundLocalError
      <-> exists rows rw,
            http_get (day_url date_obj) = Week.Page (Some (Some rows))
            /\ find reaches_try (tide_rows rows) = Some rw
            /\ unreadable_height rw = true)
  /\ (forall e, outcome = Raise e ->
                e = AttributeError \/ e = UnboundLocalError).
Proof.
  cbv zeta.
  destruct (http_get (day_url date_obj)) as [|[[rows|]|]] eqn:Hp;
    [| rewrite (scrape_single_day_table http_get date_obj tz rows Hp)
     | | ]; 
    [unfold Week.scrape_single_day; fold (day_url date_obj); rewrite Hp
    | 
    | unfold Week.scrape_single_day; fold (day_url date_obj); rewrite Hp
    | unfold Week.scrape_single_day; fold (day_url date_obj); rewrite Hp].
  - simpl. repeat split; try discriminate.
    intros (rows & rw & X & _); discriminate.
  - pose proof (rows_unbound date_obj tz (tide_rows rows)
                             (Week.Locals [] None) eq_refl) as L.
    destruct (find reaches_try (tide_rows rows)) as [rw|] eqn:F.
    + destruct (unreadable_height rw) eqn:U.
      * rewrite L. simpl. split; [split; discriminate|].
        split; [|intros e X; inversion X; auto].
        split; [|reflexivity]. intros _. exists rows, rw. auto.
      * destruct L as (o & st' & L). rewrite L. simpl.
        split; [split; discriminate|].
        split; [|discriminate]. split; [discriminate|].
        intros (rows' & rw' & X & F' & U'). inversion X; subst.
        rewrite F in F'. inversion F'; subst. congruence.
    + rewrite L. simpl. split; [split; discriminate|].
      split; [|discriminate]. split; [discriminate|].
      intros (rows' & rw' & X & F' & U'). inversion X; subst.
      rewrite F in F'. discriminate.
  - simpl. split; [split; reflexivity|].
    split; [|intros e X; inversion X; auto].
    split; [discriminate|]. intros (rows & rw & X & _); discriminate.
  - simpl. repeat split; try discriminate.
    intros (rows & rw & X & _); discriminate.
Qed.

(** X6.  The batch that [scrape_single_day] returns is the batch of the
    rows of the page that are not column heads, read row by row: a row
    that gives a record puts it next in the batch, a row that gives none
    puts nothing, so that a row met twice gives its record twice and no
    row that gives a record is left out; and the rows give no other
    batch.  In particular the records are those of a subsequence of the
    rows, in the order of the rows. *)
Theorem scrape_single_day_follows_the_page
        (http_get : str -> Week.response) (date_obj : date) (tz : tzinfo)
        (out : list event) (records : list tide) :
  Week.scrape_single_day http_get date_obj tz = (out, Ok records) ->
  let rows := tide_rows (rows_of (http_get (day_url date_obj))) in
  records_of_rows date_obj tz rows records
  /\ (forall records',
        records_of_rows date_obj tz rows records' -> records' = records)
  /\ (exists rws,
        subsequence rws rows /\ Forall2 (from_row date_obj tz) rws records)
  /\ (forall rw r, In rw rows -> from_row date_obj tz rw r -> In r records).
Proof.
  intros H. cbv zeta.
  assert (Main : exists rws,
             subsequence rws
                         (tide_rows (rows_of (http_get (day_url date_obj))))
             /\ Forall2 (from_row date_obj tz) rws records
             /\ (forall rw r,
                   In rw (tide_rows (rows_of (http_get (day_url date_obj)))) ->
                   from_row date_obj tz rw r -> In r records)
             /\ records_of_rows date_obj tz
                   (tide_rows (rows_of (http_get (day_url date_obj))))
                   records).
  { revert H.
    destruct (http_get (day_url date_obj)) as [|[[rows|]|]] eqn:Hp;
      [| rewrite (scrape_single_day_table http_get date_obj tz rows Hp)
       | | ];
      [unfold Week.scrape_single_day; fold (day_url date_obj); rewrite Hp
      |
      | unfold Week.scrape_single_day; fold (day_url date_obj); rewrite Hp
      | unfold Week.scrape_single_day; fold (day_url date_obj); rewrite Hp].
    - simpl. intros H; inversion H; subst.
      exists []. repeat split; try constructor. intros ? ? [].
    - cbn [rows_of].
      destruct (for_each (tide_rows rows) (Week.Locals [] None)
                         (Week.process_row date_obj tz))
        as [o [st|e]] eqn:E; [|discriminate].
      simpl. intros H; inversion H; subst.
      destruct (rows_in_order date_obj tz (tide_rows rows) _ _ _ E)
        as (rws & new & D & Sub & F2 & C & R).
      simpl in D. rewrite D. exists rws. auto.
    - discriminate.
    - simpl. intros H; inversion H; subst.
      exists []. repeat split; try constructor. intros ? ? []. }
  destruct Main as (rws & Sub & F2 & C & R).
  split; [exact R|].
  split; [intros records' R';
          exact (records_of_rows_functional date_obj tz _ _ _ R' R)|].
  split; [exists rws; auto | exact C].
Qed.

Lemma scrape_single_day_follows_the_page_witness :
  records_of_rows day_2024_06_01 Europe_London
    (tide_rows (rows_of (serving [row_high; row_high]
                                 (day_url day_2024_06_01))))
    [Tide $"2024-06-01T06:15:00+01:00" (Some $"High")
          (S754_finite false 8354177308772270 (-50));
     Tide $"2024-06-01T06:15:00+01:00" (Some $"High")
          (S754_finite false 8354177308772270 (-50))]
  /\ forall records',
       records_of_rows day_2024_06_01 Europe_London
         (tide_rows (rows_of (serving [row_high; row_high]
                                      (day_url day_2024_06_01))))
         records' ->
       records'
       = [Tide $"2024-06-01T06:15:00+01:00" (Some $"High")
               (S754_finite false 8354177308772270 (-50));
          Tide $"2024-06-01T06:15:00+01:00" (Some $"High")
               (S754_finite false 8354177308772270 (-50))].
Proof.
  pose proof (scrape_single_day_follows_the_page
                (serving [row_high; row_high])
                day_2024_06_01 Europe_London
                [Print (Fetching_day $"20240601")]
                [Tide $"2024-06-01T06:15:00+01:00" (Some $"High")
                      (S754_finite false 8354177308772270 (-50));
                 Tide $"2024-06-01T06:15:00+01:00" (Some $"High")
                      (S754_finite false 8354177308772270 (-50))]
                ltac:(vm_compute; reflexivity)) as H.
  cbv zeta in H. split; [exact (proj1 H) | exact (proj1 (proj2 H))].
Defined.

(** X7.  A row that is a column head, or lacks one of the three cells or
    the time span, is passed over without a trace: the page without that
    row gives the same messages and the same outcome. *)
Theorem row_without_cells_changes_nothing
        (http_get http_get' : str -> Week.response) (date_obj : date)
        (tz : tzinfo) (before after : list Week.row) (rw : Week.row) :
  http_get (day_url date_obj)
  = Week.Page (Some (Some (before ++ rw :: after))) ->
  http_get' (day_url date_obj) = Week.Page (Some (Some (before ++ after))) ->
  Week.has_class $"colhead" rw = true \/ reaches_try rw = false ->
  Week.scrape_single_day http_get date_obj tz
  = Week.scrape_single_day http_get' date_obj tz.
Proof.
  intros H1 H2 Hrw.
  rewrite (scrape_single_day_table http_get date_obj tz _ H1).
  rewrite (scrape_single_day_table http_get' date_obj tz _ H2).
  assert (E : for_each (tide_rows (before ++ rw :: after))
                       (Week.Locals [] None) (Week.process_row date_obj tz)
              = for_each (tide_rows (before ++ after))
                         (Week.Locals [] None)
                         (Week.process_row date_obj tz)).
  { unfold tide_rows. rewrite !filter_app. cbn [filter].
    destruct (Week.has_class $"colhead" rw) eqn:C; [reflexivity|].
    destruct Hrw as [?|R]; [discriminate|]. cbn [negb].
    apply for_each_skip. intros st. apply process_row_skips. exact R. }
  rewrite E. reflexivity.
Qed.

Lemma row_without_cells_changes_nothing_witness :
  Week.scrape_single_day
    (serving ([row_high]
                ++ Week.Row [] (Some $"Low") (Some None) (Some $"n/a")
                :: [row_low]))
    day_2024_06_01 Europe_London
  = Week.scrape_single_day (serving ([row_high] ++ [row_low]))
                           day_2024_06_01 Europe_London.
Proof.
  apply (row_without_cells_changes_nothing
           (serving ([row_high]
                       ++ Week.Row [] (Some $"Low") (Some None) (Some $"n/a")
                       :: [row_low]))
           (serving ([row_high] ++ [row_low]))
           day_2024_06_01 Europe_London [row_high] [row_low]
           (Week.Row [] (Some $"Low") (Some None) (Some $"n/a"))
           eq_refl eq_refl).
  right. reflexivity.
Defined.

(** ** The days of a forecast *)

Section Days.

Variables (http_get : str -> Week.response) (today : date) (tz : tzinfo).

Lemma day_step_returns (i : nat) (acc recs : list tide) :
  snd (Week.scrape_single_day http_get (add_days today i) tz) = Ok recs ->
  day_step http_get today tz i acc
  = (day_events http_get tz (add_days today i),
     Ok (acc ++ day_records http_get tz (add_days today i))).
Proof.
  unfold Runs.day_step, day_events, day_records.
  destruct (Week.scrape_single_day http_get (add_days today i) tz)
    as [o r]. simpl. intros ->. simpl. rewrite app_nil_r. reflexivity.
Qed.

Lemma day_step_raises (i : nat) (acc : list tide) (e : exn) :
  snd (Week.scrape_single_day http_get (add_days today i) tz) = Raise e ->
  day_step http_get today tz i acc
  = (day_events http_get tz (add_days today i), Raise e).
Proof.
  unfold Runs.day_step, day_events.
  destruct (Week.scrape_single_day http_get (add_days today i) tz)
    as [o r]. simpl. intros ->. reflexivity.
Qed.

Lemma days_return (idx : list nat) :
  (forall i, In i idx ->
     exists recs,
       snd (Week.scrape_single_day http_get (add_days today i) tz)
       = Ok recs) ->
  forall acc,
    for_each idx acc (day_step http_get today tz)
    = (List.concat (map (fun i => day_events http_get tz (add_days today i)) idx),
       Ok (acc ++ List.concat (map (fun i => day_records http_get tz
                                                    (add_days today i))
                              idx))).
Proof.
  induction idx as [|i idx IH]; intros H acc.
  - simpl. rewrite app_nil_r. reflexivity.
  - destruct (H i (or_introl eq_refl)) as (recs & E).
    cbn [for_each map List.concat]. rewrite (day_step_returns i acc recs E).
    unfold io_bind. rewrite IH by (intros j Hj; apply H; right; exact Hj).
    rewrite <- app_assoc. reflexivity.
Qed.

Lemma days_raise (pre post : list nat) (k : nat) (e : exn) :
  (forall i, In i pre ->
     exists recs,
       snd (Week.scrape_single_day http_get (add_days today i) tz)
       = Ok recs) ->
  snd (Week.scrape_single_day http_get (add_days today k) tz) = Raise e ->
  forall acc,
    for_each (pre ++ k :: post) acc (day_step http_get today tz)
    = (List.concat (map (fun i => day_events http_get tz (add_days today i))
                   (pre ++ [k])),
       Raise e).
Proof.
  induction pre as [|i pre IH]; intros H E acc.
  - cbn [app for_each map List.concat]. rewrite (day_step_raises k acc e E).
    simpl. rewrite app_nil_r. reflexivity.
  - destruct (H i (or_introl eq_refl)) as (recs & Ei).
    cbn [app for_each map List.concat]. rewrite (day_step_returns i acc recs Ei).
    unfold io_bind.
    rewrite IH by (try (intros j Hj; apply H; right; exact Hj); exact E).
    reflexivity.
Qed.

End Days.

(** The days of a run in which every day returns a batch. *)
Lemma collect_days_all_return
      (http_get : str -> Week.response) (today : date) (tz : tzinfo) :
  (forall d, In d (forecast_days today) ->
     exists recs, snd (Week.scrape_single_day http_get d tz) = Ok recs) ->
  Week.collect_days http_get today tz
  = (List.concat (map (day_events http_get tz) (forecast_days today)),
     Ok (List.concat (map (day_records http_get tz) (forecast_days today)))).
Proof.
  intros H. unfold Week.collect_days. fold (day_step http_get today tz).
  rewrite days_return.
  - unfold forecast_days. rewrite !map_map. reflexivity.
  - intros i Hi. apply H. unfold forecast_days. apply in_map. exact Hi.
Qed.

(** X8.  The weekly run fetches the seven days from today on, one after
    the other.  When every day returns a batch, the batch collected is
    the batches of the days put end to end in day order, with nothing
    merged, dropped or reordered.  When a day raises, the run stops with
    that exception: the days after it are not fetched. *)
Theorem collect_days_concatenates
        (http_get : str -> Week.response) (today : date) (tz : tzinfo) :
  ((forall d, In d (forecast_days today) ->
      exists recs, snd (Week.scrape_single_day http_get d tz) = Ok recs) ->
   Week.collect_days http_get today tz
   = (List.concat (map (day_events http_get tz) (forecast_days today)),
      Ok (List.concat (map (day_records http_get tz) (forecast_days today)))))
  /\ (forall (k : nat) (e : exn),
        (k < Week.DAYS_TO_FORECAST)%nat ->
        (forall j, (j < k)%nat ->
           exists recs,
             snd (Week.scrape_single_day http_get (add_days today j) tz)
             = Ok recs) ->
        snd (Week.scrape_single_day http_get (add_days today k) tz)
        = Raise e ->
        Week.collect_days http_get today tz
        = (List.concat (map (day_events http_get tz)
                       (firstn (S k) (forecast_days today))),
           Raise e)).
Proof.
  split; [apply collect_days_all_return|].
  - intros k e Hk Hpre Hraise.
    unfold Week.collect_days. fold (day_step http_get today tz).
    assert (S : seq 0 Week.DAYS_TO_FORECAST
                = seq 0 k ++ k :: seq (S k) (Week.DAYS_TO_FORECAST - S k)).
    { replace Week.DAYS_TO_FORECAST
        with (k + S (Week.DAYS_TO_FORECAST - S k))%nat at 1 by lia.
      rewrite seq_app. reflexivity. }
    rewrite S.
    rewrite (days_raise http_get today tz (seq 0 k) _ k e); [| |exact Hraise].
    + f_equal. unfold forecast_days. rewrite S.
      assert (F : forall rest,
                 firstn (Datatypes.S k) (seq 0 k ++ k :: rest)
                 = seq 0 k ++ [k]).
      { intros rest. rewrite firstn_app, length_seq.
        replace (Datatypes.S k - k)%nat with 1%nat by lia.
        rewrite firstn_all2 by (rewrite length_seq; lia). reflexivity. }
      rewrite firstn_map, F, map_map. reflexivity.
    + intros i Hi. apply in_seq in Hi. apply Hpre. lia.
Qed.

Lemma collect_days_concatenates_witness :
  Week.collect_days (serving [row_low; row_high]) day_2024_06_01 Europe_London
  = (List.concat (map (day_events (serving [row_low; row_high]) Europe_London)
                 (forecast_days day_2024_06_01)),
     Ok (List.concat (map (day_records (serving [row_low; row_high]) Europe_London)
                     (forecast_days day_2024_06_01)))).
Proof.
  apply (proj1 (collect_days_concatenates (serving [row_low; row_high])
                                          day_2024_06_01 Europe_London)).
  intros d Hd. vm_compute in Hd.
  repeat (destruct Hd as [<-|Hd]; [eexists; vm_compute; reflexivity|]).
  destruct Hd.
Defined.

(** X9.  [main] of the weekly script, when every day returns a batch,
    hands the batches of the seven days put end to end to the storage
    client in one call (none when they are all empty), with the table
    [tides] and the conflict column [tide_time], and returns whatever the
    client does.  When a day raises, [main] raises the same exception and
    the client is not called. *)
Theorem week_main_stores_the_collected_batch
        (http_get : str -> Week.response) (supabase : storage)
        (today : date) :
  ((forall d, In d (forecast_days today) ->
      exists recs,
        snd (Week.scrape_single_day http_get d Europe_London) = Ok recs) ->
   snd (Week.main http_get supabase today) = Ok tt
   /\ upserts (fst (Week.main http_get supabase today))
      = upsert_of (List.concat (map (day_records http_get Europe_London)
                               (forecast_days today))))
  /\ (forall e,
        snd (Week.collect_days http_get today Europe_London) = Raise e ->
        snd (Week.main http_get supabase today) = Raise e
        /\ upserts (fst (Week.main http_get supabase today)) = []).
Proof.
  pose proof (collect_days_only_prints http_get today Europe_London) as O.
  split.
  - intros H.
    pose proof (collect_days_all_return http_get today Europe_London H) as E.
    set (out := List.concat (map (day_events http_get Europe_London)
                            (forecast_days today))) in *.
    set (records := List.concat (map (day_records http_get Europe_London)
                                (forecast_days today))) in *.
    rewrite E in O. simpl in O.
    unfold Week.main, Week.run_weekly_scraper. rewrite E.
    destruct records as [|r records].
    + split; [reflexivity|]. simpl.
      rewrite !upserts_app, (upserts_only_prints out O). reflexivity.
    + pose proof (guarded_upsert supabase (r :: records)
                                 Week_upsert_succeeded Week_upsert_failed
                                 Week_upsert_hint) as [G1 G2].
      cbv zeta in G1, G2.
      change (List.length (r :: records)) with (S (List.length records)).
      cbn [io_bind].
      destruct (io_try _ _ _) as [o2 res]. simpl in G1, G2. subst res.
      unfold io_bind, print. cbn [fst snd app].
      split; [reflexivity|].
      rewrite upserts_cons_print, !upserts_app, (upserts_only_prints out O).
      rewrite upserts_cons_print, G2. reflexivity.
  - intros e E. unfold Week.main, Week.run_weekly_scraper.
    destruct (Week.collect_days http_get today Europe_London) as [out res].
    simpl in E, O. subst res. split; [reflexivity|]. simpl.
    apply (upserts_only_prints out O).
Qed.

Lemma week_main_stores_the_collected_batch_witness :
  snd (Week.main (serving [row_low; row_high]) storage_ok day_2024_06_01)
  = Ok tt
  /\ upserts (fst (Week.main (serving [row_low; row_high]) storage_ok
                             day_2024_06_01))
     = upsert_of (List.concat
                    (map (day_records (serving [row_low; row_high])
                                      Europe_London)
                         (forecast_days day_2024_06_01))).
Proof.
  apply (proj1 (week_main_stores_the_collected_batch
                  (serving [row_low; row_high]) storage_ok day_2024_06_01)).
  intros d Hd. vm_compute in Hd.
  repeat (destruct Hd as [<-|Hd]; [eexists; vm_compute; reflexivity|]).
  destruct Hd.
Defined.

(** ** The normal form of a batch *)

Section NormalForm.

Import Feed.

(** Two lists in strictly ascending order of [tide_time] with the same
    members are the same list. *)
Lemma sorted_same_members (l1 : list tide) :
  forall l2,
    StronglySorted str_lt (map tide_time l1) ->
    StronglySorted str_lt (map tide_time l2) ->
    (forall r, In r l1 <-> In r l2) ->
    l1 = l2.
Proof.
  induction l1 as [|a l1 IH]; intros [|b l2] S1 S2 M.
  - reflexivity.
  - exfalso. apply (proj2 (M b)). left. reflexivity.
  - exfalso. apply (proj1 (M a)). left. reflexivity.
  - simpl in S1, S2. inversion S1 as [|? ? S1' F1]; subst.
    inversion S2 as [|? ? S2' F2]; subst.
    rewrite Forall_forall in F1, F2.
    assert (Lt1 : forall r, In r l1 -> str_ltb (tide_time a) (tide_time r)
                                       = true).
    { intros r Hr. apply F1. apply in_map. exact Hr. }
    assert (Lt2 : forall r, In r l2 -> str_ltb (tide_time b) (tide_time r)
                                       = true).
    { intros r Hr. apply F2. apply in_map. exact Hr. }
    assert (a = b).
    { destruct (proj1 (M a) (or_introl eq_refl)) as [E|Ha]; [auto|].
      destruct (proj2 (M b) (or_introl eq_refl)) as [E|Hb]; [auto|].
      pose proof (Lt2 a Ha) as X. pose proof (Lt1 b Hb) as Y.
      apply str_ltb_asym in X. congruence. }
    subst b. f_equal. apply IH; [assumption | assumption|].
    intros r. split; intros Hr.
    + destruct (proj1 (M r) (or_intror Hr)) as [E|H']; [|exact H'].
      subst r. pose proof (Lt1 a Hr) as X.
      rewrite str_ltb_irrefl in X. discriminate.
    + destruct (proj2 (M r) (or_intror Hr)) as [E|H']; [|exact H'].
      subst r. pose proof (Lt2 a Hr) as X.
      rewrite str_ltb_irrefl in X. discriminate.
Qed.

Lemma unique_records_last_with (rs : list tide) (t : str) :
  last_with t (unique_records rs) = last_with t rs.
Proof.
  destruct (last_with t rs) as [r|] eqn:E.
  - destruct (last_with_key t rs r E) as [Ht _]. subst t.
    assert (Hin : In r (unique_records rs))
      by (apply unique_records_In; exact E).
    destruct (last_with_found (tide_time r) (unique_records rs))
      as (r' & E'); [apply in_map; exact Hin|].
    rewrite E'. f_equal.
    destruct (last_with_key _ _ _ E') as [Ht' Hin'].
    apply unique_records_In in Hin'. rewrite Ht' in Hin'. congruence.
  - destruct (last_with t (unique_records rs)) as [r'|] eqn:E';
      [|reflexivity].
    destruct (last_with_key _ _ _ E') as [Ht' Hin'].
    apply unique_records_In in Hin'. rewrite Ht' in Hin'. congruence.
Qed.

Lemma last_with_app (t : str) (l1 l2 : list tide) :
  last_with t (l1 ++ l2)
  = match last_with t l2 with
    | Some r => Some r
    | None => last_with t l1
    end.
Proof.
  unfold last_with. rewrite rev_app_distr.
  induction (rev l2) as [|x xs IH]; [reflexivity|].
  simpl. destruct (str_eqb (tide_time x) t); [reflexivity | exact IH].
Qed.

Lemma times_injective (rs : list tide) (a b : tide) :
  NoDup (map tide_time rs) -> In a rs -> In b rs ->
  tide_time a = tide_time b -> a = b.
Proof.
  induction rs as [|x rs IH]; intros N Ha Hb E; [destruct Ha|].
  simpl in N. inversion N as [|? ? Nx N']; subst.
  destruct Ha as [<-|Ha], Hb as [<-|Hb]; auto.
  - exfalso. apply Nx. rewrite E. apply in_map. exact Hb.
  - exfalso. apply Nx. rewrite <- E. apply in_map. exact Ha.
Qed.

Lemma last_with_distinct (rs : list tide) (r : tide) :
  NoDup (map tide_time rs) -> In r rs ->
  last_with (tide_time r) rs = Some r.
Proof.
  intros N Hin.
  destruct (last_with_found (tide_time r) rs) as (r' & E);
    [apply in_map; exact Hin|].
  rewrite E. f_equal. destruct (last_with_key _ _ _ E) as [Ht Hin'].
  apply (times_injective rs); assumption.
Qed.

Lemma distinct_times_last_with (rs rs' : list tide) (t : str) :
  NoDup (map tide_time rs) -> Permutation rs rs' ->
  last_with t rs' = last_with t rs.
Proof.
  intros N P.
  assert (N' : NoDup (map tide_time rs')).
  { eapply Permutation_NoDup; [apply Permutation_map; exact P | exact N]. }
  destruct (last_with t rs') as [r|] eqn:E.
  - destruct (last_with_key _ _ _ E) as [Ht Hin]. subst t.
    symmetry. apply last_with_distinct; [exact N|].
    eapply Permutation_in; [symmetry; exact P | exact Hin].
  - destruct (last_with t rs) as [r|] eqn:E2; [|reflexivity].
    destruct (last_with_key _ _ _ E2) as [Ht Hin]. subst t.
    rewrite (last_with_distinct rs' r N') in E; [discriminate|].
    eapply Permutation_in; [exact P | exact Hin].
Qed.

Lemma same_last_records_same_batch (rs rs' : list tide) :
  (forall t, last_with t rs = last_with t rs') ->
  unique_records rs = unique_records rs'.
Proof.
  intros H. apply sorted_same_members; try apply unique_records_sorted.
  intros r. rewrite !unique_records_In, H. reflexivity.
Qed.

End NormalForm.

(** X10.  The deduplicated and sorted batch depends on the records read
    only through the last record read for each timestamp: two lists of
    records give the same batch exactly when, for every timestamp, the
    last record that bears it is the same in both. *)
Theorem unique_records_determined_by_last_records (rs rs' : list tide) :
  Feed.unique_records rs = Feed.unique_records rs'
  <-> (forall t, last_with t rs = last_with t rs').
Proof.
  split.
  - intros E t. rewrite <- (unique_records_last_with rs t), E.
    apply unique_records_last_with.
  - apply same_last_records_same_batch.
Qed.

(** X11.  Deduplicating and sorting a batch that is already deduplicated
    and sorted changes nothing; and when no two records read bear the
    same timestamp, the order in which they were read does not show in
    the batch. *)
Theorem unique_records_idempotent_and_order_free (rs : list tide) :
  Feed.unique_records (Feed.unique_records rs) = Feed.unique_records rs
  /\ (forall rs',
        NoDup (map tide_time rs) -> Permutation rs rs' ->
        Feed.unique_records rs' = Feed.unique_records rs).
Proof.
  split.
  - apply same_last_records_same_batch.
    intros t. apply unique_records_last_with.
  - intros rs' N P. apply same_last_records_same_batch.
    intros t. apply distinct_times_last_with; assumption.
Qed.

Lemma unique_records_idempotent_and_order_free_witness :
  Feed.unique_records
    [Tide $"2024-06-01T12:30:00+01:00" (Some $"Low")
          (S754_finite false 4953959590107546 (-52));
     Tide $"2024-06-01T06:15:00+01:00" (Some $"High")
          (S754_finite false 8354177308772270 (-50))]
  = Feed.unique_records
      [Tide $"2024-06-01T06:15:00+01:00" (Some $"High")
            (S754_finite false 8354177308772270 (-50));
       Tide $"2024-06-01T12:30:00+01:00" (Some $"Low")
            (S754_finite false 4953959590107546 (-52))].
Proof.
  apply (proj2 (unique_records_idempotent_and_order_free
                  [Tide $"2024-06-01T06:15:00+01:00" (Some $"High")
                        (S754_finite false 8354177308772270 (-50));
                   Tide $"2024-06-01T12:30:00+01:00" (Some $"Low")
                        (S754_finite false 4953959590107546 (-52))])).
  - repeat constructor; simpl; intuition discriminate.
  - apply perm_swap.
Defined.

(** ** The feed, entry by entry *)

Section FeedEntries.

Variable tz : tzinfo.

(** What a line adds to the records does not depend on the records read
    before it. *)
Lemma process_line_appends (date_tuple : Z * Z * Z) (raw : str)
      (records : list tide) :
  exists out,
    Feed.process_line tz date_tuple raw records
    = (out, Ok (records ++ line_records tz date_tuple raw)).
Proof.
  unfold line_records.
  destruct (process_line_cases tz date_tuple raw records)
    as [[N E] | [(m & S & L & E) | (m & r & S & L & E)]];
    destruct (process_line_cases tz date_tuple raw [])
      as [[N0 E0] | [(m0 & S0 & L0 & E0) | (m0 & r0 & S0 & L0 & E0)]];
    rewrite E, E0; try congruence; cbn [snd];
    try (rewrite app_nil_r; eauto; fail).
  assert (m0 = m) by congruence. subst m0.
  assert (r0 = r) by congruence. subst r0. eauto.
Qed.

Lemma lines_append (date_tuple : Z * Z * Z) (lines : list str) :
  forall records,
  exists out,
    for_each lines records (Feed.process_line tz date_tuple)
    = (out,
       Ok (records
             ++ List.concat (map (line_records tz date_tuple) lines))).
Proof.
  induction lines as [|raw lines IH]; intros records.
  - exists []. simpl. rewrite app_nil_r. reflexivity.
  - destruct (process_line_appends date_tuple raw records) as (o1 & E1).
    destruct (IH (records ++ line_records tz date_tuple raw))
      as (o2 & E2).
    exists (o1 ++ o2). cbn [for_each map List.concat].
    rewrite E1. unfold io_bind. rewrite E2, <- app_assoc. reflexivity.
Qed.

Lemma process_entry_appends (e : Feed.entry) (records : list tide) :
  has_published_parsed e ->
  exists out,
    Feed.process_entry tz e records
    = (out, Ok (records ++ entry_records tz e)).
Proof.
  unfold has_published_parsed, Feed.process_entry, entry_records.
  destruct (Feed.published_parsed e) as [[d|]|]; intros H.
  - cbn [lift attr_of io_bind].
    destruct (lines_append d (Feed.entry_lines e) records) as (o & E).
    rewrite E. simpl. eauto.
  - simpl. rewrite app_nil_r. eauto.
  - congruence.
Qed.

Lemma entries_append (entries : list Feed.entry) :
  Forall has_published_parsed entries ->
  forall records,
  exists out,
    for_each entries records (Feed.process_entry tz)
    = (out,
       Ok (records ++ List.concat (map (entry_records tz) entries))).
Proof.
  induction entries as [|e entries IH]; intros H records.
  - exists []. simpl. rewrite app_nil_r. reflexivity.
  - inversion H as [|? ? He H']; subst.
    destruct (process_entry_appends e records He) as (o1 & E1).
    destruct (IH H' (records ++ entry_records tz e)) as (o2 & E2).
    exists (o1 ++ o2). cbn [for_each map List.concat].
    rewrite E1. unfold io_bind. rewrite E2, <- app_assoc. reflexivity.
Qed.

End FeedEntries.

Lemma entry_records_perm (tz : tzinfo) (entries entries' : list Feed.entry) :
  Permutation entries entries' ->
  Permutation (List.concat (map (entry_records tz) entries))
              (List.concat (map (entry_records tz) entries')).
Proof.
  intros P. induction P; cbn [map List.concat].
  - constructor.
  - apply Permutation_app_head. exact IHP.
  - rewrite !app_assoc. apply Permutation_app_tail. apply Permutation_app_comm.
  - eapply Permutation_trans; eauto.
Qed.

(** X12.  When every entry of the feed has the key [published_parsed],
    the batch returned is the deduplicated and sorted list of the
    records of the entries, each entry read on its own: what an entry or
    a line gives does not depend on what was read before it.  So an entry
    that comes again later in the feed makes its earlier copy count for
    nothing; and the entries can come in any order, as long as no two
    lines give the same timestamp. *)
Theorem parse_tide_feed_entry_by_entry (entries : list Feed.entry) :
  Forall has_published_parsed entries ->
  snd (Feed.parse_tide_feed entries)
  = Ok (Feed.unique_records
          (List.concat (map (entry_records Europe_London) entries)))
  /\ (forall before between after e,
        entries = before ++ e :: between ++ e :: after ->
        snd (Feed.parse_tide_feed (before ++ between ++ e :: after))
        = snd (Feed.parse_tide_feed entries))
  /\ (forall entries',
        Permutation entries entries' ->
        NoDup (map tide_time
                   (List.concat (map (entry_records Europe_London) entries))) ->
        snd (Feed.parse_tide_feed entries')
        = snd (Feed.parse_tide_feed entries)).
Proof.
  assert (Body : forall es, Forall has_published_parsed es ->
            snd (Feed.parse_tide_feed es)
            = Ok (Feed.unique_records
                    (List.concat (map (entry_records Europe_London) es)))).
  { intros es H. rewrite parse_tide_feed_outcome.
    destruct (entries_append Europe_London es H []) as (o & E).
    rewrite E. reflexivity. }
  intros H. split; [apply Body; exact H|]. split.
  - intros before between after e ->.
    assert (H' : Forall has_published_parsed
                        (before ++ between ++ e :: after)).
    { rewrite !Forall_app in *. destruct H as (Hb & H).
      inversion H as [|? ? He H1]; subst. rewrite Forall_app in H1.
      tauto. }
    rewrite (Body _ H), (Body _ H'). f_equal.
    apply same_last_records_same_batch. intros t.
    repeat (rewrite ?map_app, ?concat_app; cbn [map List.concat]).
    rewrite !last_with_app.
    destruct (last_with t (List.concat (map (entry_records Europe_London)
                                            after))); [reflexivity|].
    destruct (last_with t (entry_records Europe_London e)); [reflexivity|].
    destruct (last_with t (List.concat (map (entry_records Europe_London)
                                            between))); reflexivity.
  - intros entries' P N.
    assert (H' : Forall has_published_parsed entries').
    { rewrite Forall_forall in *. intros x Hx. apply H.
      eapply Permutation_in; [symmetry; exact P | exact Hx]. }
    rewrite (Body _ H), (Body _ H'). f_equal.
    apply same_last_records_same_batch. intros t.
    apply distinct_times_last_with; [exact N|].
    apply entry_records_perm. exact P.
Qed.

Lemma parse_tide_feed_entry_by_entry_witness :
  snd (Feed.parse_tide_feed
         [entry_of $"06:15 - High Tide (7.42m)";
          entry_of $"12:30 - Low Tide (1.10m)";
          entry_of $"06:15 - High Tide (7.42m)"])
  = Ok (Feed.unique_records
          (List.concat
             (map (entry_records Europe_London)
                  [entry_of $"06:15 - High Tide (7.42m)";
                   entry_of $"12:30 - Low Tide (1.10m)";
                   entry_of $"06:15 - High Tide (7.42m)"]))).
Proof.
  apply (proj1 (parse_tide_feed_entry_by_entry
                  [entry_of $"06:15 - High Tide (7.42m)";
                   entry_of $"12:30 - Low Tide (1.10m)";
                   entry_of $"06:15 - High Tide (7.42m)"]
                  ltac:(repeat constructor; discriminate))).
Defined.

(** ** The text of a timestamp *)

Section Digits.

Lemma ord_digit_chr (n : Z) : ord (digit_chr n) = 48 + n mod 10.
Proof.
  unfold ord, digit_chr.
  pose proof (Z.mod_pos_bound n 10 ltac:(lia)) as B.
  rewrite N_ascii_embedding by lia. lia.
Qed.

Lemma length_digits_fixed (w : nat) :
  forall n, List.length (digits_fixed w n) = w.
Proof.
  induction w as [|w IH]; intros n; [reflexivity|].
  simpl. rewrite length_app, IH. simpl. lia.
Qed.

Lemma extra_digits_bound (fuel : nat) :
  forall (n : Z) (w : nat),
    n < 10 ^ Z.of_nat (S w) -> (extra_digits fuel n <= w)%nat.
Proof.
  induction fuel as [|f IH]; intros n w H; simpl; [lia|].
  destruct (n <? 10) eqn:E; [lia|]. apply Z.ltb_ge in E.
  destruct w as [|w]; [simpl in H; lia|].
  apply le_n_S. apply IH.
  rewrite Nat2Z.inj_succ, Z.pow_succ_r in H by lia.
  apply Z.div_lt_upper_bound; lia.
Qed.

(** Below [10^w] the format [%0wd] gives exactly [w] digits. *)
Lemma fmt_d_fixed (w : nat) (n : Z) :
  n < 10 ^ Z.of_nat (S w) -> fmt_d (S w) n = digits_fixed (S w) n.
Proof.
  intros H. unfold fmt_d.
  pose proof (extra_digits_bound (Z.to_nat n) n w H).
  rewrite Nat.max_l by lia. reflexivity.
Qed.

Lemma str_ltb_cons_same (c : ascii) (s t : str) :
  str_ltb (c :: s) (c :: t) = str_ltb s t.
Proof. simpl. rewrite Z.ltb_irrefl. reflexivity. Qed.

(** Zero-padded numbers of the same width compare as texts the way they
    compare as numbers. *)
Lemma str_ltb_digits_fixed (w : nat) :
  forall (a b : Z) (s t : str),
    0 <= a < 10 ^ Z.of_nat w -> 0 <= b < 10 ^ Z.of_nat w ->
    str_ltb (digits_fixed w a ++ s) (digits_fixed w b ++ t)
    = if a <? b then true else if b <? a then false else str_ltb s t.
Proof.
  induction w as [|w IH]; intros a b s t Ha Hb.
  - simpl in Ha, Hb. assert (a = 0) by lia. assert (b = 0) by lia.
    subst. reflexivity.
  - rewrite Nat2Z.inj_succ, Z.pow_succ_r in Ha, Hb by lia.
    cbn [digits_fixed]. rewrite <- !app_assoc. cbn [app].
    rewrite IH by (split; [apply Z.div_pos; lia
                          | apply Z.div_lt_upper_bound; lia]).
    cbn [str_ltb]. rewrite !ord_digit_chr.
    pose proof (Z.div_mod a 10 ltac:(lia)) as Da.
    pose proof (Z.div_mod b 10 ltac:(lia)) as Db.
    pose proof (Z.mod_pos_bound a 10 ltac:(lia)) as Ma.
    pose proof (Z.mod_pos_bound b 10 ltac:(lia)) as Mb.
    destruct (a / 10 <? b / 10) eqn:E1;
      [apply Z.ltb_lt in E1; destruct (a <? b) eqn:E; [reflexivity|];
       apply Z.ltb_ge in E; lia|].
    destruct (b / 10 <? a / 10) eqn:E2;
      [apply Z.ltb_lt in E2; destruct (a <? b) eqn:E;
       [apply Z.ltb_lt in E; lia|];
       destruct (b <? a) eqn:E'; [reflexivity|];
       apply Z.ltb_ge in E'; lia|].
    apply Z.ltb_ge in E1, E2.
    destruct (48 + a mod 10 <? 48 + b mod 10) eqn:E3;
      [apply Z.ltb_lt in E3; destruct (a <? b) eqn:E; [reflexivity|];
       apply Z.ltb_ge in E; lia|].
    destruct (48 + b mod 10 <? 48 + a mod 10) eqn:E4;
      [apply Z.ltb_lt in E4; destruct (a <? b) eqn:E;
       [apply Z.ltb_lt in E; lia|];
       destruct (b <? a) eqn:E'; [reflexivity|];
       apply Z.ltb_ge in E'; lia|].
    apply Z.ltb_ge in E3, E4.
    assert (a = b) by lia. subst b. rewrite Z.ltb_irrefl. reflexivity.
Qed.

Lemma str_ltb_fmt_d (w : nat) (a b : Z) (s t : str) :
  0 <= a < 10 ^ Z.of_nat (S w) -> 0 <= b < 10 ^ Z.of_nat (S w) ->
  str_ltb (fmt_d (S w) a ++ s) (fmt_d (S w) b ++ t)
  = if a <? b then true else if b <? a then false else str_ltb s t.
Proof.
  intros Ha Hb. rewrite !fmt_d_fixed by lia.
  apply str_ltb_digits_fixed; assumption.
Qed.

End Digits.

Section Timestamps.

Lemma valid_datetime_bounds (dt : datetime) :
  valid_datetime dt ->
  1 <= year dt <= 9999 /\ 1 <= month dt <= 12 /\ 1 <= day dt <= 31
  /\ 0 <= hour dt <= 23 /\ 0 <= minute dt <= 59.
Proof.
  unfold valid_datetime, valid_date, valid_time. intros [D T].
  rewrite !andb_true_iff, !Z.leb_le in D, T.
  assert (days_in_month (year dt) (month dt) <= 31).
  { unfold days_in_month.
    destruct (month dt =? 2); [destruct (is_leap (year dt)); lia|].
    destruct ((month dt =? 4) || (month dt =? 6) || (month dt =? 9)
              || (month dt =? 11)); lia. }
  lia.
Qed.

(** The text of a timestamp orders as the wall clock does. *)
Lemma isoformat_order (tz : tzinfo) (a b : datetime) :
  valid_datetime a -> valid_datetime b ->
  str_ltb (isoformat (replace_tzinfo a tz)) (isoformat (replace_tzinfo b tz))
  = wall_ltb a b.
Proof.
  intros Va Vb.
  pose proof (valid_datetime_bounds a Va) as Ba.
  pose proof (valid_datetime_bounds b Vb) as Bb.
  unfold isoformat, replace_tzinfo, utcoffset, wall_ltb.
  cbn [naive zone].
  change ($"-") with ["-"%char]. change ($"T") with ["T"%char].
  change ($":") with [":"%char]. cbn [app].
  rewrite (str_ltb_fmt_d 3) by (simpl; lia).
  rewrite str_ltb_cons_same, (str_ltb_fmt_d 1) by (simpl; lia).
  rewrite str_ltb_cons_same, (str_ltb_fmt_d 1) by (simpl; lia).
  rewrite str_ltb_cons_same, (str_ltb_fmt_d 1) by (simpl; lia).
  rewrite str_ltb_cons_same, (str_ltb_fmt_d 1) by (simpl; lia).
  destruct (year a <? year b) eqn:Y1; [reflexivity|].
  destruct (year b <? year a) eqn:Y2; [reflexivity|].
  destruct (month a <? month b) eqn:M1; [reflexivity|].
  destruct (month b <? month a) eqn:M2; [reflexivity|].
  destruct (day a <? day b) eqn:D1; [reflexivity|].
  destruct (day b <? day a) eqn:D2; [reflexivity|].
  destruct (hour a <? hour b) eqn:H1; [reflexivity|].
  destruct (hour b <? hour a) eqn:H2; [reflexivity|].
  destruct (minute a <? minute b) eqn:I1; [reflexivity|].
  destruct (minute b <? minute a) eqn:I2; [reflexivity|].
  rewrite Z.ltb_ge in *.
  assert (E : a = b).
  { destruct a, b; simpl in *; f_equal; lia. }
  subst b. apply str_ltb_irrefl.
Qed.

(** The offset that the London zone gives is no hour or one hour. *)
Lemma london_offset (dt : datetime) :
  format_offset (Europe_London dt) = $"+00:00"
  \/ format_offset (Europe_London dt) = $"+01:00".
Proof.
  unfold Europe_London.
  destruct (_ && _); [right | left]; reflexivity.
Qed.

Lemma isoformat_length (dt : datetime) :
  valid_datetime dt -> List.length (london_iso dt) = 25%nat.
Proof.
  intros V. pose proof (valid_datetime_bounds dt V) as B.
  unfold london_iso, isoformat, replace_tzinfo, utcoffset.
  cbn [naive zone].
  rewrite (fmt_d_fixed 3), !(fmt_d_fixed 1) by (simpl; lia).
  rewrite !length_app, !length_digits_fixed.
  destruct (london_offset dt) as [-> | ->]; reflexivity.
Qed.

(** What the feed pipeline makes of a date and a time is the text of a
    date and time that exist on the calendar and the clock. *)
Lemma feed_combine_ok (tz : tzinfo) (date_tuple : Z * Z * Z)
      (t : option str) (iso : str) :
  Feed.combine tz date_tuple t = Ok iso ->
  exists dt,
    valid_datetime dt /\ iso = isoformat (replace_tzinfo dt tz)
    /\ (year dt, month dt, day dt) = date_tuple.
Proof.
  destruct date_tuple as [[y m] d]. unfold Feed.combine, datetime_new.
  destruct (valid_date y m d) eqn:V; cbn [bind]; [|discriminate].
  destruct (attr_of t) as [t1|]; cbn [bind]; [|discriminate].
  destruct (subscript (split ":" t1) 0) as [h0|]; cbn [bind];
    [|discriminate].
  destruct (int_of_str h0) as [h|]; cbn [bind]; [|discriminate].
  destruct (subscript (split ":" t1) 1) as [m0|]; cbn [bind];
    [|discriminate].
  destruct (int_of_str m0) as [mi|]; cbn [bind]; [|discriminate].
  unfold replace_time. cbn [year month day].
  destruct (valid_time h mi) eqn:T; cbn [bind]; [|discriminate].
  intros X; inversion X; subst.
  exists (DateTime y m d h mi). split; [split; assumption|].
  split; reflexivity.
Qed.

Lemma strptime_ok (s : str) (dt : datetime) :
  strptime s = Ok dt -> valid_datetime dt.
Proof.
  unfold strptime.
  destruct (re_match strptime_re s) as [[caps rest]|]; [|discriminate].
  destruct rest; [|discriminate].
  destruct (g <- attr_of (group 1 caps) ;; int_of_str g) as [Y|];
    cbn [bind]; [|discriminate].
  destruct (g <- attr_of (group 2 caps) ;; int_of_str g) as [m|];
    cbn [bind]; [|discriminate].
  destruct (g <- attr_of (group 3 caps) ;; int_of_str g) as [d|];
    cbn [bind]; [|discriminate].
  destruct (g <- attr_of (group 4 caps) ;; int_of_str g) as [H|];
    cbn [bind]; [|discriminate].
  destruct (g <- attr_of (group 5 caps) ;; int_of_str g) as [M|];
    cbn [bind]; [|discriminate].
  unfold datetime_new. destruct (valid_date Y m d) eqn:V; cbn [bind];
    [|discriminate].
  unfold replace_time. cbn [year month day].
  destruct (valid_time H M) eqn:T; [|discriminate].
  intros X; inversion X; subst. split; assumption.
Qed.

Lemma week_combine_ok (date_obj : date) (tz : tzinfo) (t iso : str) :
  snd (Week.combine date_obj tz t) = Ok iso ->
  exists dt, valid_datetime dt /\ iso = isoformat (replace_tzinfo dt tz).
Proof.
  unfold Week.combine. cbn [snd].
  destruct (strptime _) as [dt|] eqn:E; cbn [bind]; [|discriminate].
  intros X; inversion X; subst. exists dt.
  split; [eapply strptime_ok; eauto | reflexivity].
Qed.

Lemma sorted_by_wall_clock (dts : list datetime) :
  Forall valid_datetime dts ->
  StronglySorted str_lt (map london_iso dts) ->
  StronglySorted wall_lt dts.
Proof.
  induction dts as [|a dts IH]; intros V S; [constructor|].
  inversion V as [|? ? Va V']; subst.
  simpl in S. inversion S as [|? ? S' F]; subst.
  constructor; [apply IH; assumption|].
  apply Forall_forall. intros b Hb. rewrite Forall_forall in V', F.
  pose proof (F (london_iso b) (in_map _ _ _ Hb)) as L.
  unfold str_lt, london_iso in L.
  rewrite (isoformat_order Europe_London a b Va (V' b Hb)) in L. exact L.
Qed.

Lemma timestamps_exist (records : list tide) :
  Forall (fun r => exists dt, valid_datetime dt
                              /\ tide_time r = london_iso dt) records ->
  exists dts, Forall valid_datetime dts
              /\ map tide_time records = map london_iso dts.
Proof.
  induction 1 as [|r records (dt & V & E) _ (dts & Vs & Es)].
  - exists []. split; constructor.
  - exists (dt :: dts). split; [constructor; assumption|].
    simpl. congruence.
Qed.

End Timestamps.

(** X13.  The batch that [parse_tide_feed] returns is in chronological
    order of the wall clock: each [tide_time] is the ISO text of a date
    and time that exist, and these dates and times are strictly ascending
    by year, month, day, hour and minute.  Sorting by the text, as the
    code does, is sorting by local date and time. *)
Theorem parse_tide_feed_ascending_wall_clock
        (entries : list Feed.entry) (out : list event)
        (records : list tide) :
  Feed.parse_tide_feed entries = (out, Ok records) ->
  exists dts,
    map tide_time records = map london_iso dts
    /\ Forall valid_datetime dts
    /\ StronglySorted wall_lt dts.
Proof.
  intros H. destruct (parse_tide_feed_returns entries out records H)
    as [F S].
  destruct (timestamps_exist records) as (dts & V & E).
  { eapply Forall_impl; [|exact F].
    intros r (_ & _ & _ & e & d & raw & h & _ & _ & _ & Hl & _).
    destruct Hl as (m & t & _ & _ & _ & _ & Hc & _).
    destruct (feed_combine_ok _ _ _ _ Hc) as (dt & V & E & _). eauto. }
  exists dts. split; [exact E|]. split; [exact V|].
  apply sorted_by_wall_clock; [exact V|]. rewrite <- E. exact S.
Qed.

Lemma parse_tide_feed_ascending_wall_clock_witness :
  exists dts,
    map tide_time
        [Tide $"2024-06-01T06:15:00+01:00" (Some $"High")
              (S754_finite false 8354177308772270 (-50));
         Tide $"2024-06-01T12:30:00+01:00" (Some $"Low")
              (S754_finite false 4953959590107546 (-52))]
    = map london_iso dts
    /\ Forall valid_datetime dts
    /\ StronglySorted wall_lt dts.
Proof.
  apply (parse_tide_feed_ascending_wall_clock
           [entry_of $"12:30 - Low Tide (1.10m)";
            entry_of $"06:15 - High Tide (7.42m)"]
           [Print (Fetching_feed Feed.TIDE_FEED_URL)]).
  vm_compute. reflexivity.
Defined.

(** ** Reading back the digits of a date and a time *)

Section ReadDigits.

Lemma digit_chr_decimal (n : Z) : Py_UNICODE_ISDECIMAL (digit_chr n) = true.
Proof.
  unfold Py_UNICODE_ISDECIMAL, in_range. rewrite ord_digit_chr.
  pose proof (Z.mod_pos_bound n 10 ltac:(lia)).
  apply andb_true_iff. rewrite !Z.leb_le. lia.
Qed.

Lemma digits_fixed_decimal (w : nat) :
  forall n, forallb Py_UNICODE_ISDECIMAL (digits_fixed w n) = true.
Proof.
  induction w as [|w IH]; intros n; [reflexivity|].
  simpl. rewrite forallb_app, IH. simpl.
  rewrite digit_chr_decimal. reflexivity.
Qed.

Lemma digit_val_digit_chr (n : Z) : digit_val (digit_chr n) = n mod 10.
Proof. unfold digit_val. rewrite ord_digit_chr. lia. Qed.

Lemma Z_of_digits_fixed (w : nat) :
  forall n, 0 <= n < 10 ^ Z.of_nat w -> Z_of_digits (digits_fixed w n) = n.
Proof.
  induction w as [|w IH]; intros n H.
  - simpl in H. unfold Z_of_digits. simpl. lia.
  - rewrite Nat2Z.inj_succ, Z.pow_succ_r in H by lia.
    cbn [digits_fixed]. rewrite Z_of_digits_snoc, digit_val_digit_chr.
    rewrite IH by (split; [apply Z.div_pos; lia
                          | apply Z.div_lt_upper_bound; lia]).
    pose proof (Z.div_mod n 10 ltac:(lia)). lia.
Qed.

Lemma span_all (p : ascii -> bool) (s : str) :
  forallb p s = true -> span p s = (s, []).
Proof.
  induction s as [|c s IH]; simpl; [reflexivity|].
  intros H. apply andb_true_iff in H. destruct H as [Hc Hs].
  rewrite Hc, (IH Hs). reflexivity.
Qed.

Lemma decimal_digit_or_dot (s : str) :
  forallb Py_UNICODE_ISDECIMAL s = true -> forallb Feed.digit_or_dot s = true.
Proof.
  induction s as [|c s IH]; simpl; [reflexivity|].
  intros H. apply andb_true_iff in H. destruct H as [Hc Hs].
  rewrite (proj2 (decimal_facts c Hc)), (IH Hs). reflexivity.
Qed.

(** [int] of a run of decimal digits is the number they write. *)
Lemma int_of_str_digits (ds : str) :
  ds <> [] -> forallb Py_UNICODE_ISDECIMAL ds = true ->
  int_of_str ds = Ok (Z_of_digits ds).
Proof.
  intros N D. pose proof (decimal_digit_or_dot ds D) as P.
  unfold int_of_str.
  rewrite (ascii_transform_plain ds P).
  rewrite (drop_underscores_plain ds "000"%char eq_refl P).
  rewrite (strip_plain ds P), (parse_sign_plain ds P).
  rewrite (span_all is_ascii_digit ds D).
  destruct ds; [congruence | reflexivity].
Qed.

Lemma int_of_str_fixed (w : nat) (n : Z) :
  0 <= n < 10 ^ Z.of_nat (S w) -> int_of_str (digits_fixed (S w) n) = Ok n.
Proof.
  intros H. rewrite int_of_str_digits.
  - rewrite Z_of_digits_fixed by exact H. reflexivity.
  - cbn [digits_fixed]. intros E. apply app_eq_nil in E.
    destruct E as [_ E]. discriminate.
  - apply digits_fixed_decimal.
Qed.

Lemma hhmm_digits (h mi : Z) :
  0 <= h < 100 -> 0 <= mi < 100 ->
  hhmm h mi = [digit_chr (h / 10); digit_chr h; ":"%char;
               digit_chr (mi / 10); digit_chr mi].
Proof.
  intros Hh Hm. unfold hhmm.
  rewrite !(fmt_d_fixed 1) by (simpl; lia). reflexivity.
Qed.

Lemma hhmm_is_HHMM (h mi : Z) :
  0 <= h < 100 -> 0 <= mi < 100 -> is_HHMM (hhmm h mi) = true.
Proof.
  intros Hh Hm. rewrite hhmm_digits by assumption.
  unfold is_HHMM. rewrite !digit_chr_decimal. reflexivity.
Qed.

Lemma digit_chr_digit_val (c : ascii) :
  Py_UNICODE_ISDECIMAL c = true -> digit_chr (digit_val c) = c.
Proof.
  intros H. apply ord_inj. rewrite ord_digit_chr. unfold digit_val.
  unfold Py_UNICODE_ISDECIMAL, in_range in H.
  apply andb_true_iff in H. rewrite !Z.leb_le in H.
  rewrite Z.mod_small by lia. lia.
Qed.

(** Every text of two digits, a colon and two digits writes an hour and
    a minute below 100. *)
Lemma is_HHMM_hhmm (t : str) :
  is_HHMM t = true ->
  exists h mi, 0 <= h < 100 /\ 0 <= mi < 100 /\ t = hhmm h mi.
Proof.
  intros H. apply is_HHMM_inv in H.
  destruct H as (a & b & d & e & -> & Ha & Hb & Hd & He).
  pose proof (is_ascii_digit_val a Ha) as Va.
  pose proof (is_ascii_digit_val b Hb) as Vb.
  pose proof (is_ascii_digit_val d Hd) as Vd.
  pose proof (is_ascii_digit_val e He) as Ve.
  exists (10 * digit_val a + digit_val b),
         (10 * digit_val d + digit_val e).
  split; [lia|]. split; [lia|].
  rewrite hhmm_digits by lia.
  replace ((10 * digit_val a + digit_val b) / 10) with (digit_val a)
    by (apply Z.div_unique with (r := digit_val b); lia).
  replace ((10 * digit_val d + digit_val e) / 10) with (digit_val d)
    by (apply Z.div_unique with (r := digit_val e); lia).
  assert (M : forall x y, 0 <= y <= 9 ->
                          digit_chr (10 * x + y) = digit_chr y).
  { intros x y Hy. unfold digit_chr. do 3 f_equal.
    rewrite Z.add_comm, Z.mul_comm, Z.mod_add by lia. reflexivity. }
  rewrite !M by lia. rewrite !digit_chr_digit_val by assumption.
  reflexivity.
Qed.

(** The feed pipeline's reading of a date and a time of day. *)
Lemma feed_combine_hhmm (tz : tzinfo) (y m d h mi : Z) :
  0 <= h < 100 -> 0 <= mi < 100 ->
  Feed.combine tz (y, m, d) (Some (hhmm h mi))
  = if valid_date y m d && valid_time h mi
    then Ok (isoformat (replace_tzinfo (DateTime y m d h mi) tz))
    else Raise ValueError.
Proof.
  intros Hh Hm. unfold Feed.combine, datetime_new.
  destruct (valid_date y m d); cbn [bind andb]; [|reflexivity].
  cbn [attr_of bind]. rewrite hhmm_digits by assumption.
  rewrite split_HHMM by apply digit_chr_decimal.
  cbn [subscript nth_error bind].
  change [digit_chr (h / 10); digit_chr h] with (digits_fixed 2 h).
  change [digit_chr (mi / 10); digit_chr mi] with (digits_fixed 2 mi).
  rewrite !int_of_str_fixed by (simpl; lia). cbn [bind].
  unfold replace_time. cbn [year month day].
  destruct (valid_time h mi); reflexivity.
Qed.

End ReadDigits.

(** X15.  In the feed pipeline the entry's date and a time of two digits,
    a colon and two digits give the ISO text of that date at that hour
    and minute in the zone, when the hour is at most 23 and the minute at
    most 59; any other hour or minute (as in [24:00] or [12:60]) gives
    [ValueError], and so does a date that is not on the calendar. *)
Theorem feed_combine_date_and_time (tz : tzinfo) (y m d h mi : Z) :
  0 <= h < 100 -> 0 <= mi < 100 ->
  Feed.combine tz (y, m, d) (Some (hhmm h mi))
  = if valid_date y m d && valid_time h mi
    then Ok (isoformat (replace_tzinfo (DateTime y m d h mi) tz))
    else Raise ValueError.
Proof.
  intros Hh Hm. unfold Feed.combine, datetime_new.
  destruct (valid_date y m d); cbn [bind andb]; [|reflexivity].
  cbn [attr_of bind]. rewrite hhmm_digits by assumption.
  rewrite split_HHMM by apply digit_chr_decimal.
  cbn [subscript nth_error bind].
  change [digit_chr (h / 10); digit_chr h] with (digits_fixed 2 h).
  change [digit_chr (mi / 10); digit_chr mi] with (digits_fixed 2 mi).
  rewrite !int_of_str_fixed by (simpl; lia). cbn [bind].
  unfold replace_time. cbn [year month day].
  destruct (valid_time h mi); reflexivity.
Qed.

Lemma feed_combine_date_and_time_witness :
  Feed.combine Europe_London (2024, 6, 1) (Some (hhmm 24 0))
  = Raise ValueError.
Proof.
  apply (feed_combine_date_and_time Europe_London 2024 6 1 24 0); lia.
Defined.

(** ** [strptime] on the text that the day-page pipeline builds *)

Section StrptimeText.

Variable A : Type.

Lemma decimal_not_space (c : ascii) :
  Py_UNICODE_ISDECIMAL c = true -> Py_UNICODE_ISSPACE c = false.
Proof.
  unfold Py_UNICODE_ISDECIMAL, Py_UNICODE_ISSPACE, in_range.
  rewrite andb_true_iff, !Z.leb_le. intros H.
  repeat (apply orb_false_iff; split);
    try (apply andb_false_iff; rewrite !Z.leb_gt; lia);
    apply Z.eqb_neq; lia.
Qed.

(** The number of characters that a group took. *)
Ltac count_taken :=
  repeat match goal with
         | |- context [(?a - ?b)%nat] =>
             first [ replace (a - b)%nat with 1%nat by lia
                   | replace (a - b)%nat with 2%nat by lia
                   | replace (a - b)%nat with 4%nat by lia ]
         end.

(** The year: four digits, taken as they stand. *)
Lemma strptime_year_step (R : regex) (y1 y2 y3 y4 : ascii) (s : str)
      (caps : captures) (k : cont A) :
  Py_UNICODE_ISDECIMAL y1 = true -> Py_UNICODE_ISDECIMAL y2 = true ->
  Py_UNICODE_ISDECIMAL y3 = true -> Py_UNICODE_ISDECIMAL y4 = true ->
  matches (Cat (Group 1 (Cat digit (Cat digit (Cat digit digit)))) R)
          (y1 :: y2 :: y3 :: y4 :: s) caps k
  = matches R s ((1%nat, [y1; y2; y3; y4]) :: caps) k.
Proof.
  intros H1 H2 H3 H4. unfold digit. cbn [matches].
  rewrite H1, H2, H3, H4. cbn [List.length]. count_taken.
  reflexivity.
Qed.

Lemma strptime_dash_step (R : regex) (s : str) (caps : captures) (k : cont A) :
  matches (Cat (Lit $"-") R) ("-"%char :: s) caps k = matches R s caps k.
Proof. reflexivity. Qed.

(** The month, written with two digits and followed by the dash. *)
Lemma strptime_month_step (R : regex) (m : Z) (s : str) (caps : captures)
      (k : cont A) :
  1 <= m <= 12 ->
  matches
    (Cat (Group 2 (Alt (Cat (Lit $"1") (chars "0" "2"))
                  (Alt (Cat (Lit $"0") (chars "1" "9"))
                       (chars "1" "9"))))
         (Cat (Lit $"-") R))
    (digits_fixed 2 m ++ "-"%char :: s) caps k
  = matches R s ((2%nat, digits_fixed 2 m) :: caps) k.
Proof.
  intros H.
  assert (C : m = 1 \/ m = 2 \/ m = 3 \/ m = 4 \/ m = 5 \/ m = 6 \/ m = 7
              \/ m = 8 \/ m = 9 \/ m = 10 \/ m = 11 \/ m = 12) by lia.
  repeat (destruct C as [-> | C]); try subst m;
    cbn -[Nat.sub]; count_taken; cbn;
    destruct (matches R s _ k); reflexivity.
Qed.

(** The day, written with two digits and followed by one blank and a
    character that is no blank. *)
Lemma strptime_day_step (R : regex) (d : Z) (c : ascii) (s : str) (caps : captures)
      (k : cont A) :
  1 <= d <= 31 -> Py_UNICODE_ISSPACE c = false ->
  matches
    (Cat (Group 3 (Alt (Cat (Lit $"3") (chars "0" "1"))
                  (Alt (Cat (chars "1" "2") digit)
                  (Alt (Cat (Lit $"0") (chars "1" "9"))
                  (Alt (chars "1" "9")
                       (Cat (Lit $" ") (chars "1" "9")))))))
         (Cat space_run R))
    (digits_fixed 2 d ++ " "%char :: c :: s) caps k
  = matches R (c :: s) ((3%nat, digits_fixed 2 d) :: caps) k.
Proof.
  intros H Hc.
  assert (C : d = 1 \/ d = 2 \/ d = 3 \/ d = 4 \/ d = 5 \/ d = 6 \/ d = 7
              \/ d = 8 \/ d = 9 \/ d = 10 \/ d = 11 \/ d = 12 \/ d = 13
              \/ d = 14 \/ d = 15 \/ d = 16 \/ d = 17 \/ d = 18 \/ d = 19
              \/ d = 20 \/ d = 21 \/ d = 22 \/ d = 23 \/ d = 24 \/ d = 25
              \/ d = 26 \/ d = 27 \/ d = 28 \/ d = 29 \/ d = 30 \/ d = 31)
    by lia.
  repeat (destruct C as [-> | C]); try subst d;
    cbn -[Nat.sub]; rewrite ?Hc; cbn -[Nat.sub]; count_taken; cbn;
    destruct (matches R (c :: s) _ k); reflexivity.
Qed.

End StrptimeText.

Section StrptimeTime.

Lemma colon_not_decimal (c : ascii) :
  Py_UNICODE_ISDECIMAL c = true -> chr_eqb ":" c = false.
Proof.
  intros H. destruct (chr_eqb ":" c) eqn:E; [|reflexivity].
  apply chr_eqb_eq in E. subst c. discriminate.
Qed.

(** The hour and the minute: two digits, a colon, two digits, at the
    end of the text. *)
Lemma strptime_time_step (ha hb ma mb : ascii) (caps : captures) :
  Py_UNICODE_ISDECIMAL ha = true -> Py_UNICODE_ISDECIMAL hb = true ->
  Py_UNICODE_ISDECIMAL ma = true -> Py_UNICODE_ISDECIMAL mb = true ->
  matches
    (Cat (Group 4 (Alt (Cat (Lit $"2") (chars "0" "3"))
                  (Alt (Cat (chars "0" "1") digit)
                       digit)))
    (Cat (Lit $":")
         (Group 5 (Alt (Cat (chars "0" "5") digit) digit))))
    [ha; hb; ":"%char; ma; mb] caps
    (fun s' caps' => Some (MatchObject caps' s'))
  = if (chr_eqb "2" ha && in_range 48 51 hb) || in_range 48 49 ha
    then Some (if in_range 48 53 ma
               then MatchObject ((5%nat, [ma; mb]) :: (4%nat, [ha; hb])
                                   :: caps) []
               else MatchObject ((5%nat, [ma]) :: (4%nat, [ha; hb])
                                   :: caps) [mb])
    else None.
Proof.
  intros Ha Hb Hma Hmb. pose proof (colon_not_decimal hb Hb) as Hc.
  unfold chars, digit.
  change (ord "0") with 48. change (ord "1") with 49.
  change (ord "3") with 51. change (ord "5") with 53.
  cbn -[in_range Py_UNICODE_ISDECIMAL chr_eqb].
  rewrite ?Ha, ?Hb, ?Hma, ?Hmb, ?Hc.
  destruct (chr_eqb "2" ha) eqn:E2; destruct (in_range 48 51 hb) eqn:E3;
    destruct (in_range 48 49 ha) eqn:E1;
    destruct (in_range 48 53 ma) eqn:E5;
    cbn -[in_range Py_UNICODE_ISDECIMAL chr_eqb];
    rewrite ?Ha, ?Hb, ?Hma, ?Hmb, ?Hc, ?E1, ?E2, ?E3, ?E5, ?chr_eqb_refl;
    cbn -[in_range Py_UNICODE_ISDECIMAL chr_eqb];
    rewrite ?Ha, ?Hb, ?Hma, ?Hmb, ?Hc, ?E1, ?E2, ?E3, ?E5, ?chr_eqb_refl;
    reflexivity.
Qed.

End StrptimeTime.

Section BothPipelines.

Lemma chr_eqb_digit_chr (c : ascii) (n : Z) :
  chr_eqb c (digit_chr n) = (ord c =? 48 + n mod 10).
Proof.
  destruct (chr_eqb c (digit_chr n)) eqn:E.
  - apply chr_eqb_eq in E. subst c. rewrite ord_digit_chr.
    symmetry. apply Z.eqb_refl.
  - symmetry. apply Z.eqb_neq. intros H.
    assert (c = digit_chr n) by (apply ord_inj; rewrite ord_digit_chr; exact H).
    subst c. rewrite chr_eqb_refl in E. discriminate.
Qed.

Lemma hour_test (h : Z) :
  0 <= h < 100 ->
  (chr_eqb "2" (digit_chr (h / 10)) && in_range 48 51 (digit_chr h))
  || in_range 48 49 (digit_chr (h / 10))
  = (h <=? 23).
Proof.
  intros H. rewrite chr_eqb_digit_chr. unfold in_range.
  rewrite !ord_digit_chr. change (ord "2") with 50.
  pose proof (Z.div_mod h 10 ltac:(lia)) as D.
  pose proof (Z.mod_pos_bound h 10 ltac:(lia)) as M.
  assert (Q : 0 <= h / 10 < 10)
    by (split; [apply Z.div_pos; lia | apply Z.div_lt_upper_bound; lia]).
  rewrite (Z.mod_small (h / 10) 10) by lia.
  destruct (h <=? 23) eqn:E; [apply Z.leb_le in E | apply Z.leb_gt in E].
  - apply orb_true_iff.
    destruct (Z.le_gt_cases (h / 10) 1) as [L|G].
    + right. apply andb_true_iff. rewrite !Z.leb_le. lia.
    + left. rewrite !andb_true_iff, Z.eqb_eq, !Z.leb_le. lia.
  - apply orb_false_iff. split.
    + destruct (50 =? 48 + h / 10) eqn:E2; [|reflexivity].
      apply Z.eqb_eq in E2. cbn [andb].
      apply andb_false_iff. right. apply Z.leb_gt. lia.
    + apply andb_false_iff. right. apply Z.leb_gt. lia.
Qed.

Lemma minute_test (mi : Z) :
  0 <= mi < 100 -> in_range 48 53 (digit_chr (mi / 10)) = (mi <=? 59).
Proof.
  intros H. unfold in_range. rewrite ord_digit_chr.
  pose proof (Z.div_mod mi 10 ltac:(lia)) as D.
  pose proof (Z.mod_pos_bound mi 10 ltac:(lia)) as M.
  assert (Q : 0 <= mi / 10 < 10)
    by (split; [apply Z.div_pos; lia | apply Z.div_lt_upper_bound; lia]).
  rewrite (Z.mod_small (mi / 10) 10) by lia.
  destruct (mi <=? 59) eqn:E; [apply Z.leb_le in E | apply Z.leb_gt in E].
  - apply andb_true_iff. rewrite !Z.leb_le. lia.
  - apply andb_false_iff. right. apply Z.leb_gt. lia.
Qed.

(** [strptime] reads back the date that [strftime] wrote and the time
    of day, or raises [ValueError] when the hour or the minute is out of
    range. *)
Lemma strptime_dashed (y m d h mi : Z) :
  valid_date y m d = true -> 1000 <= y ->
  0 <= h < 100 -> 0 <= mi < 100 ->
  strptime (strftime_dashed (Date y m d) ++ $" " ++ hhmm h mi)
  = if valid_time h mi then Ok (DateTime y m d h mi) else Raise ValueError.
Proof.
  intros V Hy Hh Hm.
  pose proof (valid_datetime_bounds (DateTime y m d 0 0)
                                    (conj V eq_refl)) as B.
  cbn [year month day hour minute] in B.
  unfold strptime, strftime_dashed. cbn [d_year d_month d_day].
  rewrite hhmm_digits by assumption.
  rewrite (fmt_d_fixed 3), !(fmt_d_fixed 1) by (simpl; lia).
  change ($"-") with ["-"%char]. change ($" ") with [" "%char].
  rewrite <- !app_assoc. cbn [app].
  change (digits_fixed 4 y)
    with [digit_chr (y / 10 / 10 / 10); digit_chr (y / 10 / 10);
          digit_chr (y / 10); digit_chr y].
  cbn [app]. unfold re_match, strptime_re.
  rewrite (strptime_year_step match_object) by apply digit_chr_decimal.
  rewrite (strptime_dash_step match_object), (strptime_month_step match_object) by lia.
  rewrite (strptime_day_step match_object)
    by (try lia; apply decimal_not_space, digit_chr_decimal).
  rewrite strptime_time_step by apply digit_chr_decimal.
  rewrite hour_test, minute_test by assumption.
  unfold valid_time.
  destruct (h <=? 23) eqn:E1.
  - destruct (mi <=? 59) eqn:E2.
    + cbn [group Nat.eqb attr_of bind].
      change [digit_chr (y / 10 / 10 / 10); digit_chr (y / 10 / 10);
              digit_chr (y / 10); digit_chr y] with (digits_fixed 4 y).
      change [digit_chr (h / 10); digit_chr h] with (digits_fixed 2 h).
      change [digit_chr (mi / 10); digit_chr mi] with (digits_fixed 2 mi).
      rewrite !int_of_str_fixed by (simpl; lia). cbn [bind].
      unfold datetime_new. rewrite V. cbn [bind].
      unfold replace_time, valid_time. cbn [year month day].
      rewrite E1, E2.
      replace (0 <=? h) with true by (symmetry; apply Z.leb_le; lia).
      replace (0 <=? mi) with true by (symmetry; apply Z.leb_le; lia).
      reflexivity.
    + rewrite !andb_false_r. reflexivity.
  - rewrite andb_false_r. reflexivity.
Qed.

Lemma week_combine_hhmm (tz : tzinfo) (y m d h mi : Z) :
  valid_date y m d = true -> 1000 <= y ->
  0 <= h < 100 -> 0 <= mi < 100 ->
  snd (Week.combine (Date y m d) tz (hhmm h mi))
  = if valid_time h mi
    then Ok (isoformat (replace_tzinfo (DateTime y m d h mi) tz))
    else Raise ValueError.
Proof.
  intros V Hy Hh Hm. unfold Week.combine. cbn [snd].
  rewrite strptime_dashed by assumption.
  destruct (valid_time h mi); reflexivity.
Qed.

Lemma same_timestamp (tz : tzinfo) (y m d : Z) (t : str) :
  valid_date y m d = true -> 1000 <= y -> is_HHMM t = true ->
  snd (Week.combine (Date y m d) tz t)
  = Feed.combine tz (y, m, d) (Some t).
Proof.
  intros V Hy Ht. destruct (is_HHMM_hhmm t Ht) as (h & mi & Hh & Hm & ->).
  rewrite week_combine_hhmm, feed_combine_hhmm by assumption.
  rewrite V. reflexivity.
Qed.

End BothPipelines.

(** X16.  For a date of a year of four digits and a time of two digits, a
    colon and two digits, the two pipelines build the same timestamp:
    [strptime] on the text of the date and the time gives what
    [datetime(...)] and [replace(hour, minute)] give on the numbers, the
    ISO text of that date and time in the zone, and both raise
    [ValueError] for an hour above 23 or a minute above 59. *)
Theorem both_pipelines_same_timestamp
        (tz : tzinfo) (y m d : Z) (t : str) :
  valid_date y m d = true -> 1000 <= y -> is_HHMM t = true ->
  snd (Week.combine (Date y m d) tz t) = Feed.combine tz (y, m, d) (Some t)
  /\ exists h mi,
       0 <= h < 100 /\ 0 <= mi < 100 /\ t = hhmm h mi
       /\ Feed.combine tz (y, m, d) (Some t)
          = if valid_time h mi
            then Ok (isoformat (replace_tzinfo (DateTime y m d h mi) tz))
            else Raise ValueError.
Proof.
  intros V Hy Ht. split; [apply same_timestamp; assumption|].
  destruct (is_HHMM_hhmm t Ht) as (h & mi & Hh & Hm & ->).
  exists h, mi. split; [exact Hh|]. split; [exact Hm|].
  split; [reflexivity|].
  rewrite feed_combine_hhmm, V by assumption. reflexivity.
Qed.

Lemma both_pipelines_same_timestamp_witness :
  snd (Week.combine (Date 2024 3 31) Europe_London $"01:30")
  = Feed.combine Europe_London (2024, 3, 31) (Some $"01:30").
Proof.
  apply (proj1 (both_pipelines_same_timestamp
                  Europe_London 2024 3 31 $"01:30" eq_refl
                  ltac:(lia) eq_refl)).
Defined.

(** ** A tide event in its line, and the same event in a row *)

Section EventInLine.

Variables (t ty h op cl : str).
Hypothesis Ht : is_HHMM t = true.
Hypothesis Hty : ty = $"High" \/ ty = $"Low".
Hypothesis Hh : is_height h = true.
Hypothesis Hop : is_open_paren op.
Hypothesis Hcl : is_close_paren cl.

(** The pattern takes the event at the start of a text and leaves what
    follows it. *)
Lemma tide_line_match_rest (rest : str) :
  re_match Feed.TIDE_RE (tide_line op cl t ty h ++ rest)
  = Some (MatchObject [(3%nat, h ++ $"m"); (2%nat, ty); (1%nat, t)] rest).
Proof.
  assert (F : first_match Feed.TIDE_RE
                (t ++ $" " ++ $"-" ++ $" " ++ ty ++ $" " ++ $"Tide"
                   ++ $" " ++ op ++ (h ++ $"m") ++ cl)
                [] [(3%nat, h ++ $"m"); (2%nat, ty); (1%nat, t)] anything).
  { unfold Feed.TIDE_RE.
    eapply first_match_Cat; [apply first_match_time; exact Ht | | reflexivity].
    eapply first_match_Cat; [apply blank_run | | reflexivity].
    eapply first_match_Cat; [apply first_match_Lit | | reflexivity].
    eapply first_match_Cat; [apply blank_run | |].
    2: { intros s _. destruct Hty as [-> | ->]; reflexivity. }
    eapply first_match_Cat; [apply first_match_type; exact Hty | | reflexivity].
    eapply first_match_Cat; [apply blank_run | | reflexivity].
    eapply first_match_Cat; [apply first_match_Lit | | reflexivity].
    eapply first_match_Cat; [apply blank_run | |].
    2: { intros s _. destruct Hop as [-> | ->]; reflexivity. }
    eapply first_match_Cat; [apply first_match_open; exact Hop | | reflexivity].
    eapply first_match_Cat; [apply first_match_height; exact Hh | | reflexivity].
    apply first_match_close; exact Hcl. }
  unfold re_match.
  replace (tide_line op cl t ty h)
    with (t ++ $" " ++ $"-" ++ $" " ++ ty ++ $" " ++ $"Tide"
            ++ $" " ++ op ++ (h ++ $"m") ++ cl).
  - apply F; reflexivity.
  - unfold tide_line. repeat rewrite <- app_assoc. reflexivity.
Qed.

(** The pattern starts with a digit: it matches at no character that is
    not one. *)
Lemma no_match_at (c : ascii) (s : str) :
  Py_UNICODE_ISDECIMAL c = false -> re_match Feed.TIDE_RE (c :: s) = None.
Proof.
  intros H. unfold re_match, Feed.TIDE_RE, digit. cbn [matches].
  rewrite H. reflexivity.
Qed.

Lemma search_past (pre s : str) :
  forallb (fun c => negb (Py_UNICODE_ISDECIMAL c)) pre = true ->
  re_search Feed.TIDE_RE (pre ++ s) = re_search Feed.TIDE_RE s.
Proof.
  induction pre as [|c pre IH]; intros H; [reflexivity|].
  simpl in H. apply andb_true_iff in H. destruct H as [Hc Hpre].
  apply negb_true_iff in Hc.
  cbn [app re_search]. rewrite (no_match_at c (pre ++ s) Hc).
  apply IH. exact Hpre.
Qed.

Lemma tide_line_ends :
  exists a z body,
    tide_line op cl t ty h = a :: body ++ [z]
    /\ Py_UNICODE_ISSPACE a = false /\ Py_UNICODE_ISSPACE z = false.
Proof.
  destruct (is_HHMM_inv t Ht) as (a & b & d & e & E & Ha & _).
  unfold tide_line. rewrite E.
  destruct Hcl as [-> | ->].
  - exists a, ")"%char,
           ([b; ":"%char; d; e] ++ $" - " ++ ty ++ $" Tide " ++ op ++ h
              ++ $"m").
    split; [|split; [apply decimal_not_space; exact Ha | reflexivity]].
    cbn [app list_ascii_of_string].
    repeat (rewrite <- ?app_assoc; cbn [app]). reflexivity.
  - exists a, ";"%char,
           ([b; ":"%char; d; e] ++ $" - " ++ ty ++ $" Tide " ++ op ++ h
              ++ $"m" ++ $"&#x29").
    split; [|split; [apply decimal_not_space; exact Ha | reflexivity]].
    cbn [app list_ascii_of_string].
    repeat (rewrite <- ?app_assoc; cbn [app]). reflexivity.
Qed.

End EventInLine.

Section StripAround.

Variable p : ascii -> bool.

Lemma lstrip_with_app (pre : str) (a : ascii) (s : str) :
  p a = false ->
  lstrip_with p (pre ++ a :: s) = lstrip_with p pre ++ a :: s.
Proof.
  intros Ha. induction pre as [|c pre IH]; simpl.
  - rewrite Ha. reflexivity.
  - destruct (p c); [exact IH | reflexivity].
Qed.

Lemma lstrip_with_suffix (pre : str) :
  exists dropped, pre = dropped ++ lstrip_with p pre.
Proof.
  induction pre as [|c pre (dr & IH)]; simpl.
  - exists []. reflexivity.
  - destruct (p c).
    + exists (c :: dr). simpl. congruence.
    + exists []. reflexivity.
Qed.

(** Stripping a text around a core that neither starts nor ends with a
    character of the class strips what is before and what is after. *)
Lemma strip_with_around (pre suf : str) (a z : ascii) (body : str) :
  p a = false -> p z = false ->
  strip_with p (pre ++ (a :: body ++ [z]) ++ suf)
  = lstrip_with p pre ++ (a :: body ++ [z]) ++ rstrip_with p suf.
Proof.
  intros Ha Hz. unfold strip_with, rstrip_with.
  cbn [app]. rewrite (lstrip_with_app pre a _ Ha).
  replace (lstrip_with p pre ++ a :: (body ++ [z]) ++ suf)
    with ((lstrip_with p pre ++ a :: body) ++ z :: suf)
    by (repeat (rewrite <- ?app_assoc; cbn [app]); reflexivity).
  rewrite rev_app_distr. cbn [rev]. rewrite <- app_assoc. cbn [app].
  rewrite (lstrip_with_app (rev suf) z _ Hz).
  rewrite rev_app_distr. cbn [rev]. rewrite rev_involutive.
  repeat (rewrite <- ?app_assoc; cbn [app]). reflexivity.
Qed.

End StripAround.

Lemma no_digit_suffix (dropped kept : str) :
  forallb (fun c => negb (Py_UNICODE_ISDECIMAL c)) (dropped ++ kept) = true ->
  forallb (fun c => negb (Py_UNICODE_ISDECIMAL c)) kept = true.
Proof.
  rewrite forallb_app. intros H. apply andb_true_iff in H. tauto.
Qed.

(** X17.  A tide event is read wherever it stands in its line: with text
    after it, and with text before it that holds no digit, the line gives
    what the event alone gives.  When the height and the time convert,
    the line appends the record of that time, type and rounded height
    and prints nothing; when a conversion raises [ValueError], the line
    is reported under its trimmed text and dropped; and there is no
    third case. *)
Theorem event_read_anywhere_in_line
        (tz : tzinfo) (date_tuple : Z * Z * Z) (t ty h op cl : str)
        (before after : str) (records : list tide) :
  is_HHMM t = true -> (ty = $"High" \/ ty = $"Low") -> is_height h = true ->
  is_open_paren op -> is_close_paren cl ->
  forallb (fun c => negb (Py_UNICODE_ISDECIMAL c)) before = true ->
  let raw := before ++ tide_line op cl t ty h ++ after in
  snd (Feed.process_line tz date_tuple raw records)
  = snd (Feed.process_line tz date_tuple (tide_line op cl t ty h) records)
  /\ (forall x y iso,
        float_of_str h = Ok x -> round2 x = Ok y ->
        Feed.combine tz date_tuple (Some t) = Ok iso ->
        Feed.process_line tz date_tuple raw records
        = ([], Ok (records ++ [Tide iso (Some ty) y])))
  /\ (float_of_str h = Raise ValueError
      \/ Feed.combine tz date_tuple (Some t) = Raise ValueError ->
      Feed.process_line tz date_tuple raw records
      = ([Print (Error_processing_line (strip raw) ValueError)], Ok records))
  /\ ((exists x y iso,
          float_of_str h = Ok x /\ round2 x = Ok y
          /\ Feed.combine tz date_tuple (Some t) = Ok iso)
      \/ float_of_str h = Raise ValueError
      \/ Feed.combine tz date_tuple (Some t) = Raise ValueError).
Proof.
  intros Ht Hty Hh Hop Hcl Hb. cbv zeta.
  assert (S : exists rest,
             re_search Feed.TIDE_RE
                       (strip (before ++ tide_line op cl t ty h ++ after))
             = Some (MatchObject
                       [(3%nat, h ++ $"m"); (2%nat, ty); (1%nat, t)] rest)).
  { unfold strip.
    destruct (tide_line_ends t ty h op cl Ht Hcl)
      as (a & z & body & E & Ha & Hz).
    rewrite E,
      (strip_with_around Py_UNICODE_ISSPACE before after a z body Ha Hz).
    rewrite <- E.
    destruct (lstrip_with_suffix Py_UNICODE_ISSPACE before) as (dr & Ed).
    rewrite Ed in Hb. apply no_digit_suffix in Hb.
    rewrite (search_past _ _ Hb). eexists.
    apply re_search_first.
    apply (tide_line_match_rest t ty h op cl Ht Hty Hh Hop Hcl). }
  destruct S as (rest & S).
  pose proof (tide_line_search op cl t ty h Hop Hcl Ht Hty Hh) as S0.
  rewrite <- (tide_line_strip op cl t ty h Hop Hcl Ht) in S0 at 1.
  destruct (process_event tz date_tuple t ty h records Hh _ _ S)
    as [Good Bad].
  destruct (process_event tz date_tuple t ty h records Hh _ _ S0)
    as [Good0 Bad0].
  pose proof (event_conversions tz date_tuple t h Ht) as Cases.
  split; [|split; [|split]].
  - destruct Cases as [(x & y & iso & Ef & Er & Ec) | B].
    + rewrite (Good x y iso Ef Er Ec), (Good0 x y iso Ef Er Ec).
      reflexivity.
    + rewrite (Bad B), (Bad0 B). reflexivity.
  - exact Good.
  - exact Bad.
  - exact Cases.
Qed.

Lemma event_read_anywhere_in_line_witness :
  Feed.process_line Europe_London (2024, 6, 1)
    ($"Burry Port: " ++ tide_line $"(" $")" $"06:15" $"High" $"7.42"
       ++ $" 3 hours from now")
    []
  = ([], Ok ([] ++ [Tide $"2024-06-01T06:15:00+01:00" (Some $"High")
                         (S754_finite false 8354177308772270 (-50))])).
Proof.
  apply (proj1 (proj2 (event_read_anywhere_in_line
                         Europe_London (2024, 6, 1) $"06:15" $"High" $"7.42"
                         $"(" $")" $"Burry Port: " $" 3 hours from now" []
                         eq_refl (or_introl eq_refl) eq_refl
                         (or_introl eq_refl) (or_introl eq_refl) eq_refl))
               (S754_finite false 8354177308772270 (-50))
               (S754_finite false 8354177308772270 (-50))
               $"2024-06-01T06:15:00+01:00");
    vm_compute; reflexivity.
Defined.

Section LineAndRow.

Variables (tz : tzinfo) (y m d : Z) (t ty h : str).
Hypothesis Hdate : valid_date y m d = true.
Hypothesis Hyear : 1000 <= y.
Hypothesis Ht : is_HHMM t = true.
Hypothesis Hty : ty = $"High" \/ ty = $"Low".
Hypothesis Hh : is_height h = true.







End LineAndRow.



(** ** Tags and lines in the description of an entry *)

Section Tags.

Variable tag : str.
Hypothesis Htag : tag_body tag = true.

Lemma chr_eqb_sym (a b : ascii) : chr_eqb a b = chr_eqb b a.
Proof.
  destruct (chr_eqb a b) eqn:E.
  - apply chr_eqb_eq in E. subst. symmetry. apply chr_eqb_refl.
  - destruct (chr_eqb b a) eqn:E'; [|reflexivity].
    apply chr_eqb_eq in E'. subst. rewrite chr_eqb_refl in E. discriminate.
Qed.

(** No tag starts at a character that is not [<]. *)
Lemma no_tag_at (c : ascii) (s : str) :
  chr_eqb c "<" = false -> re_match Feed.TAG_RE (c :: s) = None.
Proof.
  intros H. unfold re_match, Feed.TAG_RE.
  cbn [matches strip_prefix list_ascii_of_string].
  rewrite chr_eqb_sym, H. reflexivity.
Qed.

Lemma lazy_to_close (body rest : str) :
  body <> [] ->
  forallb (fun c => negb (chr_eqb c "<") && negb (chr_eqb c ">")) body
  = true ->
  plus_lazy (fun c => negb (chr_eqb c "<")) (body ++ ">"%char :: rest) []
            (fun s' caps' =>
               matches (Lit $">") s' caps'
                       (fun s'' caps'' => Some (MatchObject caps'' s'')))
  = Some (MatchObject [] rest).
Proof.
  induction body as [|c body IH]; intros N H; [congruence|].
  simpl in H. apply andb_true_iff in H. destruct H as [Hc Hb].
  apply andb_true_iff in Hc. destruct Hc as [C1 C2].
  cbn [app plus_lazy]. rewrite C1.
  destruct body as [|c' body'].
  - reflexivity.
  - assert (Hc' : chr_eqb ">" c' = false).
    { simpl in Hb. apply andb_true_iff in Hb. destruct Hb as [Hb _].
      apply andb_true_iff in Hb. destruct Hb as [_ Hb].
      apply negb_true_iff in Hb. rewrite chr_eqb_sym. exact Hb. }
    cbn [app matches strip_prefix list_ascii_of_string]. rewrite Hc'.
    apply IH; [discriminate | exact Hb].
Qed.

(** A tag is taken whole, from [<] to [>]. *)
Lemma tag_match (rest : str) :
  re_match Feed.TAG_RE ($"<" ++ tag ++ $">" ++ rest)
  = Some (MatchObject [] rest).
Proof.
  unfold re_match, Feed.TAG_RE. unfold tag_body in Htag.
  cbn [matches strip_prefix list_ascii_of_string app].
  change (chr_eqb "<" "<") with true. cbn iota.
  apply lazy_to_close; destruct tag; [discriminate | discriminate
                                     | discriminate | exact Htag].
Qed.

Lemma re_sub_fuel_hit (f : nat) (r : regex) (repl s : str)
      (m : match_object) :
  s <> [] -> re_match r s = Some m ->
  re_sub_fuel (S f) r repl s = repl ++ re_sub_fuel f r repl (mo_rest m).
Proof.
  intros N H. destruct s; [congruence|]. cbn [re_sub_fuel].
  rewrite H. reflexivity.
Qed.

Lemma tagged_cons (l : str) (ls : list str) :
  tagged tag (l :: ls) = l ++ $"<" ++ tag ++ $">" ++ tagged tag ls.
Proof.
  unfold tagged. cbn [map List.concat]. rewrite <- !app_assoc. reflexivity.
Qed.

Lemma length_tagged_cons (l : str) (ls : list str) :
  List.length (tagged tag (l :: ls))
  = (List.length l + S (List.length tag + S (List.length (tagged tag ls))))%nat.
Proof.
  unfold tagged. cbn [map List.concat].
  repeat (rewrite ?length_app; cbn [List.length list_ascii_of_string]).
  lia.
Qed.

(** Each tag becomes a line break, the text of the lines stays. *)
Lemma re_sub_tagged (ls : list str) :
  Forall (fun l => tag_free_line l = true) ls ->
  forall fuel,
    (List.length (tagged tag ls) <= fuel)%nat ->
    re_sub_fuel fuel Feed.TAG_RE [ascii_of_N 10] (tagged tag ls)
    = List.concat (map (fun l => l ++ [ascii_of_N 10]) ls).
Proof.
  induction 1 as [|l ls Hl _ IH]; intros fuel Hf.
  - destruct fuel; reflexivity.
  - revert fuel Hf. induction l as [|c l IHl]; intros fuel Hf.
    + rewrite length_tagged_cons in Hf. simpl in Hf.
      destruct fuel as [|f]; [lia|].
      rewrite tagged_cons. cbn [app].
      assert (N : $"<" ++ tag ++ $">" ++ tagged tag ls <> [])
        by (cbn [app list_ascii_of_string]; discriminate).
      rewrite (re_sub_fuel_hit f _ _ _ _ N (tag_match (tagged tag ls))).
      cbn [mo_rest app map List.concat]. f_equal. apply IH. lia.
    + rewrite length_tagged_cons in Hf. simpl in Hf.
      destruct fuel as [|f]; [lia|].
      simpl in Hl. apply andb_true_iff in Hl. destruct Hl as [Hc Hl].
      apply andb_true_iff in Hc. destruct Hc as [C1 _].
      apply negb_true_iff in C1.
      rewrite tagged_cons. cbn [map List.concat app re_sub_fuel].
      rewrite (no_tag_at c _ C1). f_equal.
      rewrite <- tagged_cons.
      apply (IHl Hl f). rewrite length_tagged_cons. lia.
Qed.

Lemma splitlines_from_line (l : str) :
  tag_free_line l = true ->
  forall cur rest,
    splitlines_from cur (l ++ ascii_of_N 10 :: rest)
    = (rev cur ++ l) :: splitlines_from [] rest.
Proof.
  induction l as [|c l IH]; intros H cur rest.
  - rewrite app_nil_r. reflexivity.
  - simpl in H. apply andb_true_iff in H. destruct H as [Hc Hl].
    apply andb_true_iff in Hc. destruct Hc as [_ C2].
    apply negb_true_iff in C2.
    assert (N13 : (ord c =? 13) = false).
    { destruct (ord c =? 13) eqn:E; [|reflexivity].
      apply Z.eqb_eq in E. unfold is_linebreak, in_range in C2.
      rewrite E in C2. discriminate. }
    cbn [app splitlines_from]. rewrite N13, C2, (IH Hl).
    cbn [rev]. rewrite <- app_assoc. reflexivity.
Qed.

Lemma splitlines_lines (ls : list str) :
  Forall (fun l => tag_free_line l = true) ls ->
  splitlines (List.concat (map (fun l => l ++ [ascii_of_N 10]) ls)) = ls.
Proof.
  unfold splitlines. induction 1 as [|l ls Hl _ IH]; [reflexivity|].
  cbn [map List.concat]. rewrite <- app_assoc. cbn [app].
  rewrite (splitlines_from_line l Hl). cbn [rev app]. f_equal. exact IH.
Qed.

End Tags.

(** X19.  Tags end lines: when the description of an entry is a run of
    lines, each followed by a tag such as [<br/>], the lines that
    [parse_tide_feed] scans are exactly those lines, in their order, the
    empty ones included.  The tag may be any text between [<] and [>]
    that holds neither of the two, and the lines any text without [<] and
    without a line boundary. *)
Theorem tags_end_lines
        (tag : str) (lines : list str) (date_tuple : option (option (Z * Z * Z)))
        (title : option str) :
  tag_body tag = true ->
  Forall (fun l => tag_free_line l = true) lines ->
  Feed.entry_lines (Feed.Entry date_tuple title (Some (tagged tag lines)))
  = lines.
Proof.
  intros Htag Hl. unfold Feed.entry_lines, re_sub. cbn [Feed.description].
  rewrite (re_sub_tagged tag Htag lines Hl) by lia.
  apply splitlines_lines. exact Hl.
Qed.

Lemma tags_end_lines_witness :
  Feed.entry_lines
    (Feed.Entry (Some (Some (2024, 6, 1))) None
                (Some (tagged $"br/" [$"06:15 - High Tide (7.42m)"; [];
                                      $"12:30 - Low Tide (1.10m)"])))
  = [$"06:15 - High Tide (7.42m)"; []; $"12:30 - Low Tide (1.10m)"].
Proof.
  apply (tags_end_lines $"br/" [$"06:15 - High Tide (7.42m)"; [];
                                $"12:30 - Low Tide (1.10m)"]
                        (Some (Some (2024, 6, 1))) None eq_refl).
  repeat constructor.
Defined.

(** ** What the day-page pipeline reports of a row it drops *)

(** X20.  A row that is dropped is reported, but not always under its own
    name.  A row whose height [float] rejects, met after some row has
    bound [full_datetime_str], is reported with the date and time text of
    that earlier row, which the variable still holds, and the locals stay
    as they were.  A row whose height is read and whose time [strptime]
    rejects is reported with its own date and time text, which the
    variable holds from then on; the batch stays as it was. *)
Theorem dropped_row_report
        (date_obj : date) (tz : tzinfo) (type_text span_text height_text : str)
        (cls : list str) (records : list tide) (fds : str) :
  let rw := Week.Row cls (Some type_text) (Some (Some span_text))
                     (Some height_text) in
  let own := strftime_dashed date_obj ++ $" " ++ strip span_text in
  (unreadable_height rw = true ->
   Week.process_row date_obj tz rw (Week.Locals records (Some fds))
   = ([Print (Skipping_record fds ValueError)],
      Ok (Week.Locals records (Some fds))))
  /\ (forall held e,
        unreadable_height rw = false -> strptime own = Raise e ->
        Week.process_row date_obj tz rw (Week.Locals records held)
        = ([Print (Skipping_record own ValueError)],
           Ok (Week.Locals records (Some own)))).
Proof.
  cbv zeta. unfold unreadable_height, row_height.
  cbn [Week.tal Week.tac Week.tar]. split.
  - intros U. unfold Week.process_row, Week.row_try.
    cbn [Week.tal Week.tac Week.tar].
    destruct (height_cases height_text) as [(x & y & Ef & Er) | Ef];
      rewrite Ef in U; [discriminate|].
    rewrite Ef. reflexivity.
  - intros held e U S. unfold Week.process_row, Week.row_try.
    cbn [Week.tal Week.tac Week.tar].
    destruct (height_cases height_text) as [(x & y & Ef & Er) | Ef];
      rewrite Ef in U; [|discriminate].
    rewrite Ef. cbn [bind]. rewrite Er. unfold Week.combine.
    rewrite S. cbn [bind].
    rewrite (strptime_raises _ _ S). reflexivity.
Qed.

Lemma dropped_row_report_witness :
  Week.process_row day_2024_06_01 Europe_London row_no_height
                   (Week.Locals [] (Some $"2024-06-01 06:15"))
  = ([Print (Skipping_record $"2024-06-01 06:15" ValueError)],
     Ok (Week.Locals [] (Some $"2024-06-01 06:15"))).
Proof.
  apply (proj1 (dropped_row_report day_2024_06_01 Europe_London
                                   $"Low" $"12:30" $"n/a" [] []
                                   $"2024-06-01 06:15")).
  reflexivity.
Defined.

(** ** The days that the weekly run asks for *)

Section Calendar.

Lemma days_before_month_succ (y m : Z) :
  1 <= m ->
  days_before_month y (m + 1) = days_before_month y m + days_in_month y m.
Proof.
  intros H. unfold days_before_month.
  replace (Z.to_nat (m + 1 - 1)) with (S (Z.to_nat (m - 1))) by lia.
  rewrite seq_S, fold_left_app. cbn [fold_left].
  replace (Z.of_nat (1 + Z.to_nat (m - 1))) with m by lia. reflexivity.
Qed.

Lemma days_before_december (y : Z) :
  days_before_month y 12 + 31
  = days_before_year (y + 1) - days_before_year y.
Proof.
  assert (L : days_before_month y 12 + 31
              = if is_leap y then 366 else 365).
  { unfold days_before_month, days_in_month.
    destruct (is_leap y); vm_compute; reflexivity. }
  rewrite L. unfold days_before_year, is_leap.
  replace (y + 1 - 1) with y by lia.
  pose proof (Z.div_mod y 4 ltac:(lia)).
  pose proof (Z.mod_pos_bound y 4 ltac:(lia)).
  pose proof (Z.div_mod y 100 ltac:(lia)).
  pose proof (Z.mod_pos_bound y 100 ltac:(lia)).
  pose proof (Z.div_mod y 400 ltac:(lia)).
  pose proof (Z.mod_pos_bound y 400 ltac:(lia)).
  pose proof (Z.div_mod (y - 1) 4 ltac:(lia)).
  pose proof (Z.mod_pos_bound (y - 1) 4 ltac:(lia)).
  pose proof (Z.div_mod (y - 1) 100 ltac:(lia)).
  pose proof (Z.mod_pos_bound (y - 1) 100 ltac:(lia)).
  pose proof (Z.div_mod (y - 1) 400 ltac:(lia)).
  pose proof (Z.mod_pos_bound (y - 1) 400 ltac:(lia)).
  destruct (y mod 4 =? 0) eqn:E4;
    [apply Z.eqb_eq in E4 | apply Z.eqb_neq in E4];
    (destruct (y mod 100 =? 0) eqn:E100;
     [apply Z.eqb_eq in E100 | apply Z.eqb_neq in E100]);
    (destruct (y mod 400 =? 0) eqn:E400;
     [apply Z.eqb_eq in E400 | apply Z.eqb_neq in E400]);
    cbn [negb andb orb]; lia.
Qed.

(** The day after a date is the next day of the calendar. *)
Lemma next_day_ordinal (dt : date) :
  valid_date (d_year dt) (d_month dt) (d_day dt) = true ->
  d_year dt < 9999 ->
  let n := next_day dt in
  valid_date (d_year n) (d_month n) (d_day n) = true
  /\ ymd2ord (d_year n) (d_month n) (d_day n)
     = ymd2ord (d_year dt) (d_month dt) (d_day dt) + 1
  /\ d_year n <= d_year dt + 1.
Proof.
  destruct dt as [y m d]. cbn [d_year d_month d_day]. intros V Hy.
  unfold valid_date in V. rewrite !andb_true_iff, !Z.leb_le in V.
  cbv zeta. unfold next_day. cbn [d_year d_month d_day].
  destruct (d <? days_in_month y m) eqn:E1.
  - apply Z.ltb_lt in E1. cbn [d_year d_month d_day].
    split; [|split; [unfold ymd2ord; lia | lia]].
    unfold valid_date. rewrite !andb_true_iff, !Z.leb_le. lia.
  - apply Z.ltb_ge in E1. destruct (m <? 12) eqn:E2.
    + apply Z.ltb_lt in E2. cbn [d_year d_month d_day].
      split; [|split; [|lia]].
      * unfold valid_date. rewrite !andb_true_iff, !Z.leb_le.
        assert (28 <= days_in_month y (m + 1)).
        { unfold days_in_month.
          destruct (m + 1 =? 2); [destruct (is_leap y); lia|].
          destruct (_ || _); lia. }
        lia.
      * unfold ymd2ord. rewrite days_before_month_succ by lia. lia.
    + apply Z.ltb_ge in E2. assert (m = 12) by lia. subst m.
      change (days_in_month y 12) with 31 in *.
      cbn [d_year d_month d_day].
      split; [|split; [|lia]].
      * unfold valid_date. rewrite !andb_true_iff, !Z.leb_le.
        change (days_in_month (y + 1) 1) with 31. lia.
      * unfold ymd2ord.
        change (days_before_month (y + 1) 1) with 0.
        pose proof (days_before_december y). lia.
Qed.

Lemma add_days_ordinal (today : date) (i : nat) :
  valid_date (d_year today) (d_month today) (d_day today) = true ->
  d_year today < 9999 -> (i <= 28)%nat ->
  let n := add_days today i in
  valid_date (d_year n) (d_month n) (d_day n) = true
  /\ ymd2ord (d_year n) (d_month n) (d_day n)
     = ymd2ord (d_year today) (d_month today) (d_day today) + Z.of_nat i
  /\ (d_year n = d_year today
      \/ (d_year n = d_year today + 1 /\ d_month n = 1
          /\ d_day n <= Z.of_nat i)).
Proof.
  intros V Hy. induction i as [|i IH]; intros Hi; cbv zeta.
  - cbn [add_days Nat.iter nat_rect]. split; [exact V|].
    split; [simpl; lia | left; reflexivity].
  - destruct IH as (V' & O' & Y'); [lia|].
    change (add_days today (S i)) with (next_day (add_days today i)).
    assert (Hy' : d_year (add_days today i) < 9999 
                  \/ (d_year (add_days today i) = 9999
                      /\ d_month (add_days today i) = 1
                      /\ d_day (add_days today i) <= Z.of_nat i)) by lia.
    destruct Hy' as [Hy' | (Y9 & M1 & D1)].
    + destruct (next_day_ordinal (add_days today i) V' Hy')
        as (V2 & O2 & Y2).
      split; [exact V2|]. split; [lia|].
      destruct Y' as [Y' | (Y' & M' & D')].
      * unfold next_day in *.
        destruct (d_day (add_days today i)
                  <? days_in_month (d_year (add_days today i))
                                   (d_month (add_days today i)));
          [left; exact Y'|].
        destruct (d_month (add_days today i) <? 12);
          [left; exact Y'|].
        right. cbn [d_year d_month d_day]. lia.
      * unfold next_day in *. rewrite M'.
        change (days_in_month (d_year (add_days today i)) 1) with 31.
        destruct (d_day (add_days today i) <? 31) eqn:E;
          [|apply Z.ltb_ge in E; lia].
        right. cbn [d_year d_month d_day]. lia.
    + unfold next_day. rewrite M1.
      change (days_in_month (d_year (add_days today i)) 1) with 31.
      destruct (d_day (add_days today i) <? 31) eqn:E;
        [|apply Z.ltb_ge in E; lia].
      cbn [d_year d_month d_day].
      unfold valid_date in *. rewrite M1 in V'.
      change (days_in_month (d_year (add_days today i)) 1) with 31 in V'.
      rewrite !andb_true_iff, !Z.leb_le in V'.
      split; [rewrite !andb_true_iff, !Z.leb_le;
              change (days_in_month (d_year (add_days today i)) 1) with 31;
              lia|].
      split; [rewrite M1 in O'; unfold ymd2ord in *; lia|].
      right. lia.
Qed.

End Calendar.

Section Announcements.

Context {X S : Type}.

Lemma announced_app (o1 o2 : list event) :
  announced (o1 ++ o2) = announced o1 ++ announced o2.
Proof. unfold announced. apply flat_map_app. Qed.

Lemma for_each_announced (body : X -> S -> io S) :
  (forall x st, announced (fst (body x st)) = []) ->
  forall xs st, announced (fst (for_each xs st body)) = [].
Proof.
  intros H xs. induction xs as [|x xs IH]; intros st; [reflexivity|].
  cbn [for_each]. specialize (H x st).
  destruct (body x st) as [o1 [st1|e]]; cbn [io_bind fst] in *;
    [|exact H].
  specialize (IH st1). destruct (for_each xs st1 body) as [o2 r2].
  cbn [fst] in *. rewrite announced_app, H, IH. reflexivity.
Qed.

Lemma for_each_ext (body body' : X -> S -> io S) (xs : list X) :
  (forall x st, In x xs -> body' x st = body x st) ->
  forall st, for_each xs st body' = for_each xs st body.
Proof.
  induction xs as [|x xs IH]; intros H st; [reflexivity|].
  cbn [for_each]. rewrite (H x st (or_introl eq_refl)).
  destruct (body x st) as [o1 [st1|e]]; cbn [io_bind]; [|reflexivity].
  rewrite IH by (intros y s Hy; apply H; right; exact Hy). reflexivity.
Qed.

End Announcements.

Section Requests.

Variables (http_get : str -> Week.response) (tz : tzinfo).

Lemma process_row_announces_nothing (date_obj : date) (rw : Week.row)
      (st : Week.locals) :
  announced (fst (Week.process_row date_obj tz rw st)) = [].
Proof.
  unfold Week.process_row.
  destruct (Week.tal rw); [|reflexivity].
  destruct (Week.tac rw) as [[span_text|]|];
    try (destruct (Week.tar rw); reflexivity).
  destruct (Week.tar rw) as [height_text|]; [|reflexivity].
  destruct (Week.row_try _ _ _ _ _ _) as [st' [u|e]]; [reflexivity|].
  destruct (caught_by [ValueError] e); [|reflexivity].
  destruct (Week.full_datetime_str st'); reflexivity.
Qed.

(** A day is announced once, by its compact date. *)
Lemma day_announced (date_obj : date) :
  announced (day_events http_get tz date_obj)
  = [strftime_compact date_obj].
Proof.
  unfold day_events.
  destruct (http_get (day_url date_obj)) as [|[[rows|]|]] eqn:Hp.
  - unfold Week.scrape_single_day. fold (day_url date_obj).
    rewrite Hp. reflexivity.
  - rewrite (scrape_single_day_table _ _ _ _ Hp). cbn [fst announced flat_map app].
    change (flat_map _ ?l) with (announced l).
    rewrite for_each_announced; [reflexivity|].
    intros. apply process_row_announces_nothing.
  - unfold Week.scrape_single_day. fold (day_url date_obj).
    rewrite Hp. reflexivity.
  - unfold Week.scrape_single_day. fold (day_url date_obj).
    rewrite Hp. reflexivity.
Qed.

Lemma days_all_announced (ds : list date) :
  announced (List.concat (map (day_events http_get tz) ds))
  = map strftime_compact ds.
Proof.
  induction ds as [|d ds IH]; [reflexivity|].
  cbn [map List.concat]. rewrite announced_app, day_announced, IH.
  reflexivity.
Qed.

(** The page of a day is all that its scrape asks of the network. *)
Lemma scrape_single_day_ext (http_get' : str -> Week.response)
      (date_obj : date) :
  http_get' (day_url date_obj) = http_get (day_url date_obj) ->
  Week.scrape_single_day http_get' date_obj tz
  = Week.scrape_single_day http_get date_obj tz.
Proof.
  intros H. unfold Week.scrape_single_day. fold (day_url date_obj).
  rewrite H. reflexivity.
Qed.

(** The announcements of a run are those of the first days. *)
Lemma days_announced (today : date) (idx : list nat) :
  idx <> [] ->
  forall acc,
  exists n,
    (1 <= n <= List.length idx)%nat
    /\ announced (fst (for_each idx acc (day_step http_get today tz)))
       = map strftime_compact (map (add_days today) (firstn n idx)).
Proof.
  induction idx as [|i idx IH]; intros N acc; [congruence|].
  cbn [for_each]. unfold day_step at 1.
  pose proof (day_announced (add_days today i)) as A.
  unfold day_events in A.
  destruct (Week.scrape_single_day http_get (add_days today i) tz)
    as [o [recs|e]]; cbn [fst io_bind io_ret] in *.
  - destruct idx as [|j idx'].
    + exists 1%nat. split; [simpl; lia|].
      cbn [for_each io_ret fst firstn map].
      rewrite !app_nil_r. exact A.
    + destruct (IH ltac:(discriminate) (acc ++ recs)) as (n & Hn & E).
      exists (S n). split; [simpl in *; lia|].
      destruct (for_each (j :: idx') (acc ++ recs) _) as [o2 r2].
      cbn [fst firstn map] in *.
      rewrite app_nil_r, announced_app, A, E. reflexivity.
  - exists 1%nat. split; [simpl; lia|]. cbn [firstn map]. exact A.
Qed.

End Requests.

(** X21.  The weekly run asks for the pages of consecutive days of the
    calendar, today first, and for nothing else.  What the run does
    depends on the network only through the pages of the seven days from
    today on; the dates it announces are, in order, those of the first
    days of these seven, all seven when every day returns a batch; and
    the [i]-th of these days is the date that exists [i] days after
    today on the calendar, across the ends of months and years. *)
Theorem weekly_run_asks_consecutive_days
        (http_get : str -> Week.response) (tz : tzinfo) (today : date) :
  valid_date (d_year today) (d_month today) (d_day today) = true ->
  1000 <= d_year today < 9999 ->
  (forall http_get',
      (forall i, (i < 7)%nat ->
                 http_get' (day_url (add_days today i))
                 = http_get (day_url (add_days today i))) ->
      Week.collect_days http_get' today tz
      = Week.collect_days http_get today tz)
  /\ (exists n,
        (1 <= n <= 7)%nat
        /\ announced (fst (Week.collect_days http_get today tz))
           = map strftime_compact (firstn n (forecast_days today)))
  /\ ((forall d, In d (forecast_days today) ->
          exists recs, snd (Week.scrape_single_day http_get d tz) = Ok recs) ->
      announced (fst (Week.collect_days http_get today tz))
      = map strftime_compact (forecast_days today))
  /\ (forall i,
        (i < 7)%nat ->
        exists day,
          nth_error (forecast_days today) i = Some day
          /\ valid_date (d_year day) (d_month day) (d_day day) = true
          /\ ymd2ord (d_year day) (d_month day) (d_day day)
             = ymd2ord (d_year today) (d_month today) (d_day today)
               + Z.of_nat i).
Proof.
  intros V Hy. split; [|split; [|split]].
  - intros http_get' H. unfold Week.collect_days.
    apply for_each_ext. intros i acc Hi. apply in_seq in Hi.
    rewrite (scrape_single_day_ext http_get tz http_get' (add_days today i));
      [reflexivity|].
    apply H. change Week.DAYS_TO_FORECAST with 7%nat in Hi. lia.
  - unfold Week.collect_days. fold (day_step http_get today tz).
    destruct (days_announced http_get tz today (seq 0 Week.DAYS_TO_FORECAST)
                             ltac:(discriminate) [])
      as (n & Hn & E).
    exists n. split; [exact Hn|].
    rewrite E. unfold forecast_days. rewrite firstn_map. reflexivity.
  - intros H. rewrite (collect_days_all_return http_get today tz H).
    cbn [fst]. apply days_all_announced.
  - intros i Hi. exists (add_days today i).
    destruct (add_days_ordinal today i V ltac:(lia) ltac:(lia))
      as (V' & O' & _).
    split; [|split; [exact V' | exact O']].
    unfold forecast_days. rewrite nth_error_map.
    change Week.DAYS_TO_FORECAST with 7%nat.
    rewrite nth_error_seq.
    destruct (Nat.ltb_spec i 7); [reflexivity | lia].
Qed.

Lemma weekly_run_asks_consecutive_days_witness :
  announced (fst (Week.collect_days (serving [row_high])
                                    (Date 2024 12 29) Europe_London))
  = map strftime_compact (forecast_days (Date 2024 12 29)).
Proof.
  apply (proj1 (proj2 (proj2 (weekly_run_asks_consecutive_days
                                (serving [row_high]) Europe_London
                                (Date 2024 12 29) eq_refl
                                ltac:(simpl; lia))))).
  intros d Hd. vm_compute in Hd.
  repeat (destruct Hd as [<-|Hd]; [eexists; vm_compute; reflexivity|]).
  destruct Hd.
Defined.

(** ** No line of the feed ends the scan *)

(** X22.  In the feed pipeline no line makes the scan raise, whatever its
    text and whatever the date of its entry.  A line either adds one
    record and prints nothing; or holds no tide event, adds nothing and
    prints nothing; or holds an event that a conversion rejects with
    [ValueError], and is then reported once, under its trimmed text, and
    dropped.  So an entry that has the key [published_parsed] is always
    read to its end. *)
Theorem feed_line_never_raises
        (tz : tzinfo) (date_tuple : Z * Z * Z) (raw : str)
        (records : list tide) (e : Feed.entry) :
  ((exists r,
      Feed.process_line tz date_tuple raw records = ([], Ok (records ++ [r]))
      /\ line_records tz date_tuple raw = [r])
   \/ (Feed.process_line tz date_tuple raw records = ([], Ok records)
       /\ re_search Feed.TIDE_RE (strip raw) = None)
   \/ (Feed.process_line tz date_tuple raw records
       = ([Print (Error_processing_line (strip raw) ValueError)], Ok records)
       /\ exists m, re_search Feed.TIDE_RE (strip raw) = Some m
                    /\ Feed.line_record tz date_tuple m = Raise ValueError))
  /\ (has_published_parsed e ->
      exists out,
        Feed.process_entry tz e records
        = (out, Ok (records ++ entry_records tz e))).
Proof.
  split; [|apply process_entry_appends].
  destruct (process_line_cases tz date_tuple raw records)
    as [[N E] | [(m & S & L & E) | (m & r & S & L & E)]].
  - right. left. auto.
  - right. right. split; [exact E|]. eauto.
  - left. exists r. split; [exact E|].
    unfold line_records.
    destruct (process_line_cases tz date_tuple raw [])
      as [[N0 E0] | [(m0 & S0 & L0 & E0) | (m0 & r0 & S0 & L0 & E0)]];
      rewrite E0; try congruence.
    assert (m0 = m) by congruence. subst m0.
    assert (r0 = r) by congruence. subst r0. reflexivity.
Qed.

Lemma feed_line_never_raises_witness :
  exists out,
    Feed.process_entry Europe_London
                       (entry_of $"25:99 - High Tide (7.4.2m)") []
    = (out, Ok ([] ++ entry_records Europe_London
                        (entry_of $"25:99 - High Tide (7.4.2m)"))).
Proof.
  apply (proj2 (feed_line_never_raises
                  Europe_London (2024, 6, 1) [] []
                  (entry_of $"25:99 - High Tide (7.4.2m)"))).
  discriminate.
Defined.

(** ** The year of a timestamp *)

Section YearRead.

Ltac split_tail :=
  repeat match goal with
         | H : denotes (Cat _ _) _ _ _ |- _ => inversion H; subst; clear H
         | H : denotes (Group _ _) _ _ _ |- _ => inversion H; subst; clear H
         | H : denotes (Alt _ _) _ _ _ |- _ => inversion H; subst; clear H
         | H : denotes (Lit _) _ _ _ |- _ => inversion H; subst; clear H
         | H : denotes (Cls _) _ _ _ |- _ => inversion H; subst; clear H
         | H : denotes (Plus _) _ _ _ |- _ => inversion H; subst; clear H
         end.

(** After the year, every match of the rest of the [strptime] pattern
    sets the four other groups and leaves the year's group alone. *)
Lemma strptime_tail_groups (w : str) (c0 caps : captures) :
  denotes
    (Cat (Lit $"-")
    (Cat (Group 2 (Alt (Cat (Lit $"1") (chars "0" "2"))
                  (Alt (Cat (Lit $"0") (chars "1" "9"))
                       (chars "1" "9"))))
    (Cat (Lit $"-")
    (Cat (Group 3 (Alt (Cat (Lit $"3") (chars "0" "1"))
                  (Alt (Cat (chars "1" "2") digit)
                  (Alt (Cat (Lit $"0") (chars "1" "9"))
                  (Alt (chars "1" "9")
                       (Cat (Lit $" ") (chars "1" "9")))))))
    (Cat space_run
    (Cat (Group 4 (Alt (Cat (Lit $"2") (chars "0" "3"))
                  (Alt (Cat (chars "0" "1") digit)
                       digit)))
    (Cat (Lit $":")
         (Group 5 (Alt (Cat (chars "0" "5") digit) digit)))))))))
    w c0 caps ->
  exists m d H M,
    caps = (5%nat, M) :: (4%nat, H) :: (3%nat, d) :: (2%nat, m) :: c0.
Proof.
  unfold digit, chars, space_run. intros H. split_tail; eauto 10.
Qed.

(** [strptime] reads the year that [strftime] wrote, whatever the text
    of the time. *)
Lemma strptime_year (date_obj : date) (t : str) (dt : datetime) :
  1000 <= d_year date_obj <= 9999 ->
  strptime (strftime_dashed date_obj ++ $" " ++ t) = Ok dt ->
  year dt = d_year date_obj.
Proof.
  intros Hy. unfold strptime, strftime_dashed.
  rewrite (fmt_d_fixed 3) by (simpl; lia).
  change (digits_fixed 4 (d_year date_obj))
    with [digit_chr (d_year date_obj / 10 / 10 / 10);
          digit_chr (d_year date_obj / 10 / 10);
          digit_chr (d_year date_obj / 10); digit_chr (d_year date_obj)].
  rewrite <- !app_assoc. cbn [app].
  unfold re_match, strptime_re.
  rewrite (strptime_year_step match_object) by apply digit_chr_decimal.
  match goal with
  | |- context [matches ?R ?s ?c ?k] =>
      destruct (matches R s c k) as [[caps rest]|] eqn:E
  end; [|discriminate].
  destruct rest; [|discriminate].
  apply matches_sound in E.
  destruct E as (w & s' & caps' & _ & D & K).
  inversion K; subst. clear K.
  apply strptime_tail_groups in D.
  destruct D as (m & d & H & M & ->).
  cbn [group Nat.eqb attr_of bind].
  change [digit_chr (d_year date_obj / 10 / 10 / 10);
          digit_chr (d_year date_obj / 10 / 10);
          digit_chr (d_year date_obj / 10); digit_chr (d_year date_obj)]
    with (digits_fixed 4 (d_year date_obj)).
  rewrite int_of_str_fixed by (simpl; lia). cbn [bind].
  destruct (int_of_str m) as [mo|]; cbn [bind]; [|discriminate].
  destruct (int_of_str d) as [dd|]; cbn [bind]; [|discriminate].
  destruct (int_of_str H) as [hh|]; cbn [bind]; [|discriminate].
  destruct (int_of_str M) as [mi|]; cbn [bind]; [|discriminate].
  unfold datetime_new.
  destruct (valid_date (d_year date_obj) mo dd); cbn [bind];
    [|discriminate].
  unfold replace_time. cbn [year month day].
  destruct (valid_time hh mi); [|discriminate].
  intros X; inversion X; subst. reflexivity.
Qed.

Lemma week_combine_year (date_obj : date) (tz : tzinfo) (t iso : str) :
  1000 <= d_year date_obj <= 9999 ->
  snd (Week.combine date_obj tz t) = Ok iso ->
  exists dt,
    valid_datetime dt /\ year dt = d_year date_obj
    /\ iso = isoformat (replace_tzinfo dt tz).
Proof.
  intros Hy. unfold Week.combine. cbn [snd].
  destruct (strptime _) as [dt|] eqn:E; cbn [bind]; [|discriminate].
  intros X; inversion X; subst. exists dt.
  split; [eapply strptime_ok; eauto|].
  split; [eapply strptime_year; eauto | reflexivity].
Qed.

End YearRead.

(** X14.  For dates from 1996 on, the years in which the London zone
    follows the rule that [Europe_London] writes out, every [tide_time]
    that either pipeline hands on is the ISO text of a date and time of
    the entry's or the page's year that exist on the calendar and the
    clock: 25 characters, the date, [T], hour and minute, seconds [00],
    and the offset [+00:00] or [+01:00]. *)
Theorem tide_time_is_london_iso_text :
  (forall entries out records,
      (forall e y m d,
          In e entries -> Feed.published_parsed e = Some (Some (y, m, d)) ->
          1996 <= y) ->
      Feed.parse_tide_feed entries = (out, Ok records) ->
      Forall (fun r => exists dt,
                  valid_datetime dt /\ 1996 <= year dt
                  /\ tide_time r = london_iso dt) records)
  /\ (forall http_get date_obj out records,
        1996 <= d_year date_obj <= 9999 ->
        Week.scrape_single_day http_get date_obj Europe_London
        = (out, Ok records) ->
        Forall (fun r => exists dt,
                    valid_datetime dt /\ year dt = d_year date_obj
                    /\ tide_time r = london_iso dt) records)
  /\ (forall dt,
        valid_datetime dt -> 1996 <= year dt ->
        List.length (london_iso dt) = 25%nat
        /\ exists off,
             (off = $"+00:00" \/ off = $"+01:00")
             /\ london_iso dt
                = fmt_d 4 (year dt) ++ $"-" ++ fmt_d 2 (month dt) ++ $"-"
                    ++ fmt_d 2 (day dt) ++ $"T" ++ fmt_d 2 (hour dt) ++ $":"
                    ++ fmt_d 2 (minute dt) ++ $":00" ++ off).
Proof.
  split; [|split].
  - intros entries out records Hy H.
    destruct (parse_tide_feed_returns entries out records H) as [F _].
    eapply Forall_impl; [|exact F].
    intros r (_ & _ & _ & e & d & raw & h & He & Hd & _ & Hl & _).
    destruct Hl as (m & t & _ & _ & _ & _ & Hc & _).
    destruct (feed_combine_ok _ _ _ _ Hc) as (dt & V & E & Ed).
    exists dt. split; [exact V|]. split; [|exact E].
    destruct d as [[y mo] dd]. inversion Ed; subst.
    exact (Hy e _ _ _ He Hd).
  - intros http_get date_obj out records Hy H.
    pose proof (scrape_single_day_records http_get date_obj Europe_London
                                          out records H) as F.
    eapply Forall_impl; [|exact F].
    intros r (rw & _ & a & b & c & _ & _ & _ & _ & Hc & _).
    apply week_combine_year in Hc; [|lia].
    destruct Hc as (dt & V & Y & E). eauto.
  - intros dt V _. split; [apply isoformat_length; exact V|].
    exists (format_offset (Europe_London dt)).
    split; [apply london_offset | reflexivity].
Qed.

Lemma tide_time_is_london_iso_text_witness :
  Forall (fun r => exists dt,
              valid_datetime dt /\ year dt = 2024
              /\ tide_time r = london_iso dt)
         [Tide $"2024-06-01T06:15:00+01:00" (Some $"High")
               (S754_finite false 8354177308772270 (-50))].
Proof.
  apply (proj1 (proj2 tide_time_is_london_iso_text)
               (serving [row_high]) day_2024_06_01
               [Print (Fetching_day $"20240601")]).
  - simpl. lia.
  - vm_compute. reflexivity.
Defined.
